(** * The session bridge of ccc-api: a shallow embedding

    The bridge ([src/session/cli-bridge.ts]), the session pool
    ([src/session/pool.ts]), the non-streaming response assembler
    ([src/routes/messages.ts]) and the response translator
    ([src/translators/response.ts]) are embedded as functions over an
    explicit world: the JavaScript objects the code shares by reference
    (managed sessions, sockets, child processes, timers, promises) live in
    stores indexed by an identity, and every callback the event loop may run
    is one [Event] of a total [step] function. *)

From Stdlib Require Import Ascii.
From stdpp Require Import base option list strings pretty gmap.

Local Open Scope Z_scope.

(** ** JavaScript values

    Frames are whatever [JSON.parse] returns, so the router works on untyped
    values.  Numbers are restricted to integers. *)

Local Unset Elimination Schemes.
Inductive JSVal :=
| JUndefined
| JNull
| JBool (b : bool)
| JNum (n : Z)
| JStr (s : string)
| JArr (xs : list JSVal)
| JObj (fields : list (string * JSVal)).
Local Set Elimination Schemes.

Fixpoint assoc {A} (k : string) (l : list (string * A)) : option A :=
  match l with
  | [] => None
  | (k', v) :: l' => if decide (k = k') then Some v else assoc k l'
  end.

(** [v.k]; [None] stands for the TypeError raised on [undefined] and [null]. *)
Definition prop (v : JSVal) (k : string) : option JSVal :=
  match v with
  | JUndefined | JNull => None
  | JObj fs => Some (default JUndefined (assoc k fs))
  | _ => Some JUndefined
  end.

(** [k in v]; [None] stands for the TypeError raised on a primitive. *)
Definition has_prop (k : string) (v : JSVal) : option bool :=
  match v with
  | JObj fs => Some (bool_decide (is_Some (assoc k fs)))
  | JArr _ => Some false
  | _ => None
  end.

(** [v === s] for a string literal [s]. *)
Definition is_str (v : JSVal) (s : string) : bool :=
  match v with
  | JStr s' => bool_decide (s' = s)
  | _ => false
  end.

Definition truthy (v : JSVal) : bool :=
  match v with
  | JUndefined | JNull => false
  | JBool b => b
  | JNum n => negb (n =? 0)
  | JStr s => negb (bool_decide (s = ""))
  | JArr _ | JObj _ => true
  end.

(** [a || b] and [a ?? b]. *)
Definition js_or (a b : JSVal) : JSVal := if truthy a then a else b.

Definition nullish (a b : JSVal) : JSVal :=
  match a with
  | JUndefined | JNull => b
  | _ => a
  end.

(** ** [JSON.stringify] *)

Definition hex_digit (n : N) : ascii :=
  match n with
  | 0 => "0" | 1 => "1" | 2 => "2" | 3 => "3" | 4 => "4" | 5 => "5"
  | 6 => "6" | 7 => "7" | 8 => "8" | 9 => "9" | 10 => "a" | 11 => "b"
  | 12 => "c" | 13 => "d" | 14 => "e" | _ => "f"
  end%N%char.

Definition dquote : ascii := ascii_of_N 34.
Definition backslash : ascii := ascii_of_N 92.

Definition escape_char (c : ascii) : string :=
  let n := N_of_ascii c in
  if (n =? 34)%N then String backslash (String dquote "")
  else if (n =? 92)%N then String backslash (String backslash "")
  else if (n =? 8)%N then String backslash "b"
  else if (n =? 12)%N then String backslash "f"
  else if (n =? 10)%N then String backslash "n"
  else if (n =? 13)%N then String backslash "r"
  else if (n =? 9)%N then String backslash "t"
  else if (n <? 32)%N then
    String backslash (String "u"%char (String "0"%char (String "0"%char
      (String (hex_digit (n / 16)) (String (hex_digit (n mod 16)) "")))))
  else String c "".

Fixpoint escape (s : string) : string :=
  match s with
  | EmptyString => ""
  | String c s' => escape_char c +:+ escape s'
  end.

Definition quote (s : string) : string :=
  String dquote (escape s +:+ String dquote "").

Fixpoint join (sep : string) (l : list string) : string :=
  match l with
  | [] => ""
  | [x] => x
  | x :: l' => x +:+ sep +:+ join sep l'
  end.

Fixpoint JSON_stringify (v : JSVal) : string :=
  match v with
  | JUndefined | JNull => "null"
  | JBool true => "true"
  | JBool false => "false"
  | JNum n => pretty n
  | JStr s => quote s
  | JArr xs => "[" +:+ join "," (map JSON_stringify xs) +:+ "]"
  | JObj fs =>
      "{" +:+ join ","
        ((fix members (l : list (string * JSVal)) : list string :=
            match l with
            | [] => []
            | (_, JUndefined) :: l' => members l'
            | (k, x) :: l' =>
                (quote k +:+ ":" +:+ JSON_stringify x) :: members l'
            end) fs) +:+ "}"
  end.

Global Arguments JSON_stringify : simpl never.

(** ** The JavaScript [Map]

    Insertion-ordered: [set] on a present key keeps its position. *)

Section JSMap.
Context {V : Type}.

Definition Map_get (k : string) (m : list (string * V)) : option V :=
  assoc k m.

Definition Map_has (k : string) (m : list (string * V)) : bool :=
  bool_decide (is_Some (assoc k m)).

Fixpoint Map_set (k : string) (v : V) (m : list (string * V))
  : list (string * V) :=
  match m with
  | [] => [(k, v)]
  | (k', v') :: m' =>
      if decide (k = k') then (k, v) :: m' else (k', v') :: Map_set k v m'
  end.

Fixpoint Map_delete (k : string) (m : list (string * V))
  : list (string * V) :=
  match m with
  | [] => []
  | (k', v') :: m' =>
      if decide (k = k') then Map_delete k m' else (k', v') :: Map_delete k m'
  end.
End JSMap.

(** ** Strings: the helpers the bridge uses *)

Definition nl : string := String (ascii_of_N 10) "".

Fixpoint all_chars (f : ascii → bool) (s : string) : bool :=
  match s with
  | EmptyString => true
  | String c s' => f c && all_chars f s'
  end.

Fixpoint strip_prefix (p s : string) : option string :=
  match p, s with
  | EmptyString, _ => Some s
  | String a p', String b s' =>
      if decide (a = b) then strip_prefix p' s' else None
  | String _ _, EmptyString => None
  end.

(** [s.split(c)] for a one-character separator. *)
Fixpoint split_on (c : ascii) (s : string) : list string :=
  match s with
  | EmptyString => [EmptyString]
  | String a s' =>
      if decide (a = c) then EmptyString :: split_on c s'
      else match split_on c s' with
           | [] => [String a EmptyString]
           | l :: ls => String a l :: ls
           end
  end.

(** ASCII white space, as [String.prototype.trim] removes it. *)
Definition is_space (c : ascii) : bool :=
  let n := N_of_ascii c in
  ((9 <=? n) && (n <=? 13) || (n =? 32))%N.

(** The truthiness of [l.trim()]. *)
Definition trim_nonempty (l : string) : bool :=
  negb (all_chars is_space l).

(** [s.replace(/-/g, empty)] and [s.substring(0, n)]. *)
Fixpoint remove_dashes (s : string) : string :=
  match s with
  | EmptyString => EmptyString
  | String c s' =>
      if decide (c = "-"%char) then remove_dashes s'
      else String c (remove_dashes s')
  end.

Fixpoint take_chars (n : nat) (s : string) : string :=
  match n, s with
  | S n', String c s' => String c (take_chars n' s')
  | _, _ => EmptyString
  end.

(** The class [[a-f0-9-]] of the endpoint's path pattern. *)
Definition is_id_char (c : ascii) : bool :=
  let n := N_of_ascii c in
  ((97 <=? n) && (n <=? 102) || (48 <=? n) && (n <=? 57) || (n =? 45))%N.

(** [url.match(/^\/ws\/cli\/([a-f0-9-]+)$/)]: the captured group. *)
Definition match_path (url : string) : option string :=
  match strip_prefix "/ws/cli/" url with
  | Some rest =>
      if negb (bool_decide (rest = "")) && all_chars is_id_char rest
      then Some rest else None
  | None => None
  end.

(** ** Data model ([src/session/types.ts], [ManagedSession]) *)

Inductive SessionState := starting | connected | ready | busy | exited.

Global Instance SessionState_eq_dec : EqDecision SessionState.
Proof. solve_decision. Defined.

Record SessionInfo := mkSessionInfo {
  sessionId : string;
  cliSessionId : JSVal;
  model : string;
  permissionMode : string;
  state : SessionState;
  pid : option Z;
  cwd : string;
  createdAt : Z;
  lastUsedAt : Z;
}.

(** Sockets, processes, timers and promises are named by their identity. *)
Record ManagedSession := mkManaged {
  info : SessionInfo;
  cliSocket : option nat;
  process : option nat;
  pendingMessages : list string;
  readyResolved : bool;          (* whether [readyPromise] is resolved *)
  apiKey : option string;
}.

Definition info_set_state (st : SessionState) (i : SessionInfo) :=
  mkSessionInfo (sessionId i) (cliSessionId i) (model i) (permissionMode i)
    st (pid i) (cwd i) (createdAt i) (lastUsedAt i).
Definition info_set_cliSessionId (v : JSVal) (i : SessionInfo) :=
  mkSessionInfo (sessionId i) v (model i) (permissionMode i)
    (state i) (pid i) (cwd i) (createdAt i) (lastUsedAt i).
Definition info_set_lastUsedAt (t : Z) (i : SessionInfo) :=
  mkSessionInfo (sessionId i) (cliSessionId i) (model i) (permissionMode i)
    (state i) (pid i) (cwd i) (createdAt i) t.
Definition info_set_pid (p : option Z) (i : SessionInfo) :=
  mkSessionInfo (sessionId i) (cliSessionId i) (model i) (permissionMode i)
    (state i) p (cwd i) (createdAt i) (lastUsedAt i).

Definition on_info (f : SessionInfo → SessionInfo) (m : ManagedSession) :=
  mkManaged (f (info m)) (cliSocket m) (process m) (pendingMessages m)
    (readyResolved m) (apiKey m).
Definition set_cliSocket (s : option nat) (m : ManagedSession) :=
  mkManaged (info m) s (process m) (pendingMessages m)
    (readyResolved m) (apiKey m).
Definition set_process (p : option nat) (m : ManagedSession) :=
  mkManaged (info m) (cliSocket m) p (pendingMessages m)
    (readyResolved m) (apiKey m).
Definition set_pendingMessages (q : list string) (m : ManagedSession) :=
  mkManaged (info m) (cliSocket m) (process m) q
    (readyResolved m) (apiKey m).
Definition set_readyResolved (b : bool) (m : ManagedSession) :=
  mkManaged (info m) (cliSocket m) (process m) (pendingMessages m)
    b (apiKey m).

Inductive ReadyState := CONNECTING | OPEN | CLOSING | CLOSED.

Global Instance ReadyState_eq_dec : EqDecision ReadyState.
Proof. solve_decision. Defined.

Record WebSocket := mkWebSocket {
  readyState : ReadyState;
  sent : list string;                      (* data handed to [send], in order *)
  closeCalls : list (option (Z * string)); (* arguments of [close] *)
  handlers : option (string * nat);        (* [sessionId] and [managed] the
                                              listeners close over *)
}.

Inductive Signal := SIGTERM | SIGKILL.

Record ChildProcess := mkChildProcess {
  spawnfile : string;
  spawnargs : list string;
  spawn_cwd : string;
  spawn_env : list (string * string);
  owner : string * nat;          (* [sessionId] and [managed] of [spawnCLI] *)
  exitCode : option (option Z);  (* [None] while the process runs *)
  signals : list Signal;         (* signals delivered by [kill] *)
  exitListeners : list nat;      (* promises of [killSession], in order *)
}.

Inductive TimerAction :=
| KillTimeout (k : nat)          (* the 5000 ms timer of [killSession] *)
| ReadyTimeout (k : nat).        (* the timer of [waitForReady] *)

Record Timer := mkTimer { deadline : Z; action : TimerAction }.

(** The promise [killSession] awaits. *)
Record KillWait := mkKillWait {
  k_sessionId : string;
  k_managed : nat;
  k_timer : nat;
  k_resolved : bool;
}.

Inductive Settled :=
| Fulfilled (info_of : option nat)   (* the object [getSession] gives then *)
| Rejected (message : string).

(** The race [waitForReady] awaits. *)
Record ReadyWait := mkReadyWait {
  w_sessionId : string;
  w_managed : nat;
  w_settled : option Settled;
}.

(** What [emit] hands to the listeners. *)
Inductive Notification :=
| N_ready (sid : string) (msg : JSVal)
| N_assistant (sid : string) (msg : JSVal)
| N_result (sid : string) (msg : JSVal)
| N_stream_event (sid : string) (msg : JSVal)
| N_error (sid : string) (message : string)
| N_exit (sid : string) (code : option Z).

Record World := mkWorld {
  now : Z;                                (* [Date.now()] *)
  next_id : nat;                          (* the next fresh identity *)
  wsPort : Z;
  sessionTimeout : Z;
  process_env : list (string * string);
  sessions : list (string * nat);         (* [this.sessions] *)
  heap : gmap nat ManagedSession;
  socks : gmap nat WebSocket;
  procs : gmap nat ChildProcess;
  timers : gmap nat Timer;                (* pending [setTimeout]s *)
  kills : gmap nat KillWait;
  waits : gmap nat ReadyWait;
  emitted : list Notification;
}.

Definition set_now (t : Z) (w : World) :=
  mkWorld t (next_id w) (wsPort w) (sessionTimeout w) (process_env w)
    (sessions w) (heap w) (socks w) (procs w) (timers w) (kills w) (waits w)
    (emitted w).
Definition set_next_id (n : nat) (w : World) :=
  mkWorld (now w) n (wsPort w) (sessionTimeout w) (process_env w)
    (sessions w) (heap w) (socks w) (procs w) (timers w) (kills w) (waits w)
    (emitted w).
Definition set_sessions (x : list (string * nat)) (w : World) :=
  mkWorld (now w) (next_id w) (wsPort w) (sessionTimeout w) (process_env w)
    x (heap w) (socks w) (procs w) (timers w) (kills w) (waits w)
    (emitted w).
Definition set_heap (x : gmap nat ManagedSession) (w : World) :=
  mkWorld (now w) (next_id w) (wsPort w) (sessionTimeout w) (process_env w)
    (sessions w) x (socks w) (procs w) (timers w) (kills w) (waits w)
    (emitted w).
Definition set_socks (x : gmap nat WebSocket) (w : World) :=
  mkWorld (now w) (next_id w) (wsPort w) (sessionTimeout w) (process_env w)
    (sessions w) (heap w) x (procs w) (timers w) (kills w) (waits w)
    (emitted w).
Definition set_procs (x : gmap nat ChildProcess) (w : World) :=
  mkWorld (now w) (next_id w) (wsPort w) (sessionTimeout w) (process_env w)
    (sessions w) (heap w) (socks w) x (timers w) (kills w) (waits w)
    (emitted w).
Definition set_timers (x : gmap nat Timer) (w : World) :=
  mkWorld (now w) (next_id w) (wsPort w) (sessionTimeout w) (process_env w)
    (sessions w) (heap w) (socks w) (procs w) x (kills w) (waits w)
    (emitted w).
Definition set_kills (x : gmap nat KillWait) (w : World) :=
  mkWorld (now w) (next_id w) (wsPort w) (sessionTimeout w) (process_env w)
    (sessions w) (heap w) (socks w) (procs w) (timers w) x (waits w)
    (emitted w).
Definition set_waits (x : gmap nat ReadyWait) (w : World) :=
  mkWorld (now w) (next_id w) (wsPort w) (sessionTimeout w) (process_env w)
    (sessions w) (heap w) (socks w) (procs w) (timers w) (kills w) x
    (emitted w).
Definition set_emitted (x : list Notification) (w : World) :=
  mkWorld (now w) (next_id w) (wsPort w) (sessionTimeout w) (process_env w)
    (sessions w) (heap w) (socks w) (procs w) (timers w) (kills w) (waits w)
    x.

(** The bridge right after its constructor ran. *)
Definition new_bridge (port : Z) (sessionTimeoutMs : option Z)
    (env : list (string * string)) (t0 : Z) : World :=
  mkWorld t0 0 port (default (30 * 60 * 1000) sessionTimeoutMs) env
    [] ∅ ∅ ∅ ∅ ∅ ∅ [].

(** ** Primitive effects *)

Definition fresh (w : World) : nat * World :=
  (next_id w, set_next_id (S (next_id w)) w).

(** Mutation of the object [r] refers to. *)
Definition update (r : nat) (f : ManagedSession → ManagedSession)
    (w : World) : World :=
  set_heap (alter f r (heap w)) w.

Definition emit (n : Notification) (w : World) : World :=
  set_emitted (emitted w ++ [n]) w.

(** [ws.send(data)]: only an open socket transmits. *)
Definition ws_send (s : nat) (data : string) (w : World) : World :=
  set_socks
    (alter (λ ws,
       match readyState ws with
       | OPEN => mkWebSocket OPEN (sent ws ++ [data]) (closeCalls ws)
                   (handlers ws)
       | _ => ws
       end) s (socks w)) w.

(** [ws.close(code, reason)]: starts the closing handshake of an open
    socket. *)
Definition ws_close (s : nat) (args : option (Z * string)) (w : World)
    : World :=
  set_socks
    (alter (λ ws,
       match readyState ws with
       | OPEN => mkWebSocket CLOSING (sent ws) (closeCalls ws ++ [args])
                   (handlers ws)
       | _ => ws
       end) s (socks w)) w.

(** [proc.kill(signal)]: a process that has exited receives nothing. *)
Definition proc_kill (p : nat) (sig : Signal) (w : World) : World :=
  set_procs
    (alter (λ c,
       match exitCode c with
       | None => mkChildProcess (spawnfile c) (spawnargs c) (spawn_cwd c)
                   (spawn_env c) (owner c) None (signals c ++ [sig])
                   (exitListeners c)
       | Some _ => c
       end) p (procs w)) w.

Definition is_open (w : World) (s : nat) : bool :=
  match socks w !! s with
  | Some ws => bool_decide (readyState ws = OPEN)
  | None => false
  end.

(** ** The bridge ([src/session/cli-bridge.ts]) *)

(** [sendToCLI(managed, ndjson)] *)
Definition sendToCLI (r : nat) (ndjson : string) (w : World) : World :=
  match heap w !! r with
  | None => w
  | Some m =>
      match cliSocket m with
      | Some s =>
          if is_open w s then ws_send s (ndjson +:+ nl) w
          else update r (λ m, set_pendingMessages
                                (pendingMessages m ++ [ndjson]) m) w
      | None =>
          update r (λ m, set_pendingMessages
                           (pendingMessages m ++ [ndjson]) m) w
      end
  end.

(** The flush loop of [handleConnection]. *)
Definition flush (s : nat) (queue : list string) (w : World) : World :=
  foldl (λ w ndjson, ws_send s (ndjson +:+ nl) w) w queue.

(** [handleConnection(ws, req)]: the server hands over a new, open socket. *)
Definition handleConnection (url : option string) (w : World) : World :=
  let '(s, w) := fresh w in
  let w := set_socks (<[s := mkWebSocket OPEN [] [] None]> (socks w)) w in
  match match_path (default "" url) with
  | None => ws_close s (Some (4000, "Invalid path")) w
  | Some sid =>
      match Map_get sid (sessions w) with
      | None => ws_close s (Some (4001, "Unknown session")) w
      | Some r =>
          match heap w !! r with
          | None => w
          | Some m =>
              let w := update r (set_cliSocket (Some s)) w in
              let w := update r (on_info (info_set_state connected)) w in
              let w := flush s (pendingMessages m) w in
              let w := update r (set_pendingMessages []) w in
              set_socks
                (alter (λ ws, mkWebSocket (readyState ws) (sent ws)
                                (closeCalls ws) (Some (sid, r))) s (socks w))
                w
          end
      end
  end.

(** [managed.readyResolve?.()]: resolving settles every race that still
    waits on the promise; its continuation reads the registry. *)
Definition readyResolve (r : nat) (w : World) : World :=
  let w := update r (set_readyResolved true) w in
  set_waits
    ((λ wt,
        match w_settled wt with
        | None =>
            if decide (w_managed wt = r)
            then mkReadyWait (w_sessionId wt) (w_managed wt)
                   (Some (Fulfilled (Map_get (w_sessionId wt) (sessions w))))
            else wt
        | Some _ => wt
        end) <$> waits w) w.

Definition control_response (request_id input : JSVal) : JSVal :=
  JObj [("type", JStr "control_response");
        ("response",
         JObj [("subtype", JStr "success");
               ("request_id", request_id);
               ("response",
                JObj [("behavior", JStr "allow");
                      ("updatedInput", input)])])].

(** [autoApprovePermission(managed, msg)]; [None] when building the
    response throws. *)
Definition autoApprovePermission (r : nat) (msg : JSVal) (w : World)
    : option World :=
  request_id ← prop msg "request_id";
  request ← prop msg "request";
  input ← prop request "input";
  Some (sendToCLI r (JSON_stringify (control_response request_id input)) w).

(** [routeMessage(sessionId, managed, msg)]; [None] when it throws, which
    happens before any effect. *)
Definition routeMessage (sid : string) (r : nat) (msg : JSVal) (w : World)
    : option World :=
  type ← prop msg "type";
  if is_str type "system" then
    match has_prop "subtype" msg with
    | Some true =>
        subtype ← prop msg "subtype";
        if is_str subtype "init" then
          session_id ← prop msg "session_id";
          let w := update r (on_info (info_set_cliSessionId session_id)) w in
          let w := update r (on_info (info_set_state ready)) w in
          let w := emit (N_ready sid msg) w in
          Some (readyResolve r w)
        else Some w
    | Some false => Some w
    | None => None
    end
  else if is_str type "assistant" then
    Some (emit (N_assistant sid msg) w)
  else if is_str type "result" then
    let w := update r (on_info (info_set_state ready)) w in
    let w := update r (on_info (info_set_lastUsedAt (now w))) w in
    Some (emit (N_result sid msg) w)
  else if is_str type "stream_event" then
    Some (emit (N_stream_event sid msg) w)
  else if is_str type "control_request" then
    request ← prop msg "request";
    subtype ← prop request "subtype";
    if is_str subtype "can_use_tool" then autoApprovePermission r msg w
    else Some w
  else Some w.

Record SpawnOptions := mkSpawnOptions {
  o_model : option string;
  o_permissionMode : option string;
  o_cwd : option string;
  o_sessionId : option string;
  o_apiKey : option string;
}.

(** What a call reads from outside the bridge. *)
Record Ambient := mkAmbient {
  randomUUID : string;
  process_cwd : string;
  which_claude : option string;   (* trimmed output, [None] when it throws *)
  os_pid : option Z;              (* [proc.pid] *)
}.

(** [spawnCLI(sessionId, managed)] *)
Definition spawnCLI (sid : string) (r : nat) (a : Ambient) (w : World)
    : World :=
  match heap w !! r with
  | None => w
  | Some m =>
      let binary := default "claude" (which_claude a) in
      let sdkUrl :=
        "ws://localhost:" +:+ pretty (wsPort w) +:+ "/ws/cli/" +:+ sid in
      let args :=
        ["--sdk-url"; sdkUrl; "--print"; "--output-format"; "stream-json";
         "--input-format"; "stream-json"; "--verbose"]
        ++ (if bool_decide (model (info m) = "") then []
            else ["--model"; model (info m)])
        ++ (if bool_decide (permissionMode (info m) = "") then []
            else ["--permission-mode"; permissionMode (info m)])
        ++ ["-p"; ""] in
      let env := Map_set "CLAUDECODE" "1" (process_env w) in
      let env :=
        match apiKey m with
        | Some k =>
            if bool_decide (k = "") then env
            else Map_set "ANTHROPIC_API_KEY" k env
        | None => env
        end in
      let '(p, w) := fresh w in
      let w :=
        set_procs
          (<[p := mkChildProcess binary args (cwd (info m)) env (sid, r)
                    None [] []]> (procs w)) w in
      let w := update r (set_process (Some p)) w in
      update r (on_info (info_set_pid (os_pid a))) w
  end.

(** [spawnSession(options)] *)
Definition spawnSession (o : SpawnOptions) (a : Ambient) (w : World)
    : string * World :=
  let sid := default (randomUUID a) (o_sessionId o) in
  let cwd := default (process_cwd a) (o_cwd o) in
  let '(r, w) := fresh w in
  let managed :=
    mkManaged
      (mkSessionInfo sid JUndefined
         (default "claude-sonnet-4-5-20250929" (o_model o))
         (default "acceptEdits" (o_permissionMode o))
         starting None cwd (now w) (now w))
      None None [] false (o_apiKey o) in
  let w := set_heap (<[r := managed]> (heap w)) w in
  let w := set_sessions (Map_set sid r (sessions w)) w in
  (sid, spawnCLI sid r a w).

Inductive Started :=
| Threw (message : string)
| Returned
| Awaiting (k : nat).

Definition not_found (sid : string) : string :=
  "Session " +:+ sid +:+ " not found".

(** [waitForReady(sessionId, timeoutMs = 30_000)] up to its [await]. *)
Definition waitForReady (sid : string) (timeoutMs : option Z) (w : World)
    : Started * World :=
  match Map_get sid (sessions w) with
  | None => (Threw (not_found sid), w)
  | Some r =>
      match heap w !! r with
      | None => (Threw (not_found sid), w)
      | Some m =>
          if decide (state (info m) = ready) then (Returned, w)
          else
            let '(k, w) := fresh w in
            let '(t, w) := fresh w in
            let w :=
              set_timers
                (<[t := mkTimer (now w + default 30000 timeoutMs)
                          (ReadyTimeout k)]> (timers w)) w in
            let settled :=
              if readyResolved m
              then Some (Fulfilled (Map_get sid (sessions w))) else None in
            (Awaiting k,
             set_waits (<[k := mkReadyWait sid r settled]> (waits w)) w)
      end
  end.

Definition user_message (content session_id : JSVal) : JSVal :=
  JObj [("type", JStr "user");
        ("message", JObj [("role", JStr "user"); ("content", content)]);
        ("parent_tool_use_id", JNull);
        ("session_id", session_id)].

(** [sendUserMessage(sessionId, content, cliSessionId)]; [None] when it
    throws. *)
Definition sendUserMessage (sid : string) (content cliSid : JSVal)
    (w : World) : option World :=
  r ← Map_get sid (sessions w);
  m ← heap w !! r;
  let w := update r (on_info (info_set_state busy)) w in
  let w := update r (on_info (info_set_lastUsedAt (now w))) w in
  let msg :=
    user_message content
      (nullish (nullish cliSid (cliSessionId (info m))) (JStr "")) in
  Some (sendToCLI r (JSON_stringify msg) w).

(** [sendInterrupt(sessionId)] *)
Definition sendInterrupt (sid : string) (uuid : string) (w : World)
    : World :=
  match Map_get sid (sessions w) with
  | None => w
  | Some r =>
      sendToCLI r
        (JSON_stringify
           (JObj [("type", JStr "control_request");
                  ("request_id", JStr uuid);
                  ("request", JObj [("subtype", JStr "interrupt")])])) w
  end.

(** [getSession(sessionId)] and [hasSession(sessionId)] *)
Definition getSession (sid : string) (w : World) : option SessionInfo :=
  r ← Map_get sid (sessions w); m ← heap w !! r; Some (info m).

Definition hasSession (sid : string) (w : World) : bool :=
  Map_has sid (sessions w).

(** [killSession] after its [await]. *)
Definition kill_finish (sid : string) (r : nat) (w : World) : World :=
  let w :=
    match heap w !! r with
    | Some m =>
        match cliSocket m with
        | Some s => ws_close s None w
        | None => w
        end
    | None => w
    end in
  set_sessions (Map_delete sid (sessions w)) w.

(** [killSession(sessionId)] up to its [await]; the promise it waits on,
    if it does. *)
Definition killSession (sid : string) (w : World) : World * option nat :=
  match Map_get sid (sessions w) with
  | None => (w, None)
  | Some r =>
      match heap w !! r with
      | None => (w, None)
      | Some m =>
          match process m with
          | Some p =>
              let w := proc_kill p SIGTERM w in
              let '(k, w) := fresh w in
              let '(t, w) := fresh w in
              let w :=
                set_timers
                  (<[t := mkTimer (now w + 5000) (KillTimeout k)]> (timers w))
                  w in
              let w :=
                set_procs
                  (alter (λ c, mkChildProcess (spawnfile c) (spawnargs c)
                                 (spawn_cwd c) (spawn_env c) (owner c)
                                 (exitCode c) (signals c)
                                 (exitListeners c ++ [k])) p (procs w)) w in
              (set_kills (<[k := mkKillWait sid r t false]> (kills w)) w,
               Some k)
          | None => (kill_finish sid r w, None)
          end
      end
  end.

(** [resolve()] of the promise of [killSession]: the first call resumes the
    function. *)
Definition resolve_kill (k : nat) (w : World) : World :=
  match kills w !! k with
  | Some kw =>
      if k_resolved kw then w
      else
        let w :=
          set_kills
            (<[k := mkKillWait (k_sessionId kw) (k_managed kw) (k_timer kw)
                      true]> (kills w)) w in
        kill_finish (k_sessionId kw) (k_managed kw) w
  | None => w
  end.

Definition timeout_error : string := "Timeout waiting for CLI to initialize".

(** The callback of a timer. *)
Definition run_timer (a : TimerAction) (w : World) : World :=
  match a with
  | KillTimeout k =>
      match kills w !! k with
      | Some kw =>
          let w :=
            match heap w !! k_managed kw with
            | Some m =>
                match process m with
                | Some p => proc_kill p SIGKILL w
                | None => w
                end
            | None => w
            end in
          resolve_kill k w
      | None => w
      end
  | ReadyTimeout k =>
      match waits w !! k with
      | Some wt =>
          match w_settled wt with
          | None =>
              set_waits
                (<[k := mkReadyWait (w_sessionId wt) (w_managed wt)
                          (Some (Rejected timeout_error))]>
                   (waits w)) w
          | Some _ => w
          end
      | None => w
      end
  end.

(** A pending timer fires, at its deadline or later. *)
Definition fire_timer (t : nat) (w : World) : World :=
  match timers w !! t with
  | Some tm =>
      let w := set_now (Z.max (now w) (deadline tm)) w in
      let w := set_timers (delete t (timers w)) w in
      run_timer (action tm) w
  | None => w
  end.

(** The exit listener [killSession] adds: [clearTimeout(timer)]. *)
Definition clear_kill_timer (w : World) (k : nat) : World :=
  match kills w !! k with
  | Some kw => set_timers (delete (k_timer kw) (timers w)) w
  | None => w
  end.

(** The process emits [exit]: the listener of [spawnCLI] runs, then those
    of [killSession] in the order they were added, then the functions they
    resumed. *)
Definition on_proc_exit (p : nat) (code : option Z) (w : World) : World :=
  match procs w !! p with
  | Some c =>
      match exitCode c with
      | Some _ => w
      | None =>
          let w :=
            set_procs
              (<[p := mkChildProcess (spawnfile c) (spawnargs c)
                        (spawn_cwd c) (spawn_env c) (owner c) (Some code)
                        (signals c) (exitListeners c)]> (procs w)) w in
          let w := update (owner c).2 (on_info (info_set_state exited)) w in
          let w := emit (N_exit (owner c).1 code) w in
          let w := foldl clear_kill_timer w (exitListeners c) in
          foldl (λ w k, resolve_kill k w) w (exitListeners c)
      end
  | None => w
  end.

(** The process emits [error]. *)
Definition on_proc_error (p : nat) (message : string) (w : World) : World :=
  match procs w !! p with
  | Some c => emit (N_error (owner c).1 message) w
  | None => w
  end.

(** The socket emits [close]. *)
Definition on_close (s : nat) (w : World) : World :=
  match socks w !! s with
  | Some ws =>
      let w :=
        set_socks
          (<[s := mkWebSocket CLOSED (sent ws) (closeCalls ws)
                    (handlers ws)]> (socks w)) w in
      match handlers ws with
      | Some (_, r) => update r (set_cliSocket None) w
      | None => w
      end
  | None => w
  end.

(** The peer starts the closing handshake: the socket stops being open
    before it emits [close]. *)
Definition on_peer_closing (s : nat) (w : World) : World :=
  set_socks
    (alter (λ ws,
       match readyState ws with
       | OPEN => mkWebSocket CLOSING (sent ws) (closeCalls ws) (handlers ws)
       | _ => ws
       end) s (socks w)) w.

(** One pass of [reapIdleSessions] over an entry. *)
Definition reap_entry (t : Z) (w : World) (e : string * nat) : World :=
  match heap w !! e.2 with
  | None => w
  | Some m =>
      if decide (state (info m) = exited)
      then set_sessions (Map_delete e.1 (sessions w)) w
      else if decide (t - lastUsedAt (info m) > sessionTimeout w)
           then (killSession e.1 w).1
           else w
  end.

(** [reapIdleSessions()] *)
Definition reapIdleSessions (w : World) : World :=
  foldl (reap_entry (now w)) w (sessions w).

(** ** The session pool ([src/session/pool.ts]) *)

Inductive PoolCall :=
| Done (sessionId : string) (info_of : option nat) (isNew : bool)
| Failed (message : string)
| Pending (sessionId : string) (k : nat).

(** The first block of [getOrCreate]: the session the options name, if it
    is registered and has not exited. *)
Definition existing_session (o : SpawnOptions) (w : World)
    : option (string * nat) :=
  match o_sessionId o with
  | Some sid =>
      if negb (bool_decide (sid = "")) && hasSession sid w then
        r ← Map_get sid (sessions w);
        m ← heap w !! r;
        if decide (state (info m) = exited) then None else Some (sid, r)
      else None
  | None => None
  end.

(** [getOrCreate(options)] up to its [await]: [Pending sid k] resolves to
    [{ sessionId: sid, info, isNew: true }] or rejects as the race [k]
    settles. *)
Definition getOrCreate (o : SpawnOptions) (a : Ambient) (w : World)
    : PoolCall * World :=
  match existing_session o w with
  | Some (sid, r) => (Done sid (Some r) false, w)
  | None =>
      let '(sid, w) := spawnSession o a w in
      match waitForReady sid None w with
      | (Returned, w) => (Done sid (Map_get sid (sessions w)) true, w)
      | (Threw message, w) => (Failed message, w)
      | (Awaiting k, w) => (Pending sid k, w)
      end
  end.

(** ** The response translator ([src/translators/response.ts]) *)

Definition mapStopReason (reason : JSVal) : JSVal :=
  if negb (truthy reason) then JNull
  else if is_str reason "end_turn" then JStr "end_turn"
  else if is_str reason "max_tokens" then JStr "max_tokens"
  else if is_str reason "stop_sequence" then JStr "stop_sequence"
  else if is_str reason "tool_use" then JStr "tool_use"
  else JStr "end_turn".

(** [buildAnthropicResponse(assistant, result)]; [uuid] is what
    [randomUUID()] returns if it is called, [None] stands for a TypeError. *)
Definition buildAnthropicResponse (assistant result : JSVal) (uuid : string)
    : option JSVal :=
  message ← prop assistant "message";
  id ← prop message "id";
  content ← prop message "content";
  model ← prop message "model";
  result_stop ← prop result "stop_reason";
  assistant_stop ← prop message "stop_reason";
  usage ← prop result "usage";
  input_tokens ← prop usage "input_tokens";
  output_tokens ← prop usage "output_tokens";
  cache_creation ← prop usage "cache_creation_input_tokens";
  cache_read ← prop usage "cache_read_input_tokens";
  Some (JObj
    [("id", js_or id (JStr ("msg_" +:+ take_chars 20 (remove_dashes uuid))));
     ("type", JStr "message");
     ("role", JStr "assistant");
     ("content", content);
     ("model", model);
     ("stop_reason", mapStopReason (js_or result_stop assistant_stop));
     ("stop_sequence", JNull);
     ("usage",
      JObj [("input_tokens", input_tokens);
            ("output_tokens", output_tokens);
            ("cache_creation_input_tokens", cache_creation);
            ("cache_read_input_tokens", cache_read)])]).

(** ** The non-streaming assembler ([handleNonStreaming]) *)

Record HttpResponse := mkHttpResponse {
  status : Z;
  body : JSVal;
  headers : list (string * string);
}.

Record NonStreaming := mkNonStreaming {
  ns_sessionId : string;
  lastAssistant : option JSVal;
  listening : bool;                  (* the four listeners are registered *)
  response : option HttpResponse;    (* what the promise resolved to *)
}.

Definition api_error (message : string) : JSVal :=
  JObj [("error", JObj [("type", JStr "api_error");
                        ("message", JStr message)])].

(** [cleanup()] followed by [resolve(r)]; a promise resolves once. *)
Definition cleanup_resolve (r : HttpResponse) (a : NonStreaming)
    : NonStreaming :=
  mkNonStreaming (ns_sessionId a) (lastAssistant a) false
    (match response a with Some r0 => Some r0 | None => Some r end).

(** [cleanup()] alone. *)
Definition cleanup (a : NonStreaming) : NonStreaming :=
  mkNonStreaming (ns_sessionId a) (lastAssistant a) false (response a).

Definition show_code (code : option Z) : string :=
  match code with
  | Some n => pretty n
  | None => "null"
  end.

(** The listeners [onAssistant], [onResult], [onError] and [onExit] on one
    notification. *)
Definition deliver (uuid : string) (a : NonStreaming) (n : Notification)
    : NonStreaming :=
  if negb (listening a) then a
  else
    match n with
    | N_assistant sid msg =>
        if decide (sid = ns_sessionId a)
        then mkNonStreaming (ns_sessionId a) (Some msg) (listening a)
               (response a)
        else a
    | N_result sid msg =>
        if decide (sid = ns_sessionId a) then
          let assistant := default JNull (lastAssistant a) in
          if negb (truthy assistant) then
            cleanup_resolve
              (mkHttpResponse 500
                 (api_error "No response received from Claude Code") []) a
          else
            match buildAnthropicResponse assistant msg uuid with
            | Some r =>
                cleanup_resolve
                  (mkHttpResponse 200 r [("x-session-id", ns_sessionId a)]) a
            | None => cleanup a
            end
        else a
    | N_error sid message =>
        if decide (sid = ns_sessionId a)
        then cleanup_resolve (mkHttpResponse 500 (api_error message) []) a
        else a
    | N_exit sid code =>
        if decide (sid = ns_sessionId a)
        then cleanup_resolve
               (mkHttpResponse 500
                  (api_error ("CLI process exited with code "
                              +:+ show_code code)) []) a
        else a
    | _ => a
    end.

(** The five-minute timer of the call. *)
Definition request_timeout (a : NonStreaming) : NonStreaming :=
  cleanup_resolve (mkHttpResponse 504 (api_error "Request timed out") []) a.

(** [handleNonStreaming] up to the first notification: the listeners are
    registered, then the user message is dispatched ([None]: it threw). *)
Definition handleNonStreaming (sid : string) (content : JSVal) (w : World)
    : NonStreaming * option World :=
  (mkNonStreaming sid None true None,
   sendUserMessage sid content JUndefined w).

Definition assemble (uuid : string) (a : NonStreaming)
    (ns : list Notification) : NonStreaming :=
  foldl (deliver uuid) a ns.

(** ** The event loop *)

Inductive Event :=
| Connection (url : option string)
| Message (s : nat) (data : string)
| PeerClosing (s : nat)
| Close (s : nat)
| SocketError (s : nat) (message : string)
| ProcExit (p : nat) (code : option Z)
| ProcError (p : nat) (message : string)
| TimerFires (t : nat)
| ReaperTick
| Clock (t : Z)
| Call_spawnSession (o : SpawnOptions) (a : Ambient)
| Call_waitForReady (sid : string) (timeoutMs : option Z)
| Call_sendUserMessage (sid : string) (content cliSessionId : JSVal)
| Call_sendInterrupt (sid : string) (uuid : string)
| Call_killSession (sid : string)
| Call_getOrCreate (o : SpawnOptions) (a : Ambient).

Section EventLoop.
(** [JSON.parse]; [None] when it throws. *)
Variable JSON_parse : string → option JSVal.

(** One line of a chunk: parsed and routed, or logged and dropped. *)
Definition on_line (sid : string) (r : nat) (w : World) (line : string)
    : World :=
  match JSON_parse line with
  | Some msg => default w (routeMessage sid r msg w)
  | None => w
  end.

(** The socket emits [message]. *)
Definition on_message (s : nat) (data : string) (w : World) : World :=
  match socks w !! s with
  | Some ws =>
      match handlers ws with
      | Some (sid, r) =>
          foldl (on_line sid r) w
            (filter (λ l, trim_nonempty l) (split_on (ascii_of_N 10) data))
      | None => w
      end
  | None => w
  end.

Definition step (w : World) (e : Event) : World :=
  match e with
  | Connection url => handleConnection url w
  | Message s data => on_message s data w
  | PeerClosing s => on_peer_closing s w
  | Close s => on_close s w
  | SocketError _ _ => w
  | ProcExit p code => on_proc_exit p code w
  | ProcError p message => on_proc_error p message w
  | TimerFires t => fire_timer t w
  | ReaperTick => reapIdleSessions w
  | Clock t => set_now (Z.max (now w) t) w
  | Call_spawnSession o a => (spawnSession o a w).2
  | Call_waitForReady sid timeoutMs => (waitForReady sid timeoutMs w).2
  | Call_sendUserMessage sid content cliSid =>
      default w (sendUserMessage sid content cliSid w)
  | Call_sendInterrupt sid uuid => sendInterrupt sid uuid w
  | Call_killSession sid => (killSession sid w).1
  | Call_getOrCreate o a => (getOrCreate o a w).2
  end.

Definition run (w : World) (es : list Event) : World := foldl step w es.
End EventLoop.

(** ** Observations and invariants *)

(** The transport of a session is attached and open. *)
Definition writable (w : World) (m : ManagedSession) : bool :=
  match cliSocket m with
  | Some s => is_open w s
  | None => false
  end.

(** Identities are allocated in order, so whatever a store holds is older
    than [next_id]; a timer is allocated right after the promise it serves,
    a process right after the session it serves; the registry has one
    entry per key and never shares an object between two keys; no identity
    names both a promise of [killSession] and a race of [waitForReady]. *)
Record wf (w : World) : Prop := mkWf {
  wf_heap : ∀ r, is_Some (heap w !! r) → (r < next_id w)%nat;
  wf_socks : ∀ s, is_Some (socks w !! s) → (s < next_id w)%nat;
  wf_procs : ∀ p, is_Some (procs w !! p) → (p < next_id w)%nat;
  wf_timers : ∀ t, is_Some (timers w !! t) → (t < next_id w)%nat;
  wf_kills : ∀ k kw, kills w !! k = Some kw →
      (S k < next_id w)%nat ∧ k_timer kw = S k;
  wf_waits : ∀ k, is_Some (waits w !! k) → (S k < next_id w)%nat;
  wf_keys : NoDup (sessions w).*1;
  wf_refs : NoDup (sessions w).*2;
  wf_registered : ∀ sid r, (sid, r) ∈ sessions w → is_Some (heap w !! r);
  wf_process : ∀ r m p, heap w !! r = Some m → process m = Some p → p = S r;
  wf_timer_kill : ∀ t tm k, timers w !! t = Some tm →
      action tm = KillTimeout k → t = S k ∧ waits w !! k = None;
  wf_timer_wait : ∀ t tm k, timers w !! t = Some tm →
      action tm = ReadyTimeout k → t = S k ∧ kills w !! k = None;
  wf_wait_managed : ∀ k wt, waits w !! k = Some wt →
      is_Some (heap w !! w_managed wt);
  wf_handlers : ∀ s ws sid r, socks w !! s = Some ws →
      handlers ws = Some (sid, r) → is_Some (heap w !! r);
  wf_spawned : ∀ r m p, heap w !! r = Some m → process m = Some p →
      is_Some (procs w !! p);
}.

(** What a socket has transmitted and what a session still holds back. *)
Definition transmitted (w : World) (s : nat) : list string :=
  match socks w !! s with
  | Some ws => sent ws
  | None => []
  end.

Definition queued (w : World) (r : nat) : list string :=
  match heap w !! r with
  | Some m => pendingMessages m
  | None => []
  end.

(** What an event may do to a session object that exists when the event
    arrives: [touch w r e] relates the object [r] before and after one
    assignment that [e], handled in world [w], may perform on it. *)
Inductive touch (w : World) (r : nat)
  : Event → ManagedSession → ManagedSession → Prop :=
| touch_attach_socket url sid m :
    match_path (default "" url) = Some sid →
    Map_get sid (sessions w) = Some r →
    touch w r (Connection url) m (set_cliSocket (Some (next_id w)) m)
| touch_attach_state url sid m :
    match_path (default "" url) = Some sid →
    Map_get sid (sessions w) = Some r →
    touch w r (Connection url) m (on_info (info_set_state connected) m)
| touch_attach_flush url sid m :
    match_path (default "" url) = Some sid →
    Map_get sid (sessions w) = Some r →
    touch w r (Connection url) m (set_pendingMessages [] m)
| touch_frame_sid s data ws sid v m :
    socks w !! s = Some ws → handlers ws = Some (sid, r) →
    touch w r (Message s data) m (on_info (info_set_cliSessionId v) m)
| touch_frame_ready s data ws sid m :
    socks w !! s = Some ws → handlers ws = Some (sid, r) →
    touch w r (Message s data) m (on_info (info_set_state ready) m)
| touch_frame_resolve s data ws sid m :
    socks w !! s = Some ws → handlers ws = Some (sid, r) →
    touch w r (Message s data) m (set_readyResolved true m)
| touch_frame_time s data ws sid t m :
    socks w !! s = Some ws → handlers ws = Some (sid, r) →
    touch w r (Message s data) m (on_info (info_set_lastUsedAt t) m)
| touch_frame_push s data ws sid f m :
    socks w !! s = Some ws → handlers ws = Some (sid, r) →
    touch w r (Message s data) m
      (set_pendingMessages (pendingMessages m ++ [f]) m)
| touch_close s ws sid m :
    socks w !! s = Some ws → handlers ws = Some (sid, r) →
    touch w r (Close s) m (set_cliSocket None m)
| touch_exit p c code m :
    procs w !! p = Some c → (owner c).2 = r →
    touch w r (ProcExit p code) m (on_info (info_set_state exited) m)
| touch_user_busy sid content cliSid m :
    Map_get sid (sessions w) = Some r →
    touch w r (Call_sendUserMessage sid content cliSid) m
      (on_info (info_set_state busy) m)
| touch_user_time sid content cliSid t m :
    Map_get sid (sessions w) = Some r →
    touch w r (Call_sendUserMessage sid content cliSid) m
      (on_info (info_set_lastUsedAt t) m)
| touch_user_push sid content cliSid f m :
    Map_get sid (sessions w) = Some r →
    touch w r (Call_sendUserMessage sid content cliSid) m
      (set_pendingMessages (pendingMessages m ++ [f]) m)
| touch_interrupt_push sid uuid f m :
    Map_get sid (sessions w) = Some r →
    touch w r (Call_sendInterrupt sid uuid) m
      (set_pendingMessages (pendingMessages m ++ [f]) m).

(** Every object of [w] is still there in [w'], changed by steps of [T]
    only. *)
Definition footprint (T : nat → relation ManagedSession) (w w' : World)
    : Prop :=
  ∀ r m, heap w !! r = Some m →
    ∃ m', heap w' !! r = Some m' ∧ rtc (T r) m m'.

(** ** The lifecycle graph *)

(** [starting → connected → ready → busy → ready → …], and [exited] from
    anywhere. *)
Definition lifecycle_edge (a b : SessionState) : bool :=
  match a, b with
  | starting, connected | connected, ready | ready, busy | busy, ready => true
  | _, exited => true
  | _, _ => false
  end.

(** The state an event assigns, if it assigns one. *)
Definition assigns (e : Event) : option SessionState :=
  match e with
  | Connection _ => Some connected
  | Message _ _ => Some ready
  | Call_sendUserMessage _ _ _ => Some busy
  | ProcExit _ _ => Some exited
  | _ => None
  end.

(** The states in which the graph expects an event: a transport attaches
    to a starting session, frames arrive once it is connected, a user
    message is dispatched to a ready session. *)
Definition expected (e : Event) (st : SessionState) : bool :=
  match e with
  | Connection _ => bool_decide (st = starting)
  | Message _ _ =>
      bool_decide (st = connected ∨ st = ready ∨ st = busy)
  | Call_sendUserMessage _ _ _ => bool_decide (st = ready)
  | _ => true
  end.

Definition state_of (w : World) (r : nat) : option SessionState :=
  (λ m, state (info m)) <$> heap w !! r.

Global Arguments state_of : simpl never.

(** Two successive observations of a session agree with the graph. *)
Definition graph_step (a b : option SessionState) : Prop :=
  ∃ x y, a = Some x ∧ b = Some y ∧ (x = y ∨ lifecycle_edge x y = true).

Fixpoint chain {A} (R : A → A → Prop) (l : list A) : Prop :=
  match l with
  | a :: (b :: _) as l' => R a b ∧ chain R l'
  | _ => True
  end.

Section Runs.
Variable JSON_parse : string → option JSVal.

(** The states of the object [r] along a run. *)
Fixpoint history (w : World) (es : list Event) (r : nat)
    : list (option SessionState) :=
  state_of w r ::
  match es with
  | [] => []
  | e :: es' => history (step JSON_parse w e) es' r
  end.

(** Every event of the run finds the object [r] in a state the graph
    expects it in. *)
Fixpoint expected_run (w : World) (es : list Event) (r : nat) : Prop :=
  match es with
  | [] => True
  | e :: es' =>
      (∀ st, state_of w r = Some st → expected e st = true)
      ∧ expected_run (step JSON_parse w e) es' r
  end.

(** No event of the run attaches a transport to the object [r]. *)
Fixpoint unattached_run (w : World) (es : list Event) (r : nat) : Prop :=
  match es with
  | [] => True
  | e :: es' =>
      (∀ url sid, e = Connection url →
         match_path (default "" url) = Some sid →
         Map_get sid (sessions w) ≠ Some r)
      ∧ unattached_run (step JSON_parse w e) es' r
  end.
End Runs.

(** ** Sample inputs *)

Definition amb0 : Ambient :=
  mkAmbient "0a1b2c3d-0000-4000-8000-00000000beef" "/srv" None (Some 4242).

Definition opts0 (sid : option string) : SpawnOptions :=
  mkSpawnOptions None None None sid None.

Definition frame_init : JSVal :=
  JObj [("type", JStr "system"); ("subtype", JStr "init");
        ("session_id", JStr "cli-1")].

Definition frame_result : JSVal :=
  JObj [("type", JStr "result"); ("subtype", JStr "success");
        ("stop_reason", JStr "end_turn");
        ("usage", JObj [("input_tokens", JNum 3); ("output_tokens", JNum 1)])].

(** A parser that knows two lines. *)
Definition parse0 (line : string) : option JSVal :=
  if decide (line = JSON_stringify frame_init) then Some frame_init
  else if decide (line = JSON_stringify frame_result) then Some frame_result
  else None.

Definition w0 : World := new_bridge 3458 None [] 1000.

(** One session, [abc], just spawned: object 0 and process 1. *)
Definition w_abc : World := (spawnSession (opts0 (Some "abc")) amb0 w0).2.

Definition m_abc : ManagedSession :=
  mkManaged
    (mkSessionInfo "abc" JUndefined "claude-sonnet-4-5-20250929"
       "acceptEdits" starting (Some 4242) "/srv" 1000 1000)
    None (Some 1%nat) [] false None.

(** ** Races of [waitForReady] *)

(** While frames are routed to the object [r]: the race still is what it
    was, or it was pending on [r], is fulfilled now, and [r] is ready. *)
Definition wait_progress (k r : nat) (wt : ReadyWait) (w' : World) : Prop :=
  ∃ wt', waits w' !! k = Some wt'
    ∧ w_sessionId wt' = w_sessionId wt ∧ w_managed wt' = w_managed wt
    ∧ (w_settled wt' = w_settled wt
       ∨ (w_settled wt = None ∧ w_managed wt = r
          ∧ (∃ i, w_settled wt' = Some (Fulfilled i))
          ∧ state_of w' r = Some ready)).

(** What one event, taking [w] to [w'], does to a race. *)
Inductive wait_change (w : World) (e : Event) (k : nat)
    (wt wt' : ReadyWait) (w' : World) : Prop :=
| wait_same :
    w_settled wt' = w_settled wt → wait_change w e k wt wt' w'
| wait_ready s data ws sid i :
    w_settled wt = None →
    e = Message s data →
    socks w !! s = Some ws → handlers ws = Some (sid, w_managed wt) →
    w_settled wt' = Some (Fulfilled i) →
    state_of w' (w_managed wt) = Some ready →
    wait_change w e k wt wt' w'
| wait_timeout t tm :
    w_settled wt = None →
    e = TimerFires t →
    timers w !! t = Some tm → action tm = ReadyTimeout k →
    w_settled wt' = Some (Rejected timeout_error) →
    sessions w' = sessions w → heap w' = heap w → procs w' = procs w →
    wait_change w e k wt wt' w'.

(** The session registered under the empty id. *)
Definition w_empty : World := (spawnSession (opts0 (Some "")) amb0 w0).2.

(** ** Registry and socket listeners between two worlds *)

(** The registry only lost entries. *)
Definition shrinks (w w' : World) : Prop :=
  ∀ sid r, Map_get sid (sessions w') = Some r →
    Map_get sid (sessions w) = Some r.

(** Every socket was there before, with the same listeners. *)
Definition handlers_kept (w w' : World) : Prop :=
  ∀ s ws', socks w' !! s = Some ws' →
    ∃ ws, socks w !! s = Some ws ∧ handlers ws = handlers ws'.

(** No socket has listeners that close over the object [r], and the
    registry knows [r] under the id [sid] only. *)
Definition unreachable (w : World) (r : nat) (sid : string) : Prop :=
  (∀ s ws sid', socks w !! s = Some ws → handlers ws ≠ Some (sid', r))
  ∧ (∀ sid', Map_get sid' (sessions w) = Some r → sid' = sid).

(** A session whose id has an upper-case letter, and its creating call. *)
Definition w_ABC : World := (getOrCreate (opts0 (Some "ABC")) amb0 w0).2.

(** ** Promises of [killSession] *)

(** The call [k] of [killSession] on the session [sid], object [r],
    process [p], is suspended: its promise is unresolved, its grace timer is
    armed for the time [d], and its listener waits for the process. *)
Definition kill_pending (w : World) (k : nat) (sid : string) (r p : nat)
    (d : Z) : Prop :=
  kills w !! k = Some (mkKillWait sid r (S k) false)
  ∧ timers w !! S k = Some (mkTimer d (KillTimeout k))
  ∧ (∃ m, heap w !! r = Some m ∧ process m = Some p)
  ∧ (∃ c, procs w !! p = Some c ∧ k ∈ exitListeners c).

(** The call [k] has resumed and removed the record of [sid]. *)
Definition kill_done (w : World) (k : nat) (sid : string) (r : nat) : Prop :=
  kills w !! k = Some (mkKillWait sid r (S k) true).

(** Every process is still there, with at least the listeners it had. *)
Definition listeners_kept (w w' : World) : Prop :=
  ∀ p c k, procs w !! p = Some c → k ∈ exitListeners c →
    ∃ c', procs w' !! p = Some c' ∧ k ∈ exitListeners c'.

(** ** The reaper *)

(** The pass as the specification words it: an exited session is removed,
    and a session idle for longer than the threshold triggers
    [killSession], one rule after the other. *)
Definition reap_entry_spec (t : Z) (w : World) (e : string * nat) : World :=
  match heap w !! e.2 with
  | None => w
  | Some m =>
      let w :=
        if decide (state (info m) = exited)
        then set_sessions (Map_delete e.1 (sessions w)) w else w in
      if decide (t - lastUsedAt (info m) > sessionTimeout w)
      then (killSession e.1 w).1 else w
  end.

Definition reap_spec (w : World) : World :=
  foldl (reap_entry_spec (now w)) w (sessions w).

(** Between [w1] and [w2] nothing happened to the session [sid] and its
    process [p]: same registration, same process record, no new call of
    [killSession] for it, and the calls and timers there were are still
    there. *)
Record undisturbed (sid : string) (p : nat) (w1 w2 : World) : Prop := {
  und_wf : wf w2;
  und_heap : heap w2 = heap w1;
  und_now : now w2 = now w1;
  und_timeout : sessionTimeout w2 = sessionTimeout w1;
  und_shrinks : shrinks w1 w2;
  und_session : Map_get sid (sessions w2) = Map_get sid (sessions w1);
  und_proc : procs w2 !! p = procs w1 !! p;
  und_no_kill : ∀ k kw, kills w2 !! k = Some kw → k_sessionId kw = sid →
      kills w1 !! k = Some kw;
  und_kills : ∀ k, is_Some (kills w1 !! k) →
      kills w2 !! k = kills w1 !! k ∧ timers w2 !! S k = timers w1 !! S k;
}.

(** ** The non-streaming assembler *)

(** The notification is one the listeners of the call for [sid] act on. *)
Definition concerns (sid : string) (n : Notification) : bool :=
  match n with
  | N_assistant s _ | N_result s _ | N_error s _ | N_exit s _ =>
      bool_decide (s = sid)
  | _ => false
  end.

(** The turn of the specification's example: the assistant says hi, the
    result closes the turn. *)
Definition content_hi : JSVal :=
  JArr [JObj [("type", JStr "text"); ("text", JStr "hi")]].

Definition message_hi : JSVal :=
  JObj [("id", JStr "msg_01");
        ("type", JStr "message");
        ("role", JStr "assistant");
        ("model", JStr "claude-sonnet-4-5-20250929");
        ("content", content_hi);
        ("stop_reason", JNull);
        ("usage",
         JObj [("input_tokens", JNum 3); ("output_tokens", JNum 1)])].

Definition assistant_hi : JSVal :=
  JObj [("type", JStr "assistant");
        ("message", message_hi);
        ("session_id", JStr "cli-1")].

Definition usage_end_turn : JSVal :=
  JObj [("input_tokens", JNum 3); ("output_tokens", JNum 1);
        ("cache_creation_input_tokens", JNum 0);
        ("cache_read_input_tokens", JNum 0)].

Definition result_end_turn : JSVal :=
  JObj [("type", JStr "result");
        ("subtype", JStr "success");
        ("is_error", JBool false);
        ("stop_reason", JStr "end_turn");
        ("usage", usage_end_turn);
        ("session_id", JStr "cli-1")].

(** ** More sample inputs *)

(** The process of [abc] has connected: socket 2 is its transport. *)
Definition w_connected : World := handleConnection (Some "/ws/cli/abc") w_abc.

Definition m_connected : ManagedSession :=
  set_pendingMessages []
    (on_info (info_set_state connected) (set_cliSocket (Some 2%nat) m_abc)).

Definition request_ls : JSVal :=
  JObj [("subtype", JStr "can_use_tool");
        ("tool_name", JStr "Bash");
        ("input", JObj [("command", JStr "ls")])].

Definition frame_can_use_tool : JSVal :=
  JObj [("type", JStr "control_request");
        ("request_id", JStr "req-1");
        ("request", request_ls)].

(** One turn of [abc]: the process connects and announces itself, a user
    message is dispatched, the result arrives, the process exits. *)
Definition es_turn : list Event :=
  [Connection (Some "/ws/cli/abc");
   Message 2 (JSON_stringify frame_init);
   Call_sendUserMessage "abc" (JStr "hi") JUndefined;
   Message 2 (JSON_stringify frame_result);
   ProcExit 1 (Some 0)].

(** Half an hour and a second after [abc] was last used. *)
Definition w_late : World := set_now 1801001 w_abc.

(** What the call for [abc] is delivered in the example: something for
    another session first, a stream event in between, an exit afterwards. *)
Definition pre_hi : list Notification := [N_assistant "other" assistant_hi].
Definition mid_hi : list Notification := [N_stream_event "abc" JNull].
Definition post_hi : list Notification := [N_exit "abc" (Some 0)].

(** After the transport of [abc] has closed: a user message, then the
    process connects again. *)
Definition es_after_close : list Event :=
  [Call_sendUserMessage "abc" (JStr "hi") JUndefined].

Definition es_reconnect : list Event :=
  [Close 2; Call_sendUserMessage "abc" (JStr "hi") JUndefined;
   Connection (Some "/ws/cli/abc")].

(** * The rest of the translators and of the bridge *)

(** ** [src/translators/response.ts]: partial responses and SSE events *)

(** [buildPartialResponse(assistant, model)]; [uuid] is what [randomUUID()]
    returns if it is called, [None] stands for a TypeError. *)
Definition buildPartialResponse (assistant model : JSVal) (uuid : string)
    : option JSVal :=
  message ← prop assistant "message";
  id ← prop message "id";
  content ← prop message "content";
  message_model ← prop message "model";
  stop_reason ← prop message "stop_reason";
  usage ← prop message "usage";
  Some (JObj
    [("id", js_or id (JStr ("msg_" +:+ take_chars 20 (remove_dashes uuid))));
     ("type", JStr "message");
     ("role", JStr "assistant");
     ("content", content);
     ("model", js_or message_model model);
     ("stop_reason", mapStopReason stop_reason);
     ("stop_sequence", JNull);
     ("usage",
      js_or usage
        (JObj [("input_tokens", JNum 0); ("output_tokens", JNum 0)]))]).

(** A string literal between double quotes. *)
Definition dq (s : string) : string := String dquote (s +:+ String dquote "").

(** [sseMessageStart(model, id)] *)
Definition sseMessageStart (model id : JSVal) (uuid : string) : string :=
  let msgId :=
    js_or id (JStr ("msg_" +:+ take_chars 20 (remove_dashes uuid))) in
  let data :=
    JObj [("type", JStr "message_start");
          ("message",
           JObj [("id", msgId);
                 ("type", JStr "message");
                 ("role", JStr "assistant");
                 ("content", JArr []);
                 ("model", model);
                 ("stop_reason", JNull);
                 ("stop_sequence", JNull);
                 ("usage",
                  JObj [("input_tokens", JNum 0);
                        ("output_tokens", JNum 0)])])] in
  "event: message_start" +:+ nl +:+ "data: " +:+ JSON_stringify data
    +:+ nl +:+ nl.

(** [ssePing()] *)
Definition ssePing : string :=
  "event: ping" +:+ nl +:+ "data: {" +:+ dq "type" +:+ ":" +:+ dq "ping"
    +:+ "}" +:+ nl +:+ nl.

(** [sseContentBlockStart(index, block)] *)
Definition sseContentBlockStart (index block : JSVal) : string :=
  let data :=
    JObj [("type", JStr "content_block_start");
          ("index", index);
          ("content_block", block)] in
  "event: content_block_start" +:+ nl +:+ "data: " +:+ JSON_stringify data
    +:+ nl +:+ nl.

(** [sseContentBlockDelta(index, text)] *)
Definition sseContentBlockDelta (index text : JSVal) : string :=
  let data :=
    JObj [("type", JStr "content_block_delta");
          ("index", index);
          ("delta", JObj [("type", JStr "text_delta"); ("text", text)])] in
  "event: content_block_delta" +:+ nl +:+ "data: " +:+ JSON_stringify data
    +:+ nl +:+ nl.

(** [sseContentBlockStop(index)] *)
Definition sseContentBlockStop (index : JSVal) : string :=
  let data := JObj [("type", JStr "content_block_stop"); ("index", index)] in
  "event: content_block_stop" +:+ nl +:+ "data: " +:+ JSON_stringify data
    +:+ nl +:+ nl.

(** [sseMessageDelta(stopReason, outputTokens)] *)
Definition sseMessageDelta (stopReason outputTokens : JSVal) : string :=
  let data :=
    JObj [("type", JStr "message_delta");
          ("delta",
           JObj [("stop_reason", stopReason); ("stop_sequence", JNull)]);
          ("usage", JObj [("output_tokens", outputTokens)])] in
  "event: message_delta" +:+ nl +:+ "data: " +:+ JSON_stringify data
    +:+ nl +:+ nl.

(** [sseMessageStop()] *)
Definition sseMessageStop : string :=
  "event: message_stop" +:+ nl +:+ "data: {" +:+ dq "type" +:+ ":"
    +:+ dq "message_stop" +:+ "}" +:+ nl +:+ nl.

(** A string without a line feed. *)
Definition one_line (s : string) : bool :=
  all_chars (λ c, negb (bool_decide (c = ascii_of_N 10))) s.

(** An SSE event as a client reads it: the event line, one data line, and
    the blank line that ends the event. *)
Definition sse_event (name data : string) : string :=
  "event: " +:+ name +:+ nl +:+ "data: " +:+ data +:+ nl +:+ nl.

(** The members [JSON.stringify] writes for the properties of an object:
    a property that is [undefined] is left out. *)
Fixpoint object_members (l : list (string * JSVal)) : list string :=
  match l with
  | [] => []
  | (_, JUndefined) :: l' => object_members l'
  | (k, x) :: l' => (quote k +:+ ":" +:+ JSON_stringify x) :: object_members l'
  end.

(** [v == null] *)
Definition is_nullish (v : JSVal) : bool :=
  match v with
  | JUndefined | JNull => true
  | _ => false
  end.

(** The stop reasons of the Messages API. *)
Definition api_stop_reasons : list JSVal :=
  [JNull; JStr "end_turn"; JStr "max_tokens"; JStr "stop_sequence";
   JStr "tool_use"].

(** The lines of one SSE event, as [split] on line feeds gives them. *)
Definition sse_lines (name data : string) : list string :=
  ["event: " +:+ name; "data: " +:+ data; ""; ""].

(** ** [src/translators/request.ts] *)

(** What a function throws. *)
Inductive Exn :=
| TypeError
| Error (message : string).

Inductive Try (A : Type) :=
| Returns (a : A)
| Throws (e : Exn).

Global Arguments Returns {A} a.
Global Arguments Throws {A} e.

Definition try_bind {A B} (x : Try A) (f : A → Try B) : Try B :=
  match x with
  | Returns a => f a
  | Throws e => Throws e
  end.

Notation "'try' x ← e ; k" := (try_bind e (λ x, k))
  (at level 10, x name, e at level 100, k at level 200,
   format "'[v' 'try'  x  ←  e ; '/' k ']'").

(** [String(v)], integers only. *)
Fixpoint ToString (v : JSVal) : string :=
  match v with
  | JUndefined => "undefined"
  | JNull => "null"
  | JBool true => "true"
  | JBool false => "false"
  | JNum n => pretty n
  | JStr s => s
  | JArr xs =>
      join ","
        (map (λ x, match x with
                   | JUndefined | JNull => ""
                   | _ => ToString x
                   end) xs)
  | JObj _ => "[object Object]"
  end.

(** [xs.join(sep)]: [undefined] and [null] are joined as empty strings. *)
Definition Array_join (sep : string) (xs : list JSVal) : string :=
  join sep
    (map (λ x, match x with
               | JUndefined | JNull => ""
               | _ => ToString x
               end) xs).

Fixpoint characters (s : string) : list JSVal :=
  match s with
  | EmptyString => []
  | String c s' => JStr (String c "") :: characters s'
  end.

(** [[...v]]: an array is copied, a string gives its characters, anything
    else is not iterable. *)
Definition spread (v : JSVal) : Try (list JSVal) :=
  match v with
  | JArr xs => Returns xs
  | JStr s => Returns (characters s)
  | _ => Throws TypeError
  end.

(** [ms.find((m) => m.role === "user")] *)
Fixpoint find_user (ms : list JSVal) : Try JSVal :=
  match ms with
  | [] => Returns JUndefined
  | m :: ms' =>
      match prop m "role" with
      | None => Throws TypeError
      | Some role => if is_str role "user" then Returns m else find_user ms'
      end
  end.

(** [bs.filter((b) => b.type === "text")] *)
Fixpoint filter_text (bs : list JSVal) : Try (list JSVal) :=
  match bs with
  | [] => Returns []
  | b :: bs' =>
      match prop b "type" with
      | None => Throws TypeError
      | Some type =>
          try rest ← filter_text bs';
          Returns (if is_str type "text" then b :: rest else rest)
      end
  end.

(** [bs.map((b) => b.text)] *)
Fixpoint map_text (bs : list JSVal) : Try (list JSVal) :=
  match bs with
  | [] => Returns []
  | b :: bs' =>
      match prop b "text" with
      | None => Throws TypeError
      | Some text => try rest ← map_text bs'; Returns (text :: rest)
      end
  end.

Definition no_user_message : string :=
  "No user message found in messages array".

(** [extractUserContent(req)] *)
Definition extractUserContent (req : JSVal) : Try string :=
  match prop req "messages" with
  | None => Throws TypeError
  | Some messages =>
      try ms ← spread messages;
      try lastUser ← find_user (reverse ms);
      if negb (truthy lastUser) then Throws (Error no_user_message)
      else
        try content ←
          match prop lastUser "content" with
          | None => Throws TypeError
          | Some (JStr s) => Returns s
          | Some (JArr bs) =>
              try kept ← filter_text bs;
              try texts ← map_text kept;
              Returns (Array_join nl texts)
          | Some _ => Throws TypeError
          end;
        match prop req "system" with
        | None => Throws TypeError
        | Some system =>
            if truthy system then
              try sysText ←
                match system with
                | JStr s => Returns s
                | JArr bs =>
                    try texts ← map_text bs; Returns (Array_join nl texts)
                | _ => Throws TypeError
                end;
              Returns (sysText +:+ nl +:+ nl +:+ content)
            else Returns content
        end
  end.

(** A content block that carries text, and a message of a role. *)
Definition text_block (text : string) : JSVal :=
  JObj [("type", JStr "text"); ("text", JStr text)].

Definition message_of (role : string) (content : JSVal) : JSVal :=
  JObj [("role", JStr role); ("content", content)].

(** The message is of another role than [user]. *)
Definition not_user (m : JSVal) : Prop :=
  ∃ role, prop m "role" = Some role ∧ is_str role "user" = false.

(** What a content block adds to the user text: the text of a text block. *)
Definition block_text (b : JSVal) : option string :=
  match prop b "type", prop b "text" with
  | Some type, Some (JStr t) => if is_str type "text" then Some t else None
  | _, _ => None
  end.

(** A content block as the API types it: an object, whose text is a string
    if it is a text block. *)
Definition typed_block (b : JSVal) : Prop :=
  ∃ type, prop b "type" = Some type
    ∧ (is_str type "text" = true → ∃ t, prop b "text" = Some (JStr t)).

(** Sample requests. *)
Definition image_block : JSVal :=
  JObj [("type", JStr "image");
        ("source", JObj [("type", JStr "base64"); ("data", JStr "AAAA")])].

Definition request_two_turns : JSVal :=
  JObj [("model", JStr "claude-sonnet-4-5-20250929");
        ("messages",
         JArr [message_of "user" (JStr "first");
               message_of "assistant" (JStr "reply");
               message_of "user"
                 (JArr [text_block "look"; image_block; text_block "here"]);
               message_of "assistant" (JStr "prefill")])].

Definition request_last_turn : JSVal :=
  JObj [("messages",
         JArr [message_of "user"
                 (JArr [text_block "look"; image_block;
                        text_block "here"])])].

Definition request_with_system (system : JSVal) : JSVal :=
  JObj [("system", system);
        ("messages", JArr [message_of "user" (JStr "hello")])].

Definition request_no_user : JSVal :=
  JObj [("messages", JArr [message_of "assistant" (JStr "hi")])].

(** ** The non-streaming assembler: what ends a call *)

(** The notification ends the call for [sid]: its result, an error or the
    exit of its process. *)
Definition terminal (sid : string) (n : Notification) : bool :=
  match n with
  | N_result s _ | N_error s _ | N_exit s _ => bool_decide (s = sid)
  | _ => false
  end.

(** A result that reports no usage. *)
Definition result_no_usage : JSVal :=
  JObj [("type", JStr "result");
        ("subtype", JStr "error_during_execution");
        ("is_error", JBool true);
        ("stop_reason", JNull);
        ("session_id", JStr "cli-1")].

(** ** The rest of the bridge ([src/session/cli-bridge.ts]) *)

(** The frame of [sendInterrupt]. *)
Definition interrupt_request (uuid : string) : JSVal :=
  JObj [("type", JStr "control_request");
        ("request_id", JStr uuid);
        ("request", JObj [("subtype", JStr "interrupt")])].

(** [shutdown()] up to its [await]: [killSession] is called on the ids the
    registry holds, in its order; the result lists the promises
    [Promise.all] waits for.  The interval of the reaper is the
    environment's, which sends no [ReaperTick] afterwards. *)
Definition shutdown (w : World) : World * list nat :=
  foldl (λ acc id,
           let '(w', k) := killSession id acc.1 in
           (w', acc.2 ++ option_list k))
    (w, []) (sessions w).*1.

(** Everything the bridge holds for the CLI is NDJSON: a queued frame is a
    JSON text, a chunk written to a socket is a JSON text and the line feed
    that ends the record. *)
Record framed (w : World) : Prop := mkFramed {
  framed_queue : ∀ r m, heap w !! r = Some m →
      Forall (λ f, ∃ v, f = JSON_stringify v) (pendingMessages m);
  framed_sent : ∀ s ws, socks w !! s = Some ws →
      Forall (λ d, ∃ v, d = JSON_stringify v +:+ nl) (sent ws);
}.

(** The records of a chunk as the message handler reads them. *)
Definition records (data : string) : list string :=
  filter (λ l, trim_nonempty l) (split_on (ascii_of_N 10) data).

(** Records written one after the other. *)
Fixpoint written (vs : list JSVal) : string :=
  match vs with
  | [] => ""
  | v :: vs' => JSON_stringify v +:+ nl +:+ written vs'
  end.

(** ** The messages route ([src/routes/messages.ts], [createMessagesRoute]) *)

(** White space as [\s] matches it in a header value, whose characters are
    Latin-1. *)
Definition is_regex_space (c : ascii) : bool :=
  let n := N_of_ascii c in
  ((9 <=? n) && (n <=? 13) || (n =? 32) || (n =? 160))%N.

(** The letter [c], in either case, at the head of [s]. *)
Definition strip_letter (lower upper : ascii) (s : string) : option string :=
  match s with
  | String c s' =>
      if decide (c = lower) then Some s'
      else if decide (c = upper) then Some s' else None
  | EmptyString => None
  end.

Fixpoint drop_spaces (s : string) : string :=
  match s with
  | String c s' => if is_regex_space c then drop_spaces s' else s
  | EmptyString => EmptyString
  end.

(** [s.replace(/^Bearer\s+/i, empty)] *)
Definition strip_bearer (s : string) : string :=
  match
    s1 ← strip_letter "b" "B" s;
    s2 ← strip_letter "e" "E" s1;
    s3 ← strip_letter "a" "A" s2;
    s4 ← strip_letter "r" "R" s3;
    s5 ← strip_letter "e" "E" s4;
    strip_letter "r" "R" s5
  with
  | Some (String c rest) =>
      if is_regex_space c then drop_spaces rest else s
  | _ => s
  end.

(** [h || undefined] for what [c.req.header(name)] returned. *)
Definition nonempty (h : option string) : option string :=
  match h with
  | Some s => if bool_decide (s = "") then None else Some s
  | None => None
  end.

(** The truthiness of [v?.length]. *)
Definition has_length (v : JSVal) : bool :=
  match v with
  | JArr xs => negb (bool_decide (xs = []))
  | JStr s => negb (bool_decide (s = ""))
  | JObj fs => truthy (default JUndefined (assoc "length" fs))
  | _ => false
  end.

(** The options the route passes to [getOrCreate]. *)
Record RouteOptions := mkRouteOptions {
  ro_sessionId : option string;
  ro_model : JSVal;
  ro_permissionMode : string;
  ro_apiKey : option string;
}.

(** The handler of [POST /v1/messages] from the parsed body up to its
    second [await]: it has answered, or thrown, or called [getOrCreate]. *)
Inductive RouteStart :=
| Answered (r : HttpResponse)
| Thrown (e : Exn)
| Called_getOrCreate (options : RouteOptions).

Definition invalid_request : JSVal :=
  JObj [("error",
         JObj [("type", JStr "invalid_request_error");
               ("message", JStr "messages array is required")])].

Definition route_start (header : string → option string) (body : JSVal)
    : RouteStart :=
  let sessionId := nonempty (header "x-session-id") in
  let permissionMode :=
    default "acceptEdits" (nonempty (header "x-permission-mode")) in
  let apiKey :=
    match nonempty (header "x-api-key") with
    | Some k => Some k
    | None => nonempty (strip_bearer <$> header "authorization")
    end in
  match prop body "messages" with
  | None => Thrown TypeError
  | Some messages =>
      if negb (has_length messages) then
        Answered (mkHttpResponse 400 invalid_request [])
      else
        match prop body "model" with
        | None => Thrown TypeError
        | Some model =>
            Called_getOrCreate
              (mkRouteOptions sessionId model permissionMode apiKey)
        end
  end.

(** How the handler went on from a session. *)
Inductive RouteEnd :=
| Failed_with (r : HttpResponse)
| Threw_from_translator (e : Exn)
| Streaming (sessionId content : string) (model : JSVal)
| NonStreaming_call (sessionId content : string) (model : JSVal).

(** The handler after [getOrCreate] settled: rejected with an error of
    message [inl message], or fulfilled with the session [inr sessionId]. *)
Definition route_resume (body : JSVal) (settled : string + string)
    : RouteEnd :=
  match settled with
  | inl message =>
      Failed_with
        (mkHttpResponse 500
           (api_error ("Failed to initialize session: " +:+ message)) [])
  | inr sessionId =>
      match extractUserContent body with
      | Throws e => Threw_from_translator e
      | Returns content =>
          match prop body "stream", prop body "model" with
          | Some stream, Some model =>
              if truthy stream then Streaming sessionId content model
              else NonStreaming_call sessionId content model
          | _, _ => Threw_from_translator TypeError
          end
      end
  end.

(** Sample headers. *)
Definition headers_bearer (name : string) : option string :=
  if decide (name = "authorization") then Some "bearer   sk-123"
  else if decide (name = "x-session-id") then Some ""
  else None.

Definition body_hello : JSVal :=
  JObj [("model", JStr "claude-sonnet-4-5-20250929");
        ("messages", JArr [message_of "user" (JStr "hello")])].

Definition body_empty : JSVal :=
  JObj [("model", JStr "claude-sonnet-4-5-20250929"); ("messages", JArr [])].

(** The options as [getOrCreate] and [spawnSession] take them, for a model
    that is a string or absent. *)
Definition spawn_options (ro : RouteOptions) : option SpawnOptions :=
  match ro_model ro with
  | JStr model =>
      Some (mkSpawnOptions (Some model) (Some (ro_permissionMode ro)) None
              (ro_sessionId ro) (ro_apiKey ro))
  | JUndefined | JNull =>
      Some (mkSpawnOptions None (Some (ro_permissionMode ro)) None
              (ro_sessionId ro) (ro_apiKey ro))
  | _ => None
  end.

Definition headers_session (name : string) : option string :=
  if decide (name = "x-session-id") then Some "abc"
  else if decide (name = "x-api-key") then Some "sk-456"
  else if decide (name = "authorization") then Some "Bearer sk-123"
  else None.

(** The word [Bearer], in any case. *)
Definition is_letter (lower upper c : ascii) : bool :=
  bool_decide (c = lower) || bool_decide (c = upper).

Definition is_bearer (b : string) : bool :=
  match b with
  | String c1 (String c2 (String c3 (String c4 (String c5
      (String c6 EmptyString))))) =>
      is_letter "b" "B" c1 && is_letter "e" "E" c2 && is_letter "a" "A" c3
      && is_letter "r" "R" c4 && is_letter "e" "E" c5 && is_letter "r" "R" c6
  | _ => false
  end.

(** The string does not begin with white space. *)
Definition starts_with_text (k : string) : bool :=
  match k with
  | String c _ => negb (is_regex_space c)
  | EmptyString => true
  end.

(** ** Sample inputs for the rest *)

Definition uuid0 : string := "0a1b2c3d-0000-4000-8000-00000000beef".

(** The response to the example turn. *)
Definition response_hi : JSVal :=
  JObj [("id", JStr "msg_01");
        ("type", JStr "message");
        ("role", JStr "assistant");
        ("content", content_hi);
        ("model", JStr "claude-sonnet-4-5-20250929");
        ("stop_reason", JStr "end_turn");
        ("stop_sequence", JNull);
        ("usage", usage_end_turn)].

(** An earlier assistant message of the same turn. *)
Definition assistant_thinking : JSVal :=
  JObj [("type", JStr "assistant");
        ("message",
         JObj [("id", JStr "msg_00");
               ("role", JStr "assistant");
               ("model", JStr "claude-sonnet-4-5-20250929");
               ("content", JArr [text_block "let me see"]);
               ("stop_reason", JStr "tool_use")])].

Definition call_abc : NonStreaming :=
  (handleNonStreaming "abc" (JStr "hello") w_connected).1.

(** The process of [abc] has exited. *)
Definition w_exited : World := on_proc_exit 1 (Some 0) w_abc.

Definition m_exited : ManagedSession :=
  on_info (info_set_state exited) m_abc.

(** A user message was dispatched to [abc] right after it was spawned. *)
Definition w_dispatched : World :=
  default w_abc (sendUserMessage "abc" (JStr "hi") JUndefined w_abc).

(** The connected session [abc] has announced itself, and was then sent a
    user message. *)
Definition w_initialised : World :=
  default w_connected (routeMessage "abc" 0 frame_init w_connected).

Definition w_answering : World :=
  default w_initialised
    (sendUserMessage "abc" (JStr "hi") JUndefined w_initialised).

Definition route_options_session : RouteOptions :=
  mkRouteOptions (Some "abc") (JStr "claude-sonnet-4-5-20250929")
    "acceptEdits" (Some "sk-456").

Definition spawn_options_session : SpawnOptions :=
  mkSpawnOptions (Some "claude-sonnet-4-5-20250929") (Some "acceptEdits")
    None (Some "abc") (Some "sk-456").

Definition route_options_bearer : RouteOptions :=
  mkRouteOptions None (JStr "claude-sonnet-4-5-20250929") "acceptEdits"
    (Some "sk-123").
Section JSMapFacts.
Context {V : Type}.
Implicit Types (m : list (string * V)) (k : string) (v : V).

Lemma Map_get_set_eq k v m : Map_get k (Map_set k v m) = Some v.
Proof.
  unfold Map_get. induction m as [|[k' v'] m IH]; simpl.
  - by rewrite decide_True.
  - destruct (decide (k = k')); simpl.
    + by rewrite decide_True.
    + by rewrite decide_False.
Qed.

Lemma Map_get_set_ne k k' v m :
  k ≠ k' → Map_get k' (Map_set k v m) = Map_get k' m.
Proof.
  intros Hne. unfold Map_get. induction m as [|[k0 v0] m IH]; simpl.
  - by rewrite decide_False.
  - destruct (decide (k = k0)) as [->|]; simpl.
    + by rewrite !decide_False.
    + destruct (decide (k' = k0)); done.
Qed.

Lemma Map_get_delete_eq k m : Map_get k (Map_delete k m) = None.
Proof.
  unfold Map_get. induction m as [|[k0 v0] m IH]; simpl; [done|].
  destruct (decide (k = k0)); simpl; [done|]. by rewrite decide_False.
Qed.

Lemma Map_get_delete_ne k k' m :
  k ≠ k' → Map_get k' (Map_delete k m) = Map_get k' m.
Proof.
  intros Hne. unfold Map_get. induction m as [|[k0 v0] m IH]; simpl; [done|].
  destruct (decide (k = k0)) as [->|]; simpl.
  - by rewrite decide_False.
  - by rewrite IH.
Qed.

Lemma Map_get_elem_of k v m : Map_get k m = Some v → (k, v) ∈ m.
Proof.
  unfold Map_get. induction m as [|[k0 v0] m IH]; simpl; [done|].
  destruct (decide (k = k0)) as [->|].
  - intros [= ->]. left.
  - intros. right. auto.
Qed.

Lemma elem_of_Map_get k v m : NoDup m.*1 → (k, v) ∈ m → Map_get k m = Some v.
Proof.
  unfold Map_get. induction m as [|[k0 v0] m IH]; simpl.
  - by intros _ ?%elem_of_nil.
  - intros [Hk Hnd]%NoDup_cons [[= -> ->]|Hin]%elem_of_cons.
    + by rewrite decide_True.
    + rewrite decide_False; [auto|]. intros ->. apply Hk.
      apply list_elem_of_fmap. by exists (k0, v).
Qed.

Lemma elem_of_Map_set k v k' v' m :
  (k', v') ∈ Map_set k v m → (k' = k ∧ v' = v) ∨ (k', v') ∈ m.
Proof.
  induction m as [|[k0 v0] m IH]; simpl.
  - intros [= -> ->]%list_elem_of_singleton. by left.
  - destruct (decide (k = k0)) as [->|Hne].
    + intros [[= -> ->]|Hin]%elem_of_cons; [by left|]. right. by right.
    + intros [[= -> ->]|Hin]%elem_of_cons; [right; left|].
      destruct (IH Hin); [by left|]. right. by right.
Qed.

Lemma Map_set_keys k v m k' :
  k' ∈ (Map_set k v m).*1 → k' = k ∨ k' ∈ m.*1.
Proof.
  intros [[k1 v1] [-> Hin]]%list_elem_of_fmap. simpl.
  destruct (elem_of_Map_set _ _ _ _ _ Hin) as [[-> _]|Hin']; [by left|].
  right. apply list_elem_of_fmap. by exists (k1, v1).
Qed.

Lemma Map_set_refs k v m v' :
  v' ∈ (Map_set k v m).*2 → v' = v ∨ v' ∈ m.*2.
Proof.
  intros [[k1 v1] [-> Hin]]%list_elem_of_fmap. simpl.
  destruct (elem_of_Map_set _ _ _ _ _ Hin) as [[_ ->]|Hin']; [by left|].
  right. apply list_elem_of_fmap. by exists (k1, v1).
Qed.

Lemma Map_set_NoDup_keys k v m : NoDup m.*1 → NoDup (Map_set k v m).*1.
Proof.
  induction m as [|[k0 v0] m IH]; simpl.
  - intros _. apply NoDup_singleton.
  - intros [Hk Hnd]%NoDup_cons. destruct (decide (k = k0)) as [->|Hne]; simpl.
    + by apply NoDup_cons.
    + apply NoDup_cons. split; [|auto].
      intros [->|?]%Map_set_keys; done.
Qed.

Lemma Map_set_NoDup_refs k v m :
  NoDup m.*2 → v ∉ m.*2 → NoDup (Map_set k v m).*2.
Proof.
  induction m as [|[k0 v0] m IH]; simpl.
  - intros _ _. apply NoDup_singleton.
  - intros [Hk Hnd]%NoDup_cons Hv. apply not_elem_of_cons in Hv as [Hv0 Hv].
    destruct (decide (k = k0)) as [->|Hne]; simpl.
    + by apply NoDup_cons.
    + apply NoDup_cons. split; [|auto].
      intros [->|?]%Map_set_refs; done.
Qed.

Lemma Map_delete_sublist k m : Map_delete k m `sublist_of` m.
Proof.
  induction m as [|[k0 v0] m IH]; simpl; [done|].
  destruct (decide (k = k0)); by constructor.
Qed.

Lemma elem_of_Map_delete k k' v' m :
  (k', v') ∈ Map_delete k m → (k', v') ∈ m ∧ k' ≠ k.
Proof.
  induction m as [|[k0 v0] m IH]; simpl; [by intros ?%elem_of_nil|].
  destruct (decide (k = k0)) as [->|Hne].
  - intros Hin. destruct (IH Hin). split; [by right|done].
  - intros [[= -> ->]|Hin]%elem_of_cons; [split; [left|done]|].
    destruct (IH Hin). split; [by right|done].
Qed.

Lemma Map_delete_NoDup_keys k m : NoDup m.*1 → NoDup (Map_delete k m).*1.
Proof.
  intros Hnd. eapply sublist_NoDup; [exact Hnd|].
  apply fmap_sublist, Map_delete_sublist.
Qed.

Lemma Map_delete_NoDup_refs k m : NoDup m.*2 → NoDup (Map_delete k m).*2.
Proof.
  intros Hnd. eapply sublist_NoDup; [exact Hnd|].
  apply fmap_sublist, Map_delete_sublist.
Qed.

Lemma Map_has_get k m : Map_has k m = bool_decide (is_Some (Map_get k m)).
Proof. done. Qed.
End JSMapFacts.
Lemma is_Some_alter {A} (f : A → A) (m : gmap nat A) i j :
  is_Some (alter f i m !! j) ↔ is_Some (m !! j).
Proof.
  rewrite lookup_alter. destruct (decide (i = j)) as [->|]; [|done].
  by rewrite fmap_is_Some.
Qed.

Lemma wf_new_bridge port t env t0 : wf (new_bridge port t env t0).
Proof.
  constructor; simpl.
  all: try (intros ? [? H]; by rewrite lookup_empty in H).
  all: try apply NoDup_nil_2.
  - intros ?? H. by rewrite lookup_empty in H.
  - by intros ?? ?%elem_of_nil.
  - intros ??? H. by rewrite lookup_empty in H.
  - intros ??? H. by rewrite lookup_empty in H.
  - intros ??? H. by rewrite lookup_empty in H.
  - intros ?? H. by rewrite lookup_empty in H.
  - intros ???? H. by rewrite lookup_empty in H.
  - intros ??? H. by rewrite lookup_empty in H.
Qed.

Lemma wf_set_next_id w n : (next_id w ≤ n)%nat → wf w → wf (set_next_id n w).
Proof.
  intros Hn [H1 H2 H3 H4 H5 H6 H7 H8 H9 H10 H11 H12 H13 H14 H15];
    constructor; simpl; try done.
  - intros x Hx. specialize (H1 x Hx). lia.
  - intros x Hx. specialize (H2 x Hx). lia.
  - intros x Hx. specialize (H3 x Hx). lia.
  - intros x Hx. specialize (H4 x Hx). lia.
  - intros k kw Hk. destruct (H5 k kw Hk). split; [lia|done].
  - intros x Hx. specialize (H6 x Hx). lia.
Qed.

Lemma wf_set_now w t : wf w → wf (set_now t w).
Proof. intros []; by constructor. Qed.

Lemma wf_emit w n : wf w → wf (emit n w).
Proof. intros []; by constructor. Qed.

Lemma wf_set_socks_alter_attach w f s x :
  x = socks w →
  (∀ ws sid r, handlers (f ws) = Some (sid, r) →
     handlers ws = Some (sid, r) ∨ is_Some (heap w !! r)) →
  wf w → wf (set_socks (alter f s x) w).
Proof.
  intros -> Hf []; constructor; simpl; try done.
  - intros s'. rewrite is_Some_alter. auto.
  - intros s' ws' sid r. rewrite lookup_alter.
    destruct (decide (s = s')) as [<-|]; [|by eauto].
    destruct (socks w !! s) as [ws|] eqn:E; simpl; [|done].
    intros [= <-] Hh. destruct (Hf _ _ _ Hh); eauto.
Qed.

Lemma wf_set_socks_alter w f s x :
  x = socks w → (∀ ws, handlers (f ws) = handlers ws) → wf w →
  wf (set_socks (alter f s x) w).
Proof.
  intros -> Hf. apply wf_set_socks_alter_attach; [done|].
  intros ws sid r. rewrite Hf. auto.
Qed.

Lemma wf_ws_send w s d : wf w → wf (ws_send s d w).
Proof.
  apply wf_set_socks_alter; [done|]. intros ws. by destruct (readyState ws).
Qed.

Lemma wf_ws_close w s a : wf w → wf (ws_close s a w).
Proof.
  apply wf_set_socks_alter; [done|]. intros ws. by destruct (readyState ws).
Qed.

Lemma wf_on_peer_closing w s : wf w → wf (on_peer_closing s w).
Proof.
  apply wf_set_socks_alter; [done|]. intros ws. by destruct (readyState ws).
Qed.

Lemma wf_set_procs_alter w f p x :
  x = procs w → wf w → wf (set_procs (alter f p x) w).
Proof.
  intros -> []; constructor; simpl; try done.
  - intros s'. rewrite is_Some_alter. auto.
  - intros r m p' Hm Hp. rewrite is_Some_alter. eauto.
Qed.

Lemma wf_proc_kill w p sig : wf w → wf (proc_kill p sig w).
Proof. by apply wf_set_procs_alter. Qed.

Lemma wf_update w r f :
  (∀ m, process (f m) = process m) → wf w → wf (update r f w).
Proof.
  intros Hf []; constructor; simpl; try done.
  - intros r'. rewrite is_Some_alter. auto.
  - intros sid r' Hin. rewrite is_Some_alter. eauto.
  - intros r' m p. rewrite lookup_alter. destruct (decide (r = r')) as [->|].
    + destruct (heap w !! r') as [m0|] eqn:E; simpl; [|done].
      intros [= <-]. rewrite Hf. eauto.
    + eauto.
  - intros k wt Hk. rewrite is_Some_alter. eauto.
  - intros s ws sid r' Hs Hh. rewrite is_Some_alter. eauto.
  - intros r' m p. rewrite lookup_alter. destruct (decide (r = r')) as [<-|].
    + destruct (heap w !! r) as [m0|] eqn:E; simpl; [|done].
      intros [= <-]. rewrite Hf. eauto.
    + eauto.
Qed.

Lemma wf_set_timers_delete w t x :
  x = timers w → wf w → wf (set_timers (delete t x) w).
Proof.
  intros -> []; constructor; simpl; try done.
  - intros t' [x Hx]. apply lookup_delete_Some in Hx as [_ Hx]. eauto.
  - intros t' tm k [_ Hx]%lookup_delete_Some. eauto.
  - intros t' tm k [_ Hx]%lookup_delete_Some. eauto.
Qed.

Lemma wf_set_sessions_delete w sid x :
  x = sessions w → wf w → wf (set_sessions (Map_delete sid x) w).
Proof.
  intros -> []; constructor; simpl; try done.
  - by apply Map_delete_NoDup_keys.
  - by apply Map_delete_NoDup_refs.
  - intros sid' r [Hin _]%elem_of_Map_delete. eauto.
Qed.

Lemma wf_insert_sock w s ws x :
  x = socks w → (s < next_id w)%nat →
  (∀ sid r, handlers ws = Some (sid, r) → is_Some (heap w !! r)) → wf w →
  wf (set_socks (<[s := ws]> x) w).
Proof.
  intros -> Hs Hh []; constructor; simpl; try done.
  - intros s'. rewrite lookup_insert. destruct (decide (s = s')) as [->|]; auto.
  - intros s' ws' sid r. rewrite lookup_insert.
    destruct (decide (s = s')) as [<-|]; [|by eauto].
    intros [= <-]. eauto.
Qed.

Lemma wf_insert_proc w p c x :
  x = procs w → (p < next_id w)%nat → wf w → wf (set_procs (<[p := c]> x) w).
Proof.
  intros -> Hs []; constructor; simpl; try done.
  - intros s'. rewrite lookup_insert. destruct (decide (p = s')) as [->|]; auto.
  - intros r m p' Hm Hp. rewrite lookup_insert.
    destruct (decide (p = p')); [done|eauto].
Qed.

Lemma wf_update_kill w k kw x :
  x = kills w → is_Some (kills w !! k) → k_timer kw = S k → wf w →
  wf (set_kills (<[k := kw]> x) w).
Proof.
  intros -> Hk Ht Hw. pose proof Hw as []. constructor; simpl; try done.
  - intros k' kw'. rewrite lookup_insert.
    destruct (decide (k = k')) as [<-|]; [|auto].
    intros [= <-]. split; [|done]. destruct Hk as [kw0 Hk].
    by destruct (wf_kills0 _ _ Hk).
  - intros t tm k' Ht1 Ht2. destruct (wf_timer_wait0 _ _ _ Ht1 Ht2) as [-> Hn].
    split; [done|]. rewrite lookup_insert_ne; [done|].
    intros <-. rewrite Hn in Hk. by destruct Hk.
Qed.

Lemma wf_update_wait w k wt x :
  x = waits w → is_Some (waits w !! k) → is_Some (heap w !! w_managed wt) →
  wf w → wf (set_waits (<[k := wt]> x) w).
Proof.
  intros -> Hk Hm Hw. pose proof Hw as []. constructor; simpl; try done.
  - intros k'. rewrite lookup_insert.
    destruct (decide (k = k')) as [<-|]; auto.
  - intros t tm k' Ht1 Ht2. destruct (wf_timer_kill0 _ _ _ Ht1 Ht2) as [-> Hn].
    split; [done|]. rewrite lookup_insert_ne; [done|].
    intros <-. rewrite Hn in Hk. by destruct Hk.
  - intros k' wt'. rewrite lookup_insert.
    destruct (decide (k = k')) as [<-|]; [by intros [= <-]|eauto].
Qed.

Lemma wf_fmap_waits w f x :
  x = waits w → (∀ wt, w_managed (f wt) = w_managed wt) → wf w →
  wf (set_waits (f <$> x) w).
Proof.
  intros -> Hf []; constructor; simpl; try done.
  - intros k. rewrite lookup_fmap, fmap_is_Some. auto.
  - intros t tm k Ht1 Ht2. destruct (wf_timer_kill0 _ _ _ Ht1 Ht2) as [-> Hn].
    split; [done|]. by rewrite lookup_fmap, Hn.
  - intros k wt. rewrite lookup_fmap.
    destruct (waits w !! k) as [wt0|] eqn:E; simpl; [|done].
    intros [= <-]. rewrite Hf. eauto.
Qed.

Create HintDb wf discriminated.
#[global] Hint Resolve wf_set_now wf_emit wf_ws_send wf_ws_close
  wf_on_peer_closing wf_proc_kill wf_set_timers_delete
  wf_set_sessions_delete wf_set_procs_alter : wf.

Lemma wf_sendToCLI w r f : wf w → wf (sendToCLI r f w).
Proof.
  intros Hw. unfold sendToCLI. repeat case_match; auto with wf;
    by apply wf_update.
Qed.
#[global] Hint Resolve wf_sendToCLI : wf.

Lemma wf_flush q : ∀ w s, wf w → wf (flush s q w).
Proof.
  unfold flush. induction q as [|f q IH]; intros w s Hw; simpl; auto with wf.
Qed.
#[global] Hint Resolve wf_flush : wf.

Lemma heap_flush_wf q : ∀ s w, heap (flush s q w) = heap w.
Proof.
  unfold flush. induction q as [|f q IH]; intros s w; simpl; [done|].
  by rewrite IH.
Qed.

Lemma wf_handleConnection w url : wf w → wf (handleConnection url w).
Proof.
  intros Hw. unfold handleConnection, fresh.
  assert (wf (set_socks (<[next_id w := mkWebSocket OPEN [] [] None]>
             (socks (set_next_id (S (next_id w)) w)))
             (set_next_id (S (next_id w)) w))) as Hw1.
  { apply wf_insert_sock; [done|simpl; lia|done|].
    apply wf_set_next_id; [lia|done]. }
  repeat case_match; auto with wf.
  apply wf_set_socks_alter_attach; [done| |].
  - intros ws sid r. simpl. intros [= <- <-]. right.
    rewrite is_Some_alter, heap_flush_wf. simpl. rewrite !is_Some_alter.
    simpl. eauto.
  - apply wf_update; [done|]. apply wf_flush.
    apply wf_update; [done|]. by apply wf_update.
Qed.
#[global] Hint Resolve wf_handleConnection : wf.

Lemma wf_readyResolve w r : wf w → wf (readyResolve r w).
Proof.
  intros Hw. unfold readyResolve. apply wf_fmap_waits; [done| |by apply wf_update].
  intros wt. by repeat case_match.
Qed.
#[global] Hint Resolve wf_readyResolve : wf.

(** What routing one frame may do to the world. *)
Lemma routeMessage_cases sid r msg w w' :
  routeMessage sid r msg w = Some w' →
  w' = w
  ∨ (∃ v, w' = readyResolve r (emit (N_ready sid msg)
             (update r (on_info (info_set_state ready))
                (update r (on_info (info_set_cliSessionId v)) w))))
  ∨ w' = emit (N_assistant sid msg) w
  ∨ w' = emit (N_result sid msg)
           (update r (on_info (info_set_lastUsedAt (now w)))
              (update r (on_info (info_set_state ready)) w))
  ∨ w' = emit (N_stream_event sid msg) w
  ∨ (∃ f, w' = sendToCLI r f w).
Proof.
  unfold routeMessage, autoApprovePermission. intros H.
  destruct (prop msg "type") as [type|]; [simpl in H|done].
  destruct (is_str type "system").
  { destruct (has_prop "subtype" msg) as [[]|]; simplify_eq; [|by left].
    destruct (prop msg "subtype") as [subtype|]; [simpl in H|done].
    destruct (is_str subtype "init"); simplify_eq; [|by left].
    destruct (prop msg "session_id") as [v|]; [simpl in H|done].
    simplify_eq. right. left. by exists v. }
  destruct (is_str type "assistant"); [simplify_eq; tauto|].
  destruct (is_str type "result"); [simplify_eq; tauto|].
  destruct (is_str type "stream_event"); [simplify_eq; tauto|].
  destruct (is_str type "control_request"); [|simplify_eq; tauto].
  destruct (prop msg "request") as [request|]; [simpl in H|done].
  destruct (prop request "subtype") as [subtype|]; [simpl in H|done].
  destruct (is_str subtype "can_use_tool"); [|simplify_eq; tauto].
  destruct (prop msg "request_id") as [rid|]; [simpl in H|done].
  destruct (prop request "input") as [input|]; [simpl in H|done].
  simplify_eq. do 5 right. eauto.
Qed.

Lemma wf_routeMessage w sid r msg w' :
  wf w → routeMessage sid r msg w = Some w' → wf w'.
Proof.
  intros Hw H. apply routeMessage_cases in H
    as [->|[[v ->]|[->|[->|[->|[f ->]]]]]]; auto with wf.
  - apply wf_readyResolve, wf_emit. apply wf_update; [done|]. by apply wf_update.
  - apply wf_emit. apply wf_update; [done|]. by apply wf_update.
Qed.

Lemma wf_spawnSession w o a : wf w → wf (spawnSession o a w).2.
Proof.
  intros Hw. unfold spawnSession, spawnCLI, fresh. simpl.
  rewrite lookup_insert_eq. simpl.
  set (sid := default (randomUUID a) (o_sessionId o)).
  set (r := next_id w).
  destruct Hw as [H1 H2 H3 H4 H5 H6 H7 H8 H9 H10 H11 H12 H13 H14 H15].
  constructor; simpl.
  - intros r'. rewrite !is_Some_alter, lookup_insert.
    destruct (decide (r = r')) as [<-|]; [lia|]. intros Hr. specialize (H1 _ Hr). lia.
  - intros s Hs. specialize (H2 _ Hs). lia.
  - intros p. rewrite lookup_insert.
    destruct (decide (S r = p)) as [<-|]; [lia|]. intros Hp. specialize (H3 _ Hp). lia.
  - intros t Ht. specialize (H4 _ Ht). lia.
  - intros k kw Hk. destruct (H5 _ _ Hk). split; [lia|done].
  - intros k Hk. specialize (H6 _ Hk). lia.
  - by apply Map_set_NoDup_keys.
  - apply Map_set_NoDup_refs; [done|].
    intros [[sid' r'] [Hr Hin]]%list_elem_of_fmap. simpl in Hr. subst r'.
    specialize (H1 _ (H9 _ _ Hin)). lia.
  - intros sid' r' Hin. rewrite !is_Some_alter, lookup_insert.
    destruct (decide (r = r')); [done|].
    apply elem_of_Map_set in Hin as [[_ ->]|Hin]; [done|]. eauto.
  - intros r' m p. destruct (decide (r = r')) as [<-|].
    + rewrite !lookup_alter_eq, lookup_insert_eq. simpl.
      intros [= <-]. simpl. by intros [= <-].
    + rewrite !lookup_alter_ne, lookup_insert_ne by done. eauto.
  - done.
  - done.
  - intros k wt Hk. rewrite !is_Some_alter, lookup_insert.
    destruct (decide (r = w_managed wt)); [done|eauto].
  - intros s ws sid' r' Hs Hh. rewrite !is_Some_alter, lookup_insert.
    destruct (decide (r = r')); [done|eauto].
  - intros r' m p. destruct (decide (r = r')) as [<-|].
    + rewrite !lookup_alter_eq, lookup_insert_eq. simpl.
      intros [= <-]. simpl. intros [= <-]. by rewrite lookup_insert_eq.
    + rewrite !lookup_alter_ne, lookup_insert_ne by done.
      intros Hm Hp. rewrite lookup_insert.
      destruct (decide (S r = p)); [done|eauto].
Qed.
#[global] Hint Resolve wf_spawnSession : wf.

Lemma wf_waitForReady w sid t : wf w → wf (waitForReady sid t w).2.
Proof.
  intros Hw. unfold waitForReady, fresh.
  destruct (Map_get sid (sessions w)) as [r|]; [|done].
  destruct (heap w !! r) as [m|] eqn:Hm; [|done].
  destruct (decide (state (info m) = ready)); [done|].
  cbn [snd]. set (settled := if readyResolved m then _ else _). clearbody settled.
  destruct Hw as [H1 H2 H3 H4 H5 H6 H7 H8 H9 H10 H11 H12 H13 H14 H15].
  constructor; simpl; try done.
  - intros x Hx. specialize (H1 x Hx). lia.
  - intros x Hx. specialize (H2 x Hx). lia.
  - intros x Hx. specialize (H3 x Hx). lia.
  - intros x. rewrite lookup_insert. destruct (decide (S (next_id w) = x));
      [lia|]. intros Hx. specialize (H4 x Hx). lia.
  - intros k kw Hk. destruct (H5 _ _ Hk). split; [lia|done].
  - intros x. rewrite lookup_insert. destruct (decide (next_id w = x));
      [lia|]. intros Hx. specialize (H6 x Hx). lia.
  - intros t' tm k. rewrite lookup_insert.
    destruct (decide (S (next_id w) = t')) as [<-|]; [by intros [= <-]|].
    intros Ht1 Ht2. destruct (H11 _ _ _ Ht1 Ht2) as [-> Hn]. split; [done|].
    rewrite lookup_insert_ne; [done|]. intros <-. by destruct n0.
  - intros t' tm k. rewrite lookup_insert.
    destruct (decide (S (next_id w) = t')) as [<-|].
    + intros [= <-] [= <-]. split; [done|].
      destruct (kills w !! next_id w) as [kw|] eqn:E; [|done].
      destruct (H5 _ _ E). lia.
    + eauto.
  - intros k wt. rewrite lookup_insert.
    destruct (decide (next_id w = k)) as [<-|]; [|eauto].
    intros [= <-]. simpl. by rewrite Hm.
Qed.
#[global] Hint Resolve wf_waitForReady : wf.

Lemma wf_sendUserMessage w sid c cs w' :
  wf w → sendUserMessage sid c cs w = Some w' → wf w'.
Proof.
  intros Hw. unfold sendUserMessage. intros H. simplify_option_eq.
  apply wf_sendToCLI. apply wf_update; [done|]. by apply wf_update.
Qed.

Lemma wf_sendInterrupt w sid u : wf w → wf (sendInterrupt sid u w).
Proof. intros Hw. unfold sendInterrupt. case_match; auto with wf. Qed.
#[global] Hint Resolve wf_sendInterrupt : wf.

Lemma wf_kill_finish w sid r : wf w → wf (kill_finish sid r w).
Proof.
  intros Hw. unfold kill_finish. apply wf_set_sessions_delete; [done|].
  repeat case_match; auto with wf.
Qed.
#[global] Hint Resolve wf_kill_finish : wf.

Lemma wf_killSession w sid : wf w → wf (killSession sid w).1.
Proof.
  intros Hw. unfold killSession, fresh.
  destruct (Map_get sid (sessions w)) as [r|]; [|done].
  destruct (heap w !! r) as [m|]; [|done].
  destruct (process m) as [p|]; [|by apply wf_kill_finish].
  cbn [fst]. apply (wf_proc_kill _ p SIGTERM) in Hw.
  generalize dependent (proc_kill p SIGTERM w). clear w. intros w1 Hw.
  destruct Hw as [H1 H2 H3 H4 H5 H6 H7 H8 H9 H10 H11 H12 H13 H14 H15].
  constructor; simpl; try done.
  - intros x Hx. specialize (H1 x Hx). lia.
  - intros x Hx. specialize (H2 x Hx). lia.
  - intros x. rewrite is_Some_alter. intros Hx. specialize (H3 x Hx). lia.
  - intros x. rewrite lookup_insert. destruct (decide (S (next_id w1) = x));
      [lia|]. intros Hx. specialize (H4 x Hx). lia.
  - intros k kw. rewrite lookup_insert.
    destruct (decide (next_id w1 = k)) as [<-|].
    + intros [= <-]. split; [lia|done].
    + intros Hk. destruct (H5 _ _ Hk). split; [lia|done].
  - intros x Hx. specialize (H6 x Hx). lia.
  - intros t' tm k. rewrite lookup_insert.
    destruct (decide (S (next_id w1) = t')) as [<-|].
    + intros [= <-] [= <-]. split; [done|].
      destruct (waits w1 !! next_id w1) as [wt|] eqn:E; [|done].
      assert (is_Some (waits w1 !! next_id w1)) as Hs by (by rewrite E).
      specialize (H6 _ Hs). lia.
    + eauto.
  - intros t' tm k. rewrite lookup_insert.
    destruct (decide (S (next_id w1) = t')) as [<-|]; [by intros [= <-]|].
    intros Ht1 Ht2. destruct (H12 _ _ _ Ht1 Ht2) as [-> Hn]. split; [done|].
    rewrite lookup_insert_ne; [done|]. intros <-. by destruct n.
  - intros r' m' p' Hm' Hp'. rewrite is_Some_alter. eauto.
Qed.
#[global] Hint Resolve wf_killSession : wf.

Lemma wf_resolve_kill w k : wf w → wf (resolve_kill k w).
Proof.
  intros Hw. unfold resolve_kill. destruct (kills w !! k) as [kw|] eqn:E; [|done].
  destruct (k_resolved kw); [done|]. apply wf_kill_finish.
  destruct (wf_kills _ Hw _ _ E). by apply wf_update_kill.
Qed.
#[global] Hint Resolve wf_resolve_kill : wf.

Lemma wf_run_timer w a : wf w → wf (run_timer a w).
Proof.
  intros Hw. unfold run_timer. destruct a as [k|k].
  - repeat case_match; auto with wf.
  - destruct (waits w !! k) as [wt|] eqn:E; [|done].
    destruct (w_settled wt); [done|].
    apply wf_update_wait; [done| | |done]; [by rewrite E|].
    simpl. by apply (wf_wait_managed _ Hw k).
Qed.
#[global] Hint Resolve wf_run_timer : wf.

Lemma wf_fire_timer w t : wf w → wf (fire_timer t w).
Proof. intros Hw. unfold fire_timer. case_match; auto with wf. Qed.

Lemma wf_clear_kill_timer w k : wf w → wf (clear_kill_timer w k).
Proof. intros Hw. unfold clear_kill_timer. case_match; auto with wf. Qed.
#[global] Hint Resolve wf_fire_timer wf_clear_kill_timer : wf.

Lemma wf_foldl {A} (f : World → A → World) l :
  (∀ w x, wf w → wf (f w x)) → ∀ w, wf w → wf (foldl f w l).
Proof. intros Hf. induction l; simpl; auto. Qed.

Lemma wf_on_proc_exit w p code : wf w → wf (on_proc_exit p code w).
Proof.
  intros Hw. unfold on_proc_exit.
  destruct (procs w !! p) as [c|] eqn:E; [|done].
  destruct (exitCode c); [done|].
  apply wf_foldl; [auto with wf|]. apply wf_foldl; [auto with wf|].
  apply wf_emit. apply wf_update; [done|].
  apply wf_insert_proc; [done| |done]. apply (wf_procs _ Hw). by rewrite E.
Qed.

Lemma wf_on_proc_error w p msg : wf w → wf (on_proc_error p msg w).
Proof. intros Hw. unfold on_proc_error. case_match; auto with wf. Qed.

Lemma wf_on_close w s : wf w → wf (on_close s w).
Proof.
  intros Hw. unfold on_close. destruct (socks w !! s) as [ws|] eqn:E; [|done].
  assert (wf (set_socks (<[s:=mkWebSocket CLOSED (sent ws) (closeCalls ws)
                              (handlers ws)]> (socks w)) w)).
  { apply wf_insert_sock; [done| | |done].
    - apply (wf_socks _ Hw). by rewrite E.
    - simpl. intros sid r. by apply (wf_handlers _ Hw s ws). }
  repeat case_match; auto. by apply wf_update.
Qed.

Lemma wf_reap_entry t w e : wf w → wf (reap_entry t w e).
Proof. intros Hw. unfold reap_entry. repeat case_match; auto with wf. Qed.

Lemma wf_reapIdleSessions w : wf w → wf (reapIdleSessions w).
Proof. intros Hw. apply wf_foldl; [|done]. intros. by apply wf_reap_entry. Qed.

Lemma wf_getOrCreate w o a : wf w → wf (getOrCreate o a w).2.
Proof.
  intros Hw. unfold getOrCreate.
  destruct (existing_session o w) as [[??]|]; [done|].
  destruct (spawnSession o a w) as [sid w1] eqn:E1.
  assert (wf w1) by (change w1 with (sid, w1).2; rewrite <- E1; auto with wf).
  destruct (waitForReady sid None w1) as [st w2] eqn:E2.
  assert (wf w2) by (change w2 with (st, w2).2; rewrite <- E2; auto with wf).
  by destruct st.
Qed.

#[global] Hint Resolve wf_on_proc_exit wf_on_proc_error wf_on_close
  wf_reapIdleSessions wf_getOrCreate : wf.

Section EventLoopFacts.
Variable JSON_parse : string → option JSVal.

Lemma wf_on_line sid r w line : wf w → wf (on_line JSON_parse sid r w line).
Proof.
  intros Hw. unfold on_line. destruct (JSON_parse line) as [msg|]; [|done].
  destruct (routeMessage sid r msg w) as [w'|] eqn:E; [|done].
  simpl. eauto using wf_routeMessage.
Qed.

Lemma wf_on_message s data w : wf w → wf (on_message JSON_parse s data w).
Proof.
  intros Hw. unfold on_message. repeat case_match; auto.
  apply wf_foldl; [|done]. intros. by apply wf_on_line.
Qed.

Lemma wf_step w e : wf w → wf (step JSON_parse w e).
Proof.
  intros Hw. destruct e as [| | | | | | | | | | | |sid content cliSid| | |];
    cbn [step]; auto with wf.
  - by apply wf_on_message.
  - destruct (sendUserMessage sid content cliSid w) eqn:E; [|done].
    simpl. eauto using wf_sendUserMessage.
Qed.

Lemma wf_run es : ∀ w, wf w → wf (run JSON_parse w es).
Proof. induction es; simpl; auto using wf_step. Qed.
End EventLoopFacts.

(** ** What an event does to the session objects *)

Section Footprint.
Variable T : nat → relation ManagedSession.

Lemma fp_refl w : footprint T w w.
Proof. intros r m Hm. by exists m. Qed.

Lemma fp_heap_eq w w' : heap w' = heap w → footprint T w w'.
Proof. intros E r m Hm. exists m. by rewrite E. Qed.

Lemma fp_trans w1 w2 w3 :
  footprint T w1 w2 → footprint T w2 w3 → footprint T w1 w3.
Proof.
  intros H12 H23 r m Hm. destruct (H12 _ _ Hm) as (m2 & Hm2 & R12).
  destruct (H23 _ _ Hm2) as (m3 & Hm3 & R23). exists m3.
  split; [done|]. by etrans.
Qed.

Lemma fp_update w r f :
  (∀ m, heap w !! r = Some m → T r m (f m)) → footprint T w (update r f w).
Proof.
  intros Hf r' m Hm. unfold update. simpl.
  destruct (decide (r = r')) as [<-|].
  - rewrite lookup_alter_eq, Hm. simpl. exists (f m). split; [done|].
    apply rtc_once. auto.
  - rewrite lookup_alter_ne by done. by exists m.
Qed.

Lemma fp_sendToCLI w r f :
  (∀ m, T r m (set_pendingMessages (pendingMessages m ++ [f]) m)) →
  footprint T w (sendToCLI r f w).
Proof.
  intros Hf. unfold sendToCLI. repeat case_match;
    (by apply fp_heap_eq) || (apply fp_update; auto).
Qed.
End Footprint.

Lemma heap_flush q s w : heap (flush s q w) = heap w.
Proof. apply heap_flush_wf. Qed.

Lemma heap_kill_finish sid r w : heap (kill_finish sid r w) = heap w.
Proof. unfold kill_finish. by repeat case_match. Qed.

Lemma heap_killSession sid w : heap (killSession sid w).1 = heap w.
Proof.
  unfold killSession, fresh. repeat case_match; try done.
  apply heap_kill_finish.
Qed.

Lemma heap_resolve_kill k w : heap (resolve_kill k w) = heap w.
Proof.
  unfold resolve_kill. repeat case_match; try done.
  by rewrite heap_kill_finish.
Qed.

Lemma heap_run_timer a w : heap (run_timer a w) = heap w.
Proof.
  unfold run_timer. repeat case_match; try done;
    by rewrite heap_resolve_kill.
Qed.

Lemma heap_fire_timer t w : heap (fire_timer t w) = heap w.
Proof. unfold fire_timer. case_match; [|done]. by rewrite heap_run_timer. Qed.

Lemma heap_clear_kill_timer w k : heap (clear_kill_timer w k) = heap w.
Proof. unfold clear_kill_timer. by case_match. Qed.

Lemma heap_foldl {A} (f : World → A → World) l :
  (∀ w x, heap (f w x) = heap w) → ∀ w, heap (foldl f w l) = heap w.
Proof.
  intros Hf. induction l as [|x l IH]; intros w; simpl; [done|].
  by rewrite IH, Hf.
Qed.

Lemma heap_reap_entry t w e : heap (reap_entry t w e) = heap w.
Proof.
  unfold reap_entry. repeat case_match; try done. apply heap_killSession.
Qed.

Lemma heap_reapIdleSessions w : heap (reapIdleSessions w) = heap w.
Proof. apply heap_foldl. intros. apply heap_reap_entry. Qed.

Lemma heap_waitForReady sid t w : heap (waitForReady sid t w).2 = heap w.
Proof. unfold waitForReady, fresh. by repeat case_match. Qed.

(** A new session leaves the objects that exist alone. *)
Lemma spawnSession_old o a w r :
  (r < next_id w)%nat → heap (spawnSession o a w).2 !! r = heap w !! r.
Proof.
  intros Hr. unfold spawnSession, spawnCLI, fresh. simpl.
  rewrite lookup_insert_eq. simpl.
  rewrite !lookup_alter_ne, lookup_insert_ne by lia. done.
Qed.

Lemma getOrCreate_old o a w r :
  (r < next_id w)%nat → heap (getOrCreate o a w).2 !! r = heap w !! r.
Proof.
  intros Hr. unfold getOrCreate.
  destruct (existing_session o w) as [[??]|]; [done|].
  destruct (spawnSession o a w) as [sid w1] eqn:E1.
  pose proof (heap_waitForReady sid None w1) as E2.
  pose proof (spawnSession_old o a w r Hr) as E3. rewrite E1 in E3.
  destruct (waitForReady sid None w1) as [[] w2]; simpl in *; congruence.
Qed.

Lemma fp_fresh T w w' :
  wf w → (∀ r, (r < next_id w)%nat → heap w' !! r = heap w !! r) →
  footprint T w w'.
Proof.
  intros Hw H r m Hm. exists m. split; [|done]. rewrite H; [done|].
  apply (wf_heap _ Hw). by rewrite Hm.
Qed.

Lemma fp_handleConnection w url :
  footprint (λ r, touch w r (Connection url)) w (handleConnection url w).
Proof.
  unfold handleConnection, fresh.
  destruct (match_path (default "" url)) as [sid|] eqn:Hp;
    [|by apply fp_heap_eq].
  simpl. destruct (Map_get sid (sessions w)) as [r|] eqn:Hg;
    [|by apply fp_heap_eq].
  destruct (heap w !! r) as [m|] eqn:Hm; [|by apply fp_heap_eq].
  intros r' m' Hm'. simpl. rewrite heap_flush. simpl.
  destruct (decide (r = r')) as [<-|].
  - rewrite !lookup_alter_eq, Hm'. simpl. eexists. split; [done|].
    eapply rtc_l; [by eapply touch_attach_socket|].
    eapply rtc_l; [by eapply touch_attach_state|].
    eapply rtc_l; [by eapply touch_attach_flush|]. done.
  - rewrite !lookup_alter_ne by done. by exists m'.
Qed.

Lemma fp_routeMessage T sid r msg w w' :
  (∀ m v, T r m (on_info (info_set_cliSessionId v) m)) →
  (∀ m, T r m (on_info (info_set_state ready) m)) →
  (∀ m, T r m (set_readyResolved true m)) →
  (∀ m t, T r m (on_info (info_set_lastUsedAt t) m)) →
  (∀ m f, T r m (set_pendingMessages (pendingMessages m ++ [f]) m)) →
  routeMessage sid r msg w = Some w' → footprint T w w'.
Proof.
  intros H1 H2 H3 H4 H5 H. apply routeMessage_cases in H
    as [->|[[v ->]|[->|[->|[->|[f ->]]]]]];
    try (by apply fp_heap_eq).
  - unfold readyResolve. eapply fp_trans; [|by apply fp_heap_eq].
    eapply fp_trans; [|apply fp_update; auto].
    eapply fp_trans; [|by apply fp_heap_eq].
    eapply fp_trans; apply fp_update; auto.
  - eapply fp_trans; [|by apply fp_heap_eq].
    eapply fp_trans; apply fp_update; auto.
  - apply fp_sendToCLI; auto.
Qed.

Section FootprintOfStep.
Variable JSON_parse : string → option JSVal.

Lemma fp_on_message w0 s data ws sid r :
  socks w0 !! s = Some ws → handlers ws = Some (sid, r) →
  ∀ lines w,
    footprint (λ r, touch w0 r (Message s data)) w
      (foldl (on_line JSON_parse sid r) w lines).
Proof.
  intros Hs Hh lines. induction lines as [|l lines IH]; intros w; simpl.
  - apply fp_refl.
  - eapply fp_trans; [|apply IH]. unfold on_line.
    destruct (JSON_parse l) as [msg|]; [|apply fp_refl].
    destruct (routeMessage sid r msg w) as [w'|] eqn:E; [|apply fp_refl].
    simpl. eapply fp_routeMessage; [..|exact E]; intros; econstructor; eauto.
Qed.

(** Whatever the event, an object is only changed by the assignments
    [touch] lists for that event. *)
Lemma step_footprint w e :
  wf w → footprint (λ r, touch w r e) w (step JSON_parse w e).
Proof.
  intros Hw.
  destruct e as [url|s data|s|s|s msg|p code|p msg|t| |t|o a|sid t
                |sid content cliSid|sid uuid|sid|o a]; cbn [step].
  - apply fp_handleConnection.
  - unfold on_message. destruct (socks w !! s) as [ws|] eqn:Hs;
      [|apply fp_refl].
    destruct (handlers ws) as [[sid r]|] eqn:Hh; [|apply fp_refl].
    by eapply fp_on_message.
  - by apply fp_heap_eq.
  - unfold on_close. destruct (socks w !! s) as [ws|] eqn:Hs;
      [|apply fp_refl].
    destruct (handlers ws) as [[sid r]|] eqn:Hh; [|by apply fp_heap_eq].
    eapply fp_trans; [|apply fp_update; intros; by econstructor].
    by apply fp_heap_eq.
  - apply fp_refl.
  - unfold on_proc_exit. destruct (procs w !! p) as [c|] eqn:Hp;
      [|apply fp_refl].
    destruct (exitCode c); [apply fp_refl|].
    eapply fp_trans;
      [|apply fp_heap_eq, heap_foldl; intros; apply heap_resolve_kill].
    eapply fp_trans;
      [|apply fp_heap_eq, heap_foldl; intros; apply heap_clear_kill_timer].
    eapply fp_trans; [|by apply fp_heap_eq].
    eapply fp_trans; [|apply fp_update; intros; by econstructor].
    by apply fp_heap_eq.
  - unfold on_proc_error. case_match; by apply fp_heap_eq.
  - apply fp_heap_eq, heap_fire_timer.
  - apply fp_heap_eq, heap_reapIdleSessions.
  - by apply fp_heap_eq.
  - apply fp_fresh; [done|]. intros. by apply spawnSession_old.
  - apply fp_heap_eq, heap_waitForReady.
  - unfold sendUserMessage.
    destruct (Map_get sid (sessions w)) as [r|] eqn:Hg; [|apply fp_refl].
    simpl. destruct (heap w !! r) as [m|]; [|apply fp_refl]. simpl.
    eapply fp_trans; [|apply fp_sendToCLI; intros; by econstructor].
    eapply fp_trans; apply fp_update; intros; by econstructor.
  - unfold sendInterrupt.
    destruct (Map_get sid (sessions w)) as [r|] eqn:Hg; [|apply fp_refl].
    apply fp_sendToCLI. intros. by econstructor.
  - apply fp_heap_eq, heap_killSession.
  - apply fp_fresh; [done|]. intros. by apply getOrCreate_old.
Qed.
End FootprintOfStep.

(** ** Which stores an operation leaves alone *)

Lemma foldl_keeps {A B} (proj : World → B) (f : World → A → World) l :
  (∀ w x, proj (f w x) = proj w) → ∀ w, proj (foldl f w l) = proj w.
Proof.
  intros Hf. induction l as [|x l IH]; intros w; simpl; [done|].
  by rewrite IH, Hf.
Qed.

Lemma sendToCLI_keeps w r f :
  waits (sendToCLI r f w) = waits w ∧ kills (sendToCLI r f w) = kills w
  ∧ timers (sendToCLI r f w) = timers w ∧ procs (sendToCLI r f w) = procs w
  ∧ sessions (sendToCLI r f w) = sessions w
  ∧ next_id (sendToCLI r f w) = next_id w ∧ now (sendToCLI r f w) = now w.
Proof. unfold sendToCLI. by repeat case_match. Qed.

Lemma sessions_sendToCLI w r f : sessions (sendToCLI r f w) = sessions w.
Proof. apply sendToCLI_keeps. Qed.

Lemma flush_keeps q : ∀ s w,
  waits (flush s q w) = waits w ∧ kills (flush s q w) = kills w
  ∧ timers (flush s q w) = timers w ∧ procs (flush s q w) = procs w
  ∧ sessions (flush s q w) = sessions w
  ∧ next_id (flush s q w) = next_id w ∧ now (flush s q w) = now w.
Proof.
  unfold flush. induction q as [|f q IH]; intros s w; simpl; [done|].
  destruct (IH s (ws_send s (f +:+ nl) w)) as (-> & -> & -> & -> & -> & -> & ->).
  done.
Qed.

Lemma handleConnection_keeps url w :
  waits (handleConnection url w) = waits w
  ∧ kills (handleConnection url w) = kills w
  ∧ timers (handleConnection url w) = timers w
  ∧ procs (handleConnection url w) = procs w
  ∧ sessions (handleConnection url w) = sessions w
  ∧ now (handleConnection url w) = now w.
Proof.
  unfold handleConnection, fresh. repeat case_match; try done.
  simpl. match goal with |- context [flush ?s ?q ?w] =>
    destruct (flush_keeps q s w) as (-> & -> & -> & -> & -> & _ & ->) end.
  done.
Qed.

Lemma kill_finish_keeps sid r w :
  waits (kill_finish sid r w) = waits w ∧ kills (kill_finish sid r w) = kills w
  ∧ timers (kill_finish sid r w) = timers w
  ∧ procs (kill_finish sid r w) = procs w
  ∧ next_id (kill_finish sid r w) = next_id w
  ∧ now (kill_finish sid r w) = now w.
Proof. unfold kill_finish. by repeat case_match. Qed.

Lemma sessions_kill_finish sid r w :
  sessions (kill_finish sid r w) = Map_delete sid (sessions w).
Proof. unfold kill_finish. by repeat case_match. Qed.

Lemma resolve_kill_keeps k w :
  waits (resolve_kill k w) = waits w ∧ timers (resolve_kill k w) = timers w
  ∧ procs (resolve_kill k w) = procs w
  ∧ next_id (resolve_kill k w) = next_id w ∧ now (resolve_kill k w) = now w.
Proof.
  unfold resolve_kill. repeat case_match; try done.
  match goal with |- context [kill_finish ?s ?r ?w] =>
    destruct (kill_finish_keeps s r w) as (-> & _ & -> & -> & -> & ->) end.
  done.
Qed.

Lemma clear_kill_timer_keeps w k :
  waits (clear_kill_timer w k) = waits w ∧ kills (clear_kill_timer w k) = kills w
  ∧ procs (clear_kill_timer w k) = procs w
  ∧ sessions (clear_kill_timer w k) = sessions w
  ∧ next_id (clear_kill_timer w k) = next_id w.
Proof. unfold clear_kill_timer. by case_match. Qed.

Lemma waits_on_proc_exit p code w : waits (on_proc_exit p code w) = waits w.
Proof.
  unfold on_proc_exit. repeat case_match; try done.
  rewrite (foldl_keeps waits); [|intros; apply resolve_kill_keeps].
  rewrite (foldl_keeps waits); [|intros; apply clear_kill_timer_keeps]. done.
Qed.

Lemma waits_killSession sid w : waits (killSession sid w).1 = waits w.
Proof.
  unfold killSession, fresh. repeat case_match; try done.
  apply kill_finish_keeps.
Qed.

Lemma waits_reapIdleSessions w : waits (reapIdleSessions w) = waits w.
Proof.
  apply (foldl_keeps waits). intros w' e. unfold reap_entry.
  repeat case_match; try done. apply waits_killSession.
Qed.

Lemma waits_spawnSession o a w : waits (spawnSession o a w).2 = waits w.
Proof.
  unfold spawnSession, spawnCLI, fresh. simpl. by rewrite lookup_insert_eq.
Qed.

Lemma waits_sendUserMessage sid c cs w w' :
  sendUserMessage sid c cs w = Some w' → waits w' = waits w.
Proof.
  unfold sendUserMessage. intros H. simplify_option_eq.
  by rewrite (proj1 (sendToCLI_keeps _ _ _)).
Qed.

Lemma waits_sendInterrupt sid u w : waits (sendInterrupt sid u w) = waits w.
Proof.
  unfold sendInterrupt. case_match; [|done]. apply sendToCLI_keeps.
Qed.

Lemma waits_on_close s w : waits (on_close s w) = waits w.
Proof. unfold on_close. by repeat case_match. Qed.

Lemma waits_on_proc_error p msg w : waits (on_proc_error p msg w) = waits w.
Proof. unfold on_proc_error. by case_match. Qed.

Lemma sendUserMessage_keeps sid c cs w :
  waits (default w (sendUserMessage sid c cs w)) = waits w
  ∧ kills (default w (sendUserMessage sid c cs w)) = kills w
  ∧ timers (default w (sendUserMessage sid c cs w)) = timers w
  ∧ procs (default w (sendUserMessage sid c cs w)) = procs w
  ∧ sessions (default w (sendUserMessage sid c cs w)) = sessions w
  ∧ next_id (default w (sendUserMessage sid c cs w)) = next_id w
  ∧ now (default w (sendUserMessage sid c cs w)) = now w.
Proof.
  unfold sendUserMessage. destruct (Map_get sid (sessions w)) as [r|]; [|done].
  simpl. destruct (heap w !! r) as [m|]; [|done]. simpl.
  match goal with |- context [sendToCLI ?r ?f ?w0] =>
    destruct (sendToCLI_keeps w0 r f) as (-> & -> & -> & -> & -> & -> & ->) end.
  done.
Qed.

Lemma sendInterrupt_keeps sid u w :
  waits (sendInterrupt sid u w) = waits w
  ∧ kills (sendInterrupt sid u w) = kills w
  ∧ timers (sendInterrupt sid u w) = timers w
  ∧ procs (sendInterrupt sid u w) = procs w
  ∧ sessions (sendInterrupt sid u w) = sessions w
  ∧ next_id (sendInterrupt sid u w) = next_id w
  ∧ now (sendInterrupt sid u w) = now w.
Proof.
  unfold sendInterrupt. case_match; [|done]. apply sendToCLI_keeps.
Qed.

(** ** The outbound queue *)

Lemma sendToCLI_queues w r m f :
  heap w !! r = Some m → writable w m = false →
  sendToCLI r f w
  = set_heap (<[r := set_pendingMessages (pendingMessages m ++ [f]) m]> (heap w)) w.
Proof.
  intros Hm Hw. unfold sendToCLI, writable in *. rewrite Hm.
  assert (update r (λ m0, set_pendingMessages (pendingMessages m0 ++ [f]) m0) w
          = set_heap (<[r := set_pendingMessages (pendingMessages m ++ [f]) m]> (heap w)) w) as E.
  { unfold update. f_equal. apply map_eq. intros i.
    rewrite lookup_alter, lookup_insert. destruct (decide (r = i)); subst; [by rewrite Hm|done]. }
  destruct (cliSocket m); [rewrite Hw|]; done.
Qed.

Lemma send_all_queues fs : ∀ w r m,
  heap w !! r = Some m → writable w m = false →
  foldl (λ w f, sendToCLI r f w) w fs
  = set_heap (<[r := set_pendingMessages (pendingMessages m ++ fs) m]> (heap w)) w.
Proof.
  induction fs as [|f fs IH]; intros w r m Hm Hw; simpl.
  - rewrite app_nil_r. destruct w, m; unfold set_heap, set_pendingMessages; simpl in *.
    f_equal. by rewrite insert_id.
  - rewrite (sendToCLI_queues _ _ m) by done.
    rewrite (IH _ _ (set_pendingMessages (pendingMessages m ++ [f]) m)).
    + unfold set_heap; simpl. f_equal. rewrite insert_insert_eq.
      by rewrite <- app_assoc.
    + simpl. apply lookup_insert_eq.
    + done.
Qed.

Lemma flush_sent q : ∀ w s ws,
  socks w !! s = Some ws → readyState ws = OPEN →
  flush s q w
  = set_socks (<[s := mkWebSocket OPEN (sent ws ++ map (λ f, f +:+ nl) q)
                        (closeCalls ws) (handlers ws)]> (socks w)) w.
Proof.
  unfold flush. induction q as [|f q IH]; intros w s ws Hs Ho; simpl.
  - rewrite app_nil_r. rewrite <- Ho. destruct w, ws; unfold set_socks; simpl in *.
    f_equal. by rewrite insert_id.
  - rewrite (IH _ _ (mkWebSocket OPEN (sent ws ++ [f +:+ nl]) (closeCalls ws) (handlers ws))).
    + unfold ws_send, set_socks; simpl. f_equal.
      rewrite <- app_assoc. simpl.
      apply map_eq. intros i. rewrite !lookup_insert. destruct (decide (s = i)); [done|].
      by rewrite lookup_alter_ne.
    + unfold ws_send; simpl. rewrite lookup_alter_eq, Hs. simpl. by rewrite Ho.
    + done.
Qed.
(** C1. Frames sent while the transport of a session is absent or not open
    are appended to its queue, nothing is written to any socket and no send
    fails; when a connection for the session then attaches, the new socket
    receives exactly the queued frames, newline-terminated and in append
    order, and the queue is empty afterwards.  No other socket is written
    to. *)
Theorem outbound_queue_fifo (w : World) (r : nat) (m : ManagedSession)
    (fs : list string) (url sid : string) :
  heap w !! r = Some m →
  writable w m = false →
  match_path url = Some sid →
  Map_get sid (sessions w) = Some r →
  let w1 := foldl (λ w f, sendToCLI r f w) w fs in
  let w2 := handleConnection (Some url) w1 in
  let s := next_id w in
  heap w1 !! r = Some (set_pendingMessages (pendingMessages m ++ fs) m)
  ∧ socks w1 = socks w
  ∧ socks w2 !! s
    = Some (mkWebSocket OPEN (map (λ f, f +:+ nl) (pendingMessages m ++ fs))
              [] (Some (sid, r)))
  ∧ (∀ s', s' ≠ s → socks w2 !! s' = socks w !! s')
  ∧ heap w2 !! r
    = Some (set_pendingMessages []
              (on_info (info_set_state connected)
                 (set_cliSocket (Some s) m))).
Proof.
  intros Hm Hw Hurl Hsid w1 w2 s.
  assert (w1 = set_heap (<[r := set_pendingMessages (pendingMessages m ++ fs) m]>
                           (heap w)) w) as E1 by (by apply send_all_queues).
  assert (heap w1 !! r = Some (set_pendingMessages (pendingMessages m ++ fs) m)) as H1.
  { rewrite E1. simpl. apply lookup_insert_eq. }
  split; [done|]. split; [by rewrite E1|].
  subst w2. unfold handleConnection. simpl. rewrite Hurl.
  replace (Map_get sid (sessions w1)) with (Some r) by (by rewrite E1).
  simpl. rewrite H1.
  erewrite flush_sent; [| simpl; apply lookup_insert_eq | done].
  simpl. replace (next_id w1) with s by (by rewrite E1).
  split; [|split].
  - rewrite lookup_alter_eq, lookup_insert_eq. done.
  - intros s' Hs'. rewrite lookup_alter_ne, !lookup_insert_ne by done. by rewrite E1.
  - rewrite !lookup_alter_eq, H1. done.
Qed.

(** ** Auto-approval of tool permissions *)

Lemma prop_defined v k x k' : prop v k = Some x → is_Some (prop v k').
Proof. destruct v; simpl; try done; eauto. Qed.

Lemma is_str_eq v s : is_str v s = true → v = JStr s.
Proof.
  destruct v; simpl; try done. intros ?%bool_decide_eq_true. by subst.
Qed.

Lemma sendToCLI_writes w r m f :
  heap w !! r = Some m → writable w m = true →
  ∃ s, cliSocket m = Some s ∧ sendToCLI r f w = ws_send s (f +:+ nl) w
       ∧ transmitted (sendToCLI r f w) s = transmitted w s ++ [f +:+ nl].
Proof.
  intros Hm Hw. unfold sendToCLI, writable in *. rewrite Hm.
  destruct (cliSocket m) as [s|]; [|done]. rewrite Hw. exists s.
  split; [done|]. split; [done|].
  unfold transmitted, is_open, ws_send in *. simpl. rewrite lookup_alter_eq.
  destruct (socks w !! s) as [ws|]; [simpl|done].
  apply bool_decide_eq_true in Hw. by rewrite Hw.
Qed.

(** C3. A routed [control_request] frame of subtype [can_use_tool] is
    answered by exactly one frame: the [control_response] whose behavior is
    [allow], whose request id is the one of the request and whose updated
    input is the proposed tool input as it came.  The frame is written to
    the transport when that is open and appended to the queue otherwise;
    nothing else changes.  A [control_request] of any other subtype leaves
    the world as it is. *)
Theorem permission_auto_approved (sid : string) (r : nat) (msg : JSVal)
    (w : World) (m : ManagedSession) (request subtype : JSVal) :
  heap w !! r = Some m →
  prop msg "type" = Some (JStr "control_request") →
  prop msg "request" = Some request →
  prop request "subtype" = Some subtype →
  let answer :=
    JSON_stringify
      (JObj [("type", JStr "control_response");
             ("response",
              JObj [("subtype", JStr "success");
                    ("request_id", default JUndefined (prop msg "request_id"));
                    ("response",
                     JObj [("behavior", JStr "allow");
                           ("updatedInput",
                            default JUndefined (prop request "input"))])])])
  in
  if is_str subtype "can_use_tool" then
    ∃ w', routeMessage sid r msg w = Some w'
      ∧ emitted w' = emitted w ∧ sessions w' = sessions w
      ∧ if writable w m then
          ∃ s, cliSocket m = Some s
            ∧ transmitted w' s = transmitted w s ++ [answer +:+ nl]
            ∧ (∀ s', s' ≠ s → socks w' !! s' = socks w !! s')
            ∧ heap w' = heap w
        else
          queued w' r = queued w r ++ [answer]
          ∧ (∀ r', r' ≠ r → heap w' !! r' = heap w !! r')
          ∧ socks w' = socks w
  else routeMessage sid r msg w = Some w.
Proof.
  intros Hm Htype Hreq Hsub answer.
  destruct (prop_defined _ _ _ "request_id" Htype) as [rid Hrid].
  destruct (prop_defined _ _ _ "input" Hsub) as [input Hinput].
  unfold routeMessage, autoApprovePermission.
  rewrite Htype. simpl. rewrite Hreq. simpl. rewrite Hsub. simpl.
  destruct (is_str subtype "can_use_tool"); [|done].
  rewrite Hrid. simpl. rewrite Hinput. simpl.
  subst answer. rewrite Hrid, Hinput. simpl. unfold control_response.
  set (answer := JSON_stringify _).
  eexists. split; [done|].
  destruct (writable w m) eqn:Hw.
  - destruct (sendToCLI_writes _ _ _ answer Hm Hw) as (s & Hs & E & Ht).
    rewrite E in *. split; [done|]. split; [done|]. exists s.
    split; [done|]. split; [done|]. split; [|done].
    intros s' Hs'. unfold ws_send. simpl. by rewrite lookup_alter_ne.
  - rewrite (sendToCLI_queues _ _ m) by done. simpl.
    split; [done|]. split; [done|]. split; [|split; [|done]].
    + unfold queued. simpl. by rewrite lookup_insert_eq, Hm.
    + intros r' Hr'. by rewrite lookup_insert_ne.
Qed.

(** ** The lifecycle *)

Lemma touch_state w r e m m' :
  touch w r e m m' →
  state (info m') = state (info m) ∨ assigns e = Some (state (info m')).
Proof. destruct 1; simpl; auto. Qed.

Lemma rtc_touch_state w r e m m' :
  rtc (touch w r e) m m' →
  state (info m') = state (info m) ∨ assigns e = Some (state (info m')).
Proof.
  intros H. induction H as [|m0 m1 m2 H01 H12 IH]; [by left|].
  destruct (touch_state _ _ _ _ _ H01) as [E|E]; destruct IH as [IH|IH].
  - left. congruence.
  - by right.
  - right. congruence.
  - by right.
Qed.

Lemma expected_edge e a b :
  expected e a = true → assigns e = Some b →
  b = a ∨ lifecycle_edge a b = true.
Proof.
  destruct e; simpl; intros Ha Hb; try discriminate Hb;
    injection Hb as <-.
  - apply bool_decide_eq_true in Ha. subst. by right.
  - apply bool_decide_eq_true in Ha. destruct Ha as [->|[->| ->]]; auto.
  - right. by destruct a.
  - apply bool_decide_eq_true in Ha. subst. by right.
Qed.

Section Lifecycle.
Variable JSON_parse : string → option JSVal.

(** One event: the state stays, or becomes the one the event assigns. *)
Lemma lifecycle_step_assigns w e r m :
  wf w → heap w !! r = Some m →
  ∃ m', heap (step JSON_parse w e) !! r = Some m'
    ∧ (state (info m') = state (info m)
       ∨ assigns e = Some (state (info m'))).
Proof.
  intros Hw Hm. destruct (step_footprint JSON_parse w e Hw r m Hm)
    as (m' & Hm' & Hrtc).
  exists m'. split; [done|]. by eapply rtc_touch_state.
Qed.

End Lifecycle.

(** ** Closing and reattaching a transport *)

Lemma handleConnection_attaches w url sid r m :
  match_path (default "" url) = Some sid →
  Map_get sid (sessions w) = Some r →
  heap w !! r = Some m →
  socks (handleConnection url w) !! next_id w
  = Some (mkWebSocket OPEN (map (λ f, f +:+ nl) (pendingMessages m)) []
            (Some (sid, r)))
  ∧ (∀ s', s' ≠ next_id w →
       socks (handleConnection url w) !! s' = socks w !! s')
  ∧ heap (handleConnection url w)
    = <[r := set_pendingMessages []
               (on_info (info_set_state connected)
                  (set_cliSocket (Some (next_id w)) m))]> (heap w).
Proof.
  intros Hurl Hsid Hm. unfold handleConnection. simpl. rewrite Hurl.
  simpl. rewrite Hsid, Hm.
  erewrite flush_sent; [| simpl; apply lookup_insert_eq | done].
  simpl. split; [|split].
  - by rewrite lookup_alter_eq, lookup_insert_eq.
  - intros s' Hs'. by rewrite lookup_alter_ne, !lookup_insert_ne.
  - apply map_eq. intros i. destruct (decide (r = i)) as [<-|].
    + by rewrite !lookup_alter_eq, lookup_insert_eq, Hm.
    + by rewrite !lookup_alter_ne, lookup_insert_ne.
Qed.

Lemma touch_unattached w r e m m' :
  (∀ url sid, e = Connection url →
     match_path (default "" url) = Some sid →
     Map_get sid (sessions w) ≠ Some r) →
  rtc (touch w r e) m m' → cliSocket m = None → cliSocket m' = None.
Proof.
  intros Hno H. induction H as [|m0 m1 m2 H01 H12 IH]; [done|].
  intros H0. apply IH. destruct H01; simpl; try done.
  by destruct (Hno url sid).
Qed.

Lemma touch_close_clears w r s ws sid m m' :
  socks w !! s = Some ws → handlers ws = Some (sid, r) →
  heap w !! r = Some m → heap (on_close s w) !! r = Some m' →
  cliSocket m' = None.
Proof.
  intros Hs Hh Hm. unfold on_close. rewrite Hs, Hh. simpl.
  rewrite lookup_alter_eq, Hm. simpl. by intros [= <-].
Qed.

Section Reattach.
Variable JSON_parse : string → option JSVal.

Lemma unattached_stays es : ∀ w r m,
  wf w → heap w !! r = Some m → cliSocket m = None →
  unattached_run JSON_parse w es r →
  ∃ m', heap (run JSON_parse w es) !! r = Some m' ∧ cliSocket m' = None.
Proof.
  induction es as [|e es IH]; intros w r m Hw Hm Hc Hrun; simpl.
  - by exists m.
  - destruct Hrun as [Hno Hrun].
    destruct (step_footprint JSON_parse w e Hw r m Hm) as (m1 & Hm1 & Hrtc).
    eapply (IH _ r m1); [by apply wf_step|done| |done].
    by eapply touch_unattached.
Qed.

End Reattach.

(** ** How a race of [waitForReady] settles *)

Lemma state_of_heap_eq w w' r : heap w' = heap w → state_of w' r = state_of w r.
Proof. unfold state_of. by intros ->. Qed.

Lemma state_of_emit n w r : state_of (emit n w) r = state_of w r.
Proof. done. Qed.

Lemma state_of_update_state w r st :
  is_Some (heap w !! r) →
  state_of (update r (on_info (info_set_state st)) w) r = Some st.
Proof.
  intros [m Hm]. unfold state_of, update. simpl.
  by rewrite lookup_alter_eq, Hm.
Qed.

Lemma state_of_update_keep w r r' f :
  (∀ m, state (info (f m)) = state (info m)) →
  state_of (update r f w) r' = state_of w r'.
Proof.
  intros Hf. unfold state_of, update. simpl. rewrite lookup_alter.
  destruct (decide (r = r')) as [<-|]; [|done].
  destruct (heap w !! r); simpl; [|done]. by rewrite Hf.
Qed.

Lemma state_of_sendToCLI w r f r' :
  state_of (sendToCLI r f w) r' = state_of w r'.
Proof.
  unfold sendToCLI. repeat case_match; try done;
    by apply state_of_update_keep.
Qed.

Lemma is_Some_update w r f r' :
  is_Some (heap (update r f w) !! r') ↔ is_Some (heap w !! r').
Proof. unfold update. simpl. apply is_Some_alter. Qed.

Lemma wait_progress_same k r wt w w' :
  waits w' = waits w → (∀ x, state_of w' x = state_of w x) →
  wait_progress k r wt w → wait_progress k r wt w'.
Proof.
  intros Ew Es (wt' & H1 & H2 & H3 & H4). exists wt'. rewrite Ew, Es. auto.
Qed.

Lemma readyResolve_wait r w k wt :
  waits w !! k = Some wt →
  ∃ wt', waits (readyResolve r w) !! k = Some wt'
    ∧ w_sessionId wt' = w_sessionId wt ∧ w_managed wt' = w_managed wt
    ∧ (w_settled wt' = w_settled wt
       ∨ (w_settled wt = None ∧ w_managed wt = r
          ∧ ∃ i, w_settled wt' = Some (Fulfilled i))).
Proof.
  intros Hk. unfold readyResolve. simpl. rewrite lookup_fmap, Hk. simpl.
  eexists. split; [done|].
  destruct (w_settled wt) eqn:E; [rewrite E; auto|].
  destruct (decide (w_managed wt = r)) as [<-|]; simpl; [|auto].
  split; [done|]. split; [done|]. right. eauto.
Qed.

Section WaitFacts.
Variable JSON_parse : string → option JSVal.

Lemma on_line_wait sid r w line k wt :
  wf w → wait_progress k r wt w →
  wait_progress k r wt (on_line JSON_parse sid r w line).
Proof.
  intros Hw Hp. unfold on_line.
  destruct (JSON_parse line) as [msg|]; [|done].
  destruct (routeMessage sid r msg w) as [w'|] eqn:E; [|done]. simpl.
  apply routeMessage_cases in E
    as [->|[[v ->]|[->|[->|[->|[f ->]]]]]]; try done.
  - (* init *)
    destruct Hp as (wt' & H1 & H2 & H3 & H4).
    set (w1 := emit _ _).
    assert (waits w1 !! k = Some wt') as H1' by done.
    assert (∀ x, is_Some (heap w !! x) → x = r →
              state_of (readyResolve r w1) r = Some ready) as Hst.
    { intros x Hx ->.
      rewrite (state_of_heap_eq (update r (set_readyResolved true) w1)
                 (readyResolve r w1)) by done.
      rewrite state_of_update_keep by done. subst w1.
      rewrite state_of_emit.
      apply state_of_update_state. by apply is_Some_update. }
    assert (is_Some (heap w !! w_managed wt')) as Hin
      by (by eapply wf_wait_managed).
    destruct (readyResolve_wait r w1 k wt' H1')
      as (wt2 & G1 & G2 & G3 & G4).
    exists wt2. split; [done|]. split; [congruence|]. split; [congruence|].
    destruct H4 as [H4|(H4 & H5 & [i H6] & H7)].
    + destruct G4 as [G4|(G4 & G5 & G6)]; [left; congruence|]. right.
      split; [congruence|]. split; [congruence|]. split; [done|].
      eapply Hst; [exact Hin|done].
    + right. split; [done|]. split; [done|].
      destruct G4 as [G4|(G4 & _)]; [|congruence].
      split; [exists i; congruence|].
      eapply Hst; [exact Hin|congruence].
  - (* result *)
    destruct Hp as (wt' & H1 & H2 & H3 & H4). exists wt'.
    split; [done|]. split; [done|]. split; [done|].
    destruct H4 as [H4|(H4 & H5 & H6 & H7)]; [by left|]. right.
    split; [done|]. split; [done|]. split; [done|].
    rewrite state_of_emit.
    rewrite state_of_update_keep by done.
    apply state_of_update_state.
    rewrite <- H5, <- H3. by eapply wf_wait_managed.
  - (* a frame is sent *)
    eapply wait_progress_same; [| |done].
    + apply sendToCLI_keeps.
    + intros. apply state_of_sendToCLI.
Qed.

Lemma on_message_wait sid r k wt lines : ∀ w,
  wf w → wait_progress k r wt w →
  wait_progress k r wt (foldl (on_line JSON_parse sid r) w lines).
Proof.
  induction lines as [|l lines IH]; intros w Hw Hp; simpl; [done|].
  apply IH; [by apply wf_on_line|by apply on_line_wait].
Qed.

Lemma wait_progress_refl k r wt w :
  waits w !! k = Some wt → wait_progress k r wt w.
Proof. intros Hk. exists wt. auto. Qed.

(** A race keeps its session and object; it settles at most once: through
    a frame on a socket attached to its object, which leaves the object
    ready, or through its timer, which changes nothing else. *)
Lemma step_wait w e k wt :
  wf w → waits w !! k = Some wt →
  ∃ wt', waits (step JSON_parse w e) !! k = Some wt'
    ∧ w_sessionId wt' = w_sessionId wt ∧ w_managed wt' = w_managed wt
    ∧ wait_change w e k wt wt' (step JSON_parse w e).
Proof.
  intros Hw Hk.
  assert (∀ w', waits w' = waits w →
    ∃ wt', waits w' !! k = Some wt'
      ∧ w_sessionId wt' = w_sessionId wt ∧ w_managed wt' = w_managed wt
      ∧ wait_change w e k wt wt' w') as Hsame.
  { intros w' E. exists wt. rewrite E. split; [done|]. split; [done|].
    split; [done|]. by apply wait_same. }
  assert (∀ x wt0 w', waits w' = <[x := wt0]> (waits w) →
    (next_id w ≤ x)%nat →
    ∃ wt', waits w' !! k = Some wt'
      ∧ w_sessionId wt' = w_sessionId wt ∧ w_managed wt' = w_managed wt
      ∧ wait_change w e k wt wt' w') as Hfresh.
  { intros x wt0 w' E Hx. exists wt. rewrite E.
    assert (S k < next_id w)%nat
      by (apply (wf_waits _ Hw); by rewrite Hk).
    rewrite lookup_insert_ne by lia. split; [done|]. split; [done|].
    split; [done|]. by apply wait_same. }
  destruct e as [url|s data|s|s|s msg|p code|p msg|t| |t|o a|sid t
                |sid content cliSid|sid uuid|sid|o a]; cbn [step].
  - apply Hsame, handleConnection_keeps.
  - unfold on_message. destruct (socks w !! s) as [ws|] eqn:Hs; [|by apply Hsame].
    destruct (handlers ws) as [[sid r]|] eqn:Hh; [|by apply Hsame].
    destruct (on_message_wait sid r k wt
                (filter (λ l, trim_nonempty l) (split_on (ascii_of_N 10) data))
                w Hw (wait_progress_refl k r wt w Hk))
      as (wt' & H1 & H2 & H3 & H4).
    exists wt'. split; [done|]. split; [done|]. split; [done|].
    destruct H4 as [H4|(H4 & H5 & [i H6] & H7)]; [by apply wait_same|].
    subst r. by eapply wait_ready.
  - by apply Hsame.
  - apply Hsame, waits_on_close.
  - by apply Hsame.
  - apply Hsame, waits_on_proc_exit.
  - apply Hsame, waits_on_proc_error.
  - unfold fire_timer. destruct (timers w !! t) as [tm|] eqn:Ht; [|by apply Hsame].
    destruct tm as [d [k'|k']]; simpl.
    + apply Hsame. destruct (kills w !! k'); [|done].
      rewrite (proj1 (resolve_kill_keeps _ _)). by repeat case_match.
    + destruct (waits w !! k') as [wt0|] eqn:Hk'; [|by apply Hsame].
      destruct (w_settled wt0) eqn:Es; [by apply Hsame|].
      destruct (decide (k' = k)) as [->|].
      * simpl. rewrite lookup_insert_eq. eexists. split; [done|].
        assert (wt0 = wt) as -> by congruence.
        split; [done|]. split; [done|]. by eapply wait_timeout.
      * simpl. rewrite lookup_insert_ne by done. exists wt.
        split; [done|]. split; [done|]. split; [done|]. by apply wait_same.
  - apply Hsame, waits_reapIdleSessions.
  - by apply Hsame.
  - apply Hsame, waits_spawnSession.
  - unfold waitForReady, fresh. repeat case_match; try (by apply Hsame).
    all: eapply Hfresh; [done|simpl; lia].
  - destruct (sendUserMessage sid content cliSid w) as [w'|] eqn:E;
      [|by apply Hsame].
    simpl. eapply Hsame, waits_sendUserMessage. done.
  - apply Hsame, waits_sendInterrupt.
  - apply Hsame, waits_killSession.
  - unfold getOrCreate.
    destruct (existing_session o w) as [[??]|]; [by apply Hsame|].
    destruct (spawnSession o a w) as [sid w1] eqn:E1.
    assert (waits w1 = waits w) as Ew1
      by (change w1 with (sid, w1).2; rewrite <- E1; apply waits_spawnSession).
    assert (next_id w ≤ next_id w1)%nat as Hn.
    { change w1 with (sid, w1).2. rewrite <- E1.
      unfold spawnSession, spawnCLI, fresh. simpl.
      rewrite lookup_insert_eq. simpl. lia. }
    unfold waitForReady, fresh. repeat case_match; simplify_eq;
      try (by apply Hsame).
    all: eapply Hfresh; [simpl; by rewrite Ew1|simpl; lia].
Qed.
End WaitFacts.

(** ** Timers of [waitForReady] stay armed until they fire *)

Lemma timers_killSession sid w t tm :
  wf w → timers w !! t = Some tm →
  timers (killSession sid w).1 !! t = Some tm.
Proof.
  intros Hw Ht. unfold killSession, fresh. repeat case_match; try done.
  - simpl. rewrite lookup_insert_ne; [done|].
    assert (t < next_id w)%nat by (apply (wf_timers _ Hw); by rewrite Ht).
    lia.
  - cbn [fst]. by rewrite (proj1 (proj2 (proj2 (kill_finish_keeps _ _ _)))).
Qed.

Lemma timers_clear_kill_timer w k' t tm k :
  wf w → timers w !! t = Some tm → action tm = ReadyTimeout k →
  timers (clear_kill_timer w k') !! t = Some tm.
Proof.
  intros Hw Ht Ha. unfold clear_kill_timer.
  destruct (kills w !! k') as [kw|] eqn:E; [|done]. simpl.
  destruct (wf_kills _ Hw _ _ E) as [_ ->].
  destruct (wf_timer_wait _ Hw _ _ _ Ht Ha) as [-> Hn].
  rewrite lookup_delete_ne; [done|]. intros [= ->]. congruence.
Qed.

Lemma foldl_wf_keeps {A} (P : World → Prop) (f : World → A → World) l :
  (∀ w x, wf w → wf (f w x)) → (∀ w x, wf w → P w → P (f w x)) →
  ∀ w, wf w → P w → P (foldl f w l).
Proof.
  intros Hwf Hf. induction l as [|x l IH]; intros w Hw HP; simpl; auto.
Qed.

Section TimerFacts.
Variable JSON_parse : string → option JSVal.

Lemma timers_on_message s data w :
  timers (on_message JSON_parse s data w) = timers w.
Proof.
  unfold on_message. repeat case_match; try done.
  apply (foldl_keeps timers). intros w' l. unfold on_line.
  destruct (JSON_parse l) as [msg|]; [|done].
  destruct (routeMessage _ _ msg w') as [w2|] eqn:E; [|done]. simpl.
  apply routeMessage_cases in E
    as [->|[[v ->]|[->|[->|[->|[f ->]]]]]]; try done.
  apply sendToCLI_keeps.
Qed.

(** The timer of a race is removed by firing only. *)
Lemma step_ready_timer w e t tm k :
  wf w → timers w !! t = Some tm → action tm = ReadyTimeout k →
  e ≠ TimerFires t →
  timers (step JSON_parse w e) !! t = Some tm.
Proof.
  intros Hw Ht Ha He.
  assert (t < next_id w)%nat as Hlt
    by (apply (wf_timers _ Hw); by rewrite Ht).
  destruct e as [url|s data|s|s|s msg|p code|p msg|t'| |t'|o a|sid t'
                |sid content cliSid|sid uuid|sid|o a]; cbn [step]; try done.
  - by rewrite (proj1 (proj2 (proj2 (handleConnection_keeps _ _)))).
  - by rewrite timers_on_message.
  - unfold on_close. by repeat case_match.
  - unfold on_proc_exit. repeat case_match; try done.
    rewrite (foldl_keeps timers); [|intros; apply resolve_kill_keeps].
    apply (foldl_wf_keeps (λ w, timers w !! t = Some tm));
      [auto with wf|intros; by eapply timers_clear_kill_timer| |done].
    apply wf_emit. apply wf_update; [done|].
    apply wf_insert_proc; [done| |done].
    apply (wf_procs _ Hw). by eexists.
  - unfold on_proc_error. by case_match.
  - unfold fire_timer. destruct (timers w !! t') as [tm'|] eqn:Ht'; [|done].
    assert (t' ≠ t) by congruence.
    assert (timers (set_timers (delete t' (timers (set_now
              (Z.max (now w) (deadline tm')) w)))
              (set_now (Z.max (now w) (deadline tm')) w)) !! t = Some tm)
      as H1 by (simpl; by rewrite lookup_delete_ne).
    revert H1. generalize (set_timers (delete t' (timers (set_now
              (Z.max (now w) (deadline tm')) w)))
              (set_now (Z.max (now w) (deadline tm')) w)).
    intros w1 H1. unfold run_timer. repeat case_match; try done;
      by rewrite (proj1 (proj2 (resolve_kill_keeps _ _))).
  - unfold reapIdleSessions.
    apply (foldl_wf_keeps (λ w, timers w !! t = Some tm));
      [intros; by apply wf_reap_entry| |done|done].
    intros w' x Hw' Hx. unfold reap_entry. repeat case_match; try done.
    by apply timers_killSession.
  - unfold spawnSession, spawnCLI, fresh. simpl.
    by rewrite lookup_insert_eq.
  - unfold waitForReady, fresh. repeat case_match; try done;
      simpl; rewrite lookup_insert_ne; (done || lia).
  - unfold sendUserMessage. destruct (Map_get sid (sessions w)); [|done].
    simpl. destruct (heap w !! n); [|done]. simpl.
    by rewrite (proj1 (proj2 (proj2 (sendToCLI_keeps _ _ _)))).
  - unfold sendInterrupt. case_match; [|done].
    by rewrite (proj1 (proj2 (proj2 (sendToCLI_keeps _ _ _)))).
  - by apply timers_killSession.
  - unfold getOrCreate.
    destruct (existing_session o w) as [[??]|]; [done|].
    destruct (spawnSession o a w) as [sid w1] eqn:E1.
    assert (timers w1 = timers w ∧ (next_id w ≤ next_id w1)%nat) as [Et Hn].
    { change w1 with (sid, w1).2. rewrite <- E1.
      unfold spawnSession, spawnCLI, fresh. simpl.
      rewrite lookup_insert_eq. simpl. split; [done|lia]. }
    unfold waitForReady, fresh. repeat case_match; simplify_eq;
      simpl; rewrite ?Et; try done;
      rewrite lookup_insert_ne; (done || lia).
Qed.
End TimerFacts.

(** ** Waiting for readiness *)

(** What firing the timer of a pending race does. *)
Lemma fire_ready_timer w k wt d :
  timers w !! S k = Some (mkTimer d (ReadyTimeout k)) →
  waits w !! k = Some wt → w_settled wt = None →
  fire_timer (S k) w
  = set_waits
      (<[k := mkReadyWait (w_sessionId wt) (w_managed wt)
                 (Some (Rejected timeout_error))]> (waits w))
      (set_timers (delete (S k) (timers w)) (set_now (Z.max (now w) d) w)).
Proof.
  intros Ht Hk Hs. unfold fire_timer. rewrite Ht. simpl. by rewrite Hk, Hs.
Qed.

Section Waiting.
Variable JSON_parse : string → option JSVal.

(** A race keeps its object and session, and a settled race stays as it
    is. *)
Lemma race_stays es : ∀ w k wt,
  wf w → waits w !! k = Some wt →
  ∃ wt', waits (run JSON_parse w es) !! k = Some wt'
    ∧ w_managed wt' = w_managed wt ∧ w_sessionId wt' = w_sessionId wt
    ∧ ∀ x, w_settled wt = Some x → w_settled wt' = Some x.
Proof.
  induction es as [|e es IH]; intros w k wt Hw Hk; simpl; [eauto|].
  destruct (step_wait JSON_parse w e k wt Hw Hk) as (wt1 & Hk1 & Hi1 & Hm1 & Hc).
  destruct (IH _ k wt1 (wf_step JSON_parse w e Hw) Hk1)
    as (wt2 & Hk2 & Hm2 & Hi2 & Hs2).
  exists wt2. split; [done|]. split; [congruence|]. split; [congruence|].
  intros x Hx. apply Hs2. destruct Hc; congruence.
Qed.

(** A pending race along a run: pending with its timer armed, fulfilled
    after an event that left its object ready, or rejected by its timer. *)
Lemma pending_race es : ∀ w k wt d,
  wf w → waits w !! k = Some wt → w_settled wt = None →
  timers w !! S k = Some (mkTimer d (ReadyTimeout k)) →
  ∃ wt', waits (run JSON_parse w es) !! k = Some wt'
    ∧ w_managed wt' = w_managed wt
    ∧ match w_settled wt' with
      | None =>
          timers (run JSON_parse w es) !! S k
          = Some (mkTimer d (ReadyTimeout k))
      | Some (Fulfilled _) =>
          ∃ es1 e es2, es = es1 ++ e :: es2
            ∧ state_of (run JSON_parse w (es1 ++ [e])) (w_managed wt)
              = Some ready
      | Some (Rejected message) => message = timeout_error
      end.
Proof.
  induction es as [|e es IH]; intros w k wt d Hw Hk Hs Ht; simpl.
  { exists wt. by rewrite Hs. }
  destruct (step_wait JSON_parse w e k wt Hw Hk) as (wt1 & Hk1 & _ & Hm1 & Hc).
  pose proof (wf_step JSON_parse w e Hw) as Hw1.
  destruct Hc as [Hsame|s data ws sid i _ -> Hsock Hh Hful Hst
                 |t tm _ -> Htm Ha Hrej _ _ _].
  - (* still pending *)
    assert (e ≠ TimerFires (S k)) as He.
    { intros ->. cbn [step] in Hk1.
      rewrite (fire_ready_timer _ _ _ _ Ht Hk Hs) in Hk1. simpl in Hk1.
      rewrite lookup_insert_eq in Hk1. injection Hk1 as <-.
      simpl in Hsame. congruence. }
    destruct (IH _ k wt1 d Hw1 Hk1) as (wt2 & Hk2 & Hm2 & H2).
    + congruence.
    + by eapply step_ready_timer.
    + exists wt2. split; [done|]. split; [congruence|].
      destruct (w_settled wt2) as [[i|msg]|]; try done.
      destruct H2 as (es1 & e' & es2 & -> & Hr).
      exists (e :: es1), e', es2. split; [done|]. simpl. by rewrite <- Hm1.
  - (* fulfilled by this event *)
    destruct (race_stays es _ k wt1 Hw1 Hk1) as (wt2 & Hk2 & Hm2 & _ & Hs2).
    exists wt2. split; [done|]. split; [congruence|].
    rewrite (Hs2 _ Hful). exists [], (Message s data), es. by split.
  - (* rejected by its timer *)
    destruct (race_stays es _ k wt1 Hw1 Hk1) as (wt2 & Hk2 & Hm2 & _ & Hs2).
    exists wt2. split; [done|]. split; [congruence|].
    by rewrite (Hs2 _ Hrej).
Qed.
End Waiting.
(** What [getOrCreate] does when it has to create the session. *)
Lemma getOrCreate_creates o a w :
  existing_session o w = None →
  let sid := default (randomUUID a) (o_sessionId o) in
  let r := next_id w in
  let k := S (S r) in
  ∃ w1 m,
    getOrCreate o a w = (Pending sid k, w1)
    ∧ sessions w1 = Map_set sid r (sessions w)
    ∧ heap w1 = <[r := m]> (heap w)
    ∧ state (info m) = starting ∧ process m = Some (S r)
    ∧ readyResolved m = false ∧ cliSocket m = None
    ∧ (∃ c, procs w1 = <[S r := c]> (procs w)
            ∧ exitCode c = None ∧ signals c = [] ∧ owner c = (sid, r))
    ∧ socks w1 = socks w ∧ kills w1 = kills w
    ∧ waits w1 = <[k := mkReadyWait sid r None]> (waits w)
    ∧ timers w1
      = <[S k := mkTimer (now w + 30000) (ReadyTimeout k)]> (timers w)
    ∧ now w1 = now w ∧ next_id w1 = S (S k).
Proof.
  intros He sid r k. unfold getOrCreate. rewrite He.
  unfold spawnSession, spawnCLI, fresh. simpl. rewrite lookup_insert_eq.
  fold sid r. simpl.
  unfold waitForReady, fresh. simpl. rewrite Map_get_set_eq.
  rewrite !lookup_alter_eq, lookup_insert_eq. simpl.
  eexists _, _. split; [done|]. simpl.
  split; [done|]. split.
  { apply map_eq. intros i. destruct (decide (r = i)) as [<-|].
    - by rewrite !lookup_alter_eq, !lookup_insert_eq.
    - by rewrite !lookup_alter_ne, !lookup_insert_ne. }
  simpl. repeat (split; [done|]). split; [|done].
  eexists. split; [done|]. done.
Qed.

Section ReadinessTimeout.
Variable JSON_parse : string → option JSVal.

End ReadinessTimeout.

(** ** Looking a session up *)

Lemma existing_session_live o w sid r m :
  o_sessionId o = Some sid → sid ≠ "" →
  Map_get sid (sessions w) = Some r → heap w !! r = Some m →
  state (info m) ≠ exited →
  existing_session o w = Some (sid, r).
Proof.
  intros Ho Hne Hg Hm Hst. unfold existing_session, hasSession, Map_has.
  rewrite Ho. rewrite bool_decide_eq_false_2 by done.
  rewrite Hg. unfold Map_get in Hg. rewrite Hg.
  rewrite bool_decide_eq_true_2 by eauto. simpl. rewrite Hm. simpl.
  by rewrite decide_False.
Qed.

Lemma getOrCreate_live o a w sid r m :
  o_sessionId o = Some sid → sid ≠ "" →
  Map_get sid (sessions w) = Some r → heap w !! r = Some m →
  state (info m) ≠ exited →
  getOrCreate o a w = (Done sid (Some r) false, w).
Proof.
  intros Ho Hne Hg Hm Hst. unfold getOrCreate.
  by rewrite (existing_session_live o w sid r m).
Qed.


(** From creation on: one launch, and two further calls add none. *)
Lemma getOrCreate_launches_once (o : SpawnOptions) (a a' a'' : Ambient)
    (w : World) (sid : string) :
  wf w → o_sessionId o = Some sid → sid ≠ "" →
  existing_session o w = None →
  let w1 := (getOrCreate o a w).2 in
  size (procs w1) = S (size (procs w))
  ∧ getOrCreate o a' w1 = (Done sid (Some (next_id w)) false, w1)
  ∧ getOrCreate o a'' (getOrCreate o a' w1).2
    = (Done sid (Some (next_id w)) false, w1).
Proof.
  intros Hw Ho Hne He w1.
  destruct (getOrCreate_creates o a w He)
    as (w1' & m & Hg & Hsess & Hheap & Hst & _ & _ & _ & (c & Hprocs & _) & _).
  assert (w1 = w1') as <- by (subst w1; by rewrite Hg).
  rewrite Ho in Hsess. simpl in Hsess. split.
  - rewrite Hprocs. apply map_size_insert_None.
    destruct (procs w !! S (next_id w)) eqn:E; [|done].
    assert (S (next_id w) < next_id w)%nat; [|lia].
    apply (wf_procs _ Hw). by rewrite E.
  - assert (∀ a0, getOrCreate o a0 w1 = (Done sid (Some (next_id w)) false, w1))
      as H.
    { intros a0. apply (getOrCreate_live o a0 w1 sid (next_id w) m); try done.
      - by rewrite Hsess, Map_get_set_eq.
      - by rewrite Hheap, lookup_insert_eq.
      - by rewrite Hst. }
    rewrite (H a'). simpl. by rewrite (H a'').
Qed.


(** ** Who can reach a session object *)

Lemma Map_get_delete_Some {V} k k' (v : V) m :
  Map_get k' (Map_delete k m) = Some v → Map_get k' m = Some v.
Proof.
  destruct (decide (k = k')) as [<-|].
  - by rewrite Map_get_delete_eq.
  - by rewrite Map_get_delete_ne.
Qed.

Lemma shrinks_refl w : shrinks w w.
Proof. by intros ??. Qed.

Lemma shrinks_eq w w' : sessions w' = sessions w → shrinks w w'.
Proof. intros E ??. by rewrite E. Qed.

Lemma shrinks_trans w1 w2 w3 : shrinks w1 w2 → shrinks w2 w3 → shrinks w1 w3.
Proof. intros H12 H23 ???. auto. Qed.

Lemma shrinks_kill_finish sid r w : shrinks w (kill_finish sid r w).
Proof.
  intros sid' r'. rewrite sessions_kill_finish. apply Map_get_delete_Some.
Qed.

Lemma shrinks_resolve_kill k w : shrinks w (resolve_kill k w).
Proof.
  unfold resolve_kill. repeat case_match; try apply shrinks_refl.
  eapply shrinks_trans; [|apply shrinks_kill_finish]. by apply shrinks_eq.
Qed.

Lemma shrinks_killSession sid w : shrinks w (killSession sid w).1.
Proof.
  unfold killSession, fresh. repeat case_match; try apply shrinks_refl.
  - by apply shrinks_eq.
  - apply shrinks_kill_finish.
Qed.

Lemma shrinks_foldl {A} (f : World → A → World) l :
  (∀ w x, shrinks w (f w x)) → ∀ w, shrinks w (foldl f w l).
Proof.
  intros Hf. induction l as [|x l IH]; intros w; simpl; [apply shrinks_refl|].
  eapply shrinks_trans; [apply Hf|apply IH].
Qed.

Lemma shrinks_reapIdleSessions w : shrinks w (reapIdleSessions w).
Proof.
  apply shrinks_foldl. intros w' e. unfold reap_entry.
  repeat case_match; try apply shrinks_refl.
  - intros sid r. apply Map_get_delete_Some.
  - apply shrinks_killSession.
Qed.

Lemma shrinks_on_proc_exit p code w : shrinks w (on_proc_exit p code w).
Proof.
  unfold on_proc_exit. repeat case_match; try apply shrinks_refl.
  eapply shrinks_trans; [|apply shrinks_foldl; intros; apply shrinks_resolve_kill].
  apply shrinks_eq. rewrite (foldl_keeps sessions); [done|].
  intros. apply clear_kill_timer_keeps.
Qed.

Lemma shrinks_fire_timer t w : shrinks w (fire_timer t w).
Proof.
  unfold fire_timer. case_match; [|apply shrinks_refl].
  unfold run_timer. repeat case_match; try (by apply shrinks_eq).
  - eapply shrinks_trans; [|apply shrinks_resolve_kill]. by apply shrinks_eq.
  - eapply shrinks_trans; [|apply shrinks_resolve_kill]. by apply shrinks_eq.
  - eapply shrinks_trans; [|apply shrinks_resolve_kill]. by apply shrinks_eq.
Qed.

Lemma sessions_spawnSession o a w :
  sessions (spawnSession o a w).2
  = Map_set (default (randomUUID a) (o_sessionId o)) (next_id w) (sessions w).
Proof.
  unfold spawnSession, spawnCLI, fresh. simpl. by rewrite lookup_insert_eq.
Qed.

Lemma sessions_waitForReady sid t w :
  sessions (waitForReady sid t w).2 = sessions w.
Proof. unfold waitForReady, fresh. by repeat case_match. Qed.

Lemma sessions_getOrCreate o a w :
  sessions (getOrCreate o a w).2 = sessions w
  ∨ sessions (getOrCreate o a w).2
    = Map_set (default (randomUUID a) (o_sessionId o)) (next_id w)
        (sessions w).
Proof.
  unfold getOrCreate. destruct (existing_session o w) as [[??]|]; [by left|].
  right. destruct (spawnSession o a w) as [sid w1] eqn:E1.
  pose proof (sessions_spawnSession o a w) as E. rewrite E1 in E. simpl in E.
  pose proof (sessions_waitForReady sid None w1) as E2.
  destruct (waitForReady sid None w1) as [[] w2]; simpl in *; congruence.
Qed.

Lemma handlers_kept_refl w : handlers_kept w w.
Proof. intros s ws Hs. by exists ws. Qed.

Lemma handlers_kept_eq w w' : socks w' = socks w → handlers_kept w w'.
Proof. intros E s ws Hs. exists ws. by rewrite <- E. Qed.

Lemma handlers_kept_trans w1 w2 w3 :
  handlers_kept w1 w2 → handlers_kept w2 w3 → handlers_kept w1 w3.
Proof.
  intros H12 H23 s ws3 Hs3. destruct (H23 _ _ Hs3) as (ws2 & Hs2 & E2).
  destruct (H12 _ _ Hs2) as (ws1 & Hs1 & E1). exists ws1. split; congruence.
Qed.

Lemma handlers_kept_alter w f s :
  (∀ ws, handlers (f ws) = handlers ws) →
  handlers_kept w (set_socks (alter f s (socks w)) w).
Proof.
  intros Hf s' ws'. simpl. rewrite lookup_alter.
  destruct (decide (s = s')) as [<-|]; [|by eauto].
  destruct (socks w !! s) as [ws|]; simpl; [|done].
  intros [= <-]. exists ws. by rewrite Hf.
Qed.

Lemma handlers_kept_ws_send w s d : handlers_kept w (ws_send s d w).
Proof. apply handlers_kept_alter. intros ws. by destruct (readyState ws). Qed.

Lemma handlers_kept_ws_close w s a : handlers_kept w (ws_close s a w).
Proof. apply handlers_kept_alter. intros ws. by destruct (readyState ws). Qed.

Lemma handlers_kept_sendToCLI w r f : handlers_kept w (sendToCLI r f w).
Proof.
  unfold sendToCLI. repeat case_match; try apply handlers_kept_refl;
    try (by apply handlers_kept_eq). apply handlers_kept_ws_send.
Qed.

Lemma handlers_kept_foldl {A} (f : World → A → World) l :
  (∀ w x, handlers_kept w (f w x)) → ∀ w, handlers_kept w (foldl f w l).
Proof.
  intros Hf. induction l as [|x l IH]; intros w; simpl;
    [apply handlers_kept_refl|].
  eapply handlers_kept_trans; [apply Hf|apply IH].
Qed.

Lemma handlers_kept_kill_finish sid r w :
  handlers_kept w (kill_finish sid r w).
Proof.
  unfold kill_finish. repeat case_match; try (by apply handlers_kept_eq).
  eapply handlers_kept_trans; [apply handlers_kept_ws_close|].
  by apply handlers_kept_eq.
Qed.

Lemma handlers_kept_resolve_kill k w : handlers_kept w (resolve_kill k w).
Proof.
  unfold resolve_kill. repeat case_match; try apply handlers_kept_refl.
  eapply handlers_kept_trans; [|apply handlers_kept_kill_finish].
  by apply handlers_kept_eq.
Qed.

Lemma handlers_kept_killSession sid w : handlers_kept w (killSession sid w).1.
Proof.
  unfold killSession, fresh. repeat case_match; try apply handlers_kept_refl.
  - by apply handlers_kept_eq.
  - apply handlers_kept_kill_finish.
Qed.

Lemma handlers_kept_routeMessage sid r msg w w' :
  routeMessage sid r msg w = Some w' → handlers_kept w w'.
Proof.
  intros H. apply routeMessage_cases in H
    as [->|[[v ->]|[->|[->|[->|[f ->]]]]]];
    try (by apply handlers_kept_eq). apply handlers_kept_sendToCLI.
Qed.

Section Reach.
Variable JSON_parse : string → option JSVal.

Lemma sessions_on_message s data w :
  sessions (on_message JSON_parse s data w) = sessions w.
Proof.
  unfold on_message. repeat case_match; try done.
  apply (foldl_keeps sessions). intros w' l. unfold on_line.
  destruct (JSON_parse l) as [msg|]; [|done].
  destruct (routeMessage _ _ msg w') as [w2|] eqn:E; [|done]. simpl.
  apply routeMessage_cases in E
    as [->|[[v ->]|[->|[->|[->|[f ->]]]]]]; try done.
  apply sendToCLI_keeps.
Qed.

(** After an event the registry maps an id to the object it mapped it to
    before, or to an object that did not exist. *)
Lemma step_sessions w e sid r :
  Map_get sid (sessions (step JSON_parse w e)) = Some r →
  Map_get sid (sessions w) = Some r ∨ (next_id w ≤ r)%nat.
Proof.
  assert (∀ w', shrinks w w' →
    Map_get sid (sessions w') = Some r →
    Map_get sid (sessions w) = Some r ∨ (next_id w ≤ r)%nat) as Hshrink
    by (intros w' H ?; left; by apply H).
  assert (∀ sid0 w',
    sessions w' = Map_set sid0 (next_id w) (sessions w) →
    Map_get sid (sessions w') = Some r →
    Map_get sid (sessions w) = Some r ∨ (next_id w ≤ r)%nat) as Hset.
  { intros sid0 w' E. rewrite E. destruct (decide (sid0 = sid)) as [->|].
    - rewrite Map_get_set_eq. intros [= <-]. by right.
    - rewrite Map_get_set_ne by done. by left. }
  destruct e as [url|s data|s|s|s msg|p code|p msg|t| |t|o a|sid0 t
                |sid0 content cliSid|sid0 uuid|sid0|o a]; cbn [step];
    try (by left).
  - apply Hshrink, shrinks_eq, handleConnection_keeps.
  - apply Hshrink, shrinks_eq, sessions_on_message.
  - apply Hshrink, shrinks_eq. unfold on_close. by repeat case_match.
  - apply Hshrink, shrinks_on_proc_exit.
  - apply Hshrink, shrinks_eq. unfold on_proc_error. by case_match.
  - apply Hshrink, shrinks_fire_timer.
  - apply Hshrink, shrinks_reapIdleSessions.
  - eapply Hset, sessions_spawnSession.
  - apply Hshrink, shrinks_eq, sessions_waitForReady.
  - apply Hshrink, shrinks_eq. unfold sendUserMessage.
    destruct (Map_get sid0 (sessions w)); [|done]. simpl.
    destruct (heap w !! n); [|done]. simpl. by rewrite sessions_sendToCLI.
  - apply Hshrink, shrinks_eq. unfold sendInterrupt. case_match; [|done].
    by rewrite sessions_sendToCLI.
  - apply Hshrink, shrinks_killSession.
  - destruct (sessions_getOrCreate o a w) as [E|E].
    + by apply Hshrink, shrinks_eq.
    + by eapply Hset.
Qed.

(** After an event a socket has the listeners it had, unless the event is
    the connection that attached it. *)
Lemma step_handlers w e s ws' sid r :
  socks (step JSON_parse w e) !! s = Some ws' →
  handlers ws' = Some (sid, r) →
  (∃ ws, socks w !! s = Some ws ∧ handlers ws = Some (sid, r))
  ∨ (∃ url, e = Connection url ∧ match_path (default "" url) = Some sid
            ∧ Map_get sid (sessions w) = Some r).
Proof.
  assert (∀ w', handlers_kept w w' → socks w' !! s = Some ws' →
    handlers ws' = Some (sid, r) →
    (∃ ws, socks w !! s = Some ws ∧ handlers ws = Some (sid, r))
    ∨ (∃ url, e = Connection url ∧ match_path (default "" url) = Some sid
              ∧ Map_get sid (sessions w) = Some r)) as Hkept.
  { intros w' H Hs Hh. left. destruct (H _ _ Hs) as (ws & Hws & E).
    exists ws. split; congruence. }
  destruct e as [url|s0 data|s0|s0|s0 msg|p code|p msg|t| |t|o a|sid0 t
                |sid0 content cliSid|sid0 uuid|sid0|o a]; cbn [step].
  - (* a connection *)
    unfold handleConnection, fresh.
    assert (∀ x, handlers_kept w
      (ws_close (next_id w) x
         (set_socks (<[next_id w := mkWebSocket OPEN [] [] None]>
            (socks (set_next_id (S (next_id w)) w)))
            (set_next_id (S (next_id w)) w))) ∨ True) as _ by (by right).
    destruct (match_path (default "" url)) as [sid1|] eqn:Hp.
    2:{ unfold ws_close. simpl. rewrite lookup_alter.
        destruct (decide (next_id w = s)) as [<-|].
        - rewrite lookup_insert_eq. simpl. by intros [= <-].
        - rewrite lookup_insert_ne by done. intros Hs Hh. left. eauto. }
    simpl. destruct (Map_get sid1 (sessions w)) as [r1|] eqn:Hg.
    2:{ unfold ws_close. simpl. rewrite lookup_alter.
        destruct (decide (next_id w = s)) as [<-|].
        - rewrite lookup_insert_eq. simpl. by intros [= <-].
        - rewrite lookup_insert_ne by done. intros Hs Hh. left. eauto. }
    destruct (heap w !! r1) as [m1|] eqn:Hm.
    2:{ simpl. rewrite lookup_insert.
        destruct (decide (next_id w = s)) as [<-|]; [by intros [= <-]|].
        intros Hs Hh. left. eauto. }
    simpl. rewrite lookup_alter. destruct (decide (next_id w = s)) as [<-|].
    + intros Hs Hh. right. exists url.
      apply fmap_Some in Hs as (ws0 & _ & ->). simpl in Hh.
      injection Hh as <- <-. done.
    + intros Hs Hh. left.
      match type of Hs with socks (flush ?s0 ?q ?w0) !! _ = _ =>
        destruct (handlers_kept_foldl
          (λ w ndjson, ws_send s0 (ndjson +:+ nl) w) q
          (λ w x, handlers_kept_ws_send w s0 _) w0 _ _ Hs) as (ws & Hws & E)
      end.
      simpl in Hws. rewrite lookup_insert_ne in Hws by done.
      exists ws. split; congruence.
  - apply Hkept. unfold on_message. repeat case_match;
      try apply handlers_kept_refl.
    apply handlers_kept_foldl. intros w' l. unfold on_line.
    destruct (JSON_parse l) as [msg|]; [|apply handlers_kept_refl].
    destruct (routeMessage _ _ msg w') as [w2|] eqn:E;
      [|apply handlers_kept_refl].
    simpl. by eapply handlers_kept_routeMessage.
  - apply Hkept. apply handlers_kept_alter. intros ws.
    by destruct (readyState ws).
  - apply Hkept. unfold on_close.
    destruct (socks w !! s0) as [ws0|] eqn:Hs0; [|apply handlers_kept_refl].
    apply (handlers_kept_trans _
             (set_socks (<[s0:=mkWebSocket CLOSED (sent ws0) (closeCalls ws0)
                                (handlers ws0)]> (socks w)) w));
      [|repeat case_match; by apply handlers_kept_eq].
    intros s1 ws1. simpl. rewrite lookup_insert.
    destruct (decide (s0 = s1)) as [<-|]; [|by eauto].
    intros [= <-]. by exists ws0.
  - apply Hkept, handlers_kept_refl.
  - apply Hkept. unfold on_proc_exit. repeat case_match;
      try apply handlers_kept_refl.
    eapply handlers_kept_trans;
      [|apply handlers_kept_foldl; intros; apply handlers_kept_resolve_kill].
    eapply handlers_kept_trans;
      [|apply handlers_kept_foldl; intros w' k';
        unfold clear_kill_timer; case_match; by apply handlers_kept_eq].
    by apply handlers_kept_eq.
  - apply Hkept. unfold on_proc_error. case_match; by apply handlers_kept_eq.
  - apply Hkept. unfold fire_timer. case_match; [|apply handlers_kept_refl].
    unfold run_timer. repeat case_match; try (by apply handlers_kept_eq).
    + eapply handlers_kept_trans; [|apply handlers_kept_resolve_kill].
      by apply handlers_kept_eq.
    + eapply handlers_kept_trans; [|apply handlers_kept_resolve_kill].
      by apply handlers_kept_eq.
    + eapply handlers_kept_trans; [|apply handlers_kept_resolve_kill].
      by apply handlers_kept_eq.
  - apply Hkept. apply handlers_kept_foldl. intros w' e. unfold reap_entry.
    repeat case_match; try apply handlers_kept_refl;
      try (by apply handlers_kept_eq). apply handlers_kept_killSession.
  - apply Hkept. by apply handlers_kept_eq.
  - apply Hkept, handlers_kept_eq. unfold spawnSession, spawnCLI, fresh.
    simpl. by rewrite lookup_insert_eq.
  - apply Hkept, handlers_kept_eq. unfold waitForReady, fresh.
    by repeat case_match.
  - apply Hkept. unfold sendUserMessage.
    destruct (Map_get sid0 (sessions w)); [|apply handlers_kept_refl]. simpl.
    destruct (heap w !! n); [|apply handlers_kept_refl]. simpl.
    eapply handlers_kept_trans; [|apply handlers_kept_sendToCLI].
    by apply handlers_kept_eq.
  - apply Hkept. unfold sendInterrupt. case_match;
      [apply handlers_kept_sendToCLI|apply handlers_kept_refl].
  - apply Hkept, handlers_kept_killSession.
  - apply Hkept, handlers_kept_eq.
    destruct (existing_session o w) as [[??]|] eqn:He.
    + unfold getOrCreate. by rewrite He.
    + destruct (getOrCreate_creates o a w He)
        as (w1 & m & Hg & _ & _ & _ & _ & _ & _ & _ & Hsocks & _).
      by rewrite Hg.
Qed.
End Reach.

(** ** Session ids the endpoint cannot match *)

Lemma match_path_valid url sid :
  match_path url = Some sid → all_chars is_id_char sid = true.
Proof.
  unfold match_path. destruct (strip_prefix "/ws/cli/" url) as [rest|]; [|done].
  destruct (negb (bool_decide (rest = ""))); simpl; [|done].
  destruct (all_chars is_id_char rest) eqn:E; [|done]. by intros [= <-].
Qed.

Lemma strip_prefix_app p s : strip_prefix p (p +:+ s) = Some s.
Proof.
  induction p as [|c p IH]; simpl; [by destruct s|]. by rewrite decide_True.
Qed.

Lemma match_path_refuses sid :
  all_chars is_id_char sid = false → match_path ("/ws/cli/" +:+ sid) = None.
Proof.
  intros H. unfold match_path. rewrite strip_prefix_app, H.
  by destruct (negb (bool_decide (sid = ""))).
Qed.

(** A connection whose path does not match is closed with code 4000 and
    touches nothing else. *)
Lemma handleConnection_refuses url w :
  match_path (default "" url) = None →
  socks (handleConnection url w) !! next_id w
  = Some (mkWebSocket CLOSING [] [Some (4000, "Invalid path")] None)
  ∧ heap (handleConnection url w) = heap w
  ∧ sessions (handleConnection url w) = sessions w.
Proof.
  intros H. unfold handleConnection, fresh, ws_close. rewrite H. simpl.
  by rewrite lookup_alter_eq, lookup_insert_eq.
Qed.

Lemma touch_unreachable w r sid e m m' :
  all_chars is_id_char sid = false → unreachable w r sid →
  rtc (touch w r e) m m' →
  cliSocket m' = cliSocket m
  ∧ readyResolved m' = readyResolved m
  ∧ (state (info m') = state (info m) ∨ state (info m') = busy
     ∨ state (info m') = exited).
Proof.
  intros Hbad [Hsock Hreg] H.
  induction H as [|m0 m1 m2 H01 H12 IH]; [auto|].
  assert (cliSocket m1 = cliSocket m0 ∧ readyResolved m1 = readyResolved m0
          ∧ (state (info m1) = state (info m0) ∨ state (info m1) = busy
             ∨ state (info m1) = exited)) as (E1 & E2 & E3).
  { destruct H01; simpl; auto;
      try (match goal with
           | Hp : match_path _ = Some ?s, Hg : Map_get ?s _ = Some _ |- _ =>
               apply Hreg in Hg; subst s; apply match_path_valid in Hp;
               congruence
           end);
      try (match goal with
           | Hs : socks _ !! _ = Some ?ws, Hh : handlers ?ws = Some _ |- _ =>
               by destruct (Hsock _ _ _ Hs Hh)
           end). }
  destruct IH as (I1 & I2 & I3). split; [congruence|]. split; [congruence|].
  destruct I3 as [I3|[I3|I3]]; auto. rewrite I3. auto.
Qed.

Lemma next_id_killSession sid w :
  (next_id w ≤ next_id (killSession sid w).1)%nat.
Proof.
  unfold killSession, fresh.
  destruct (Map_get sid (sessions w)); [|done].
  destruct (heap w !! n); [|done].
  destruct (process m); cbn [fst]; [simpl; lia|].
  by rewrite (proj1 (proj2 (proj2 (proj2 (proj2 (kill_finish_keeps _ _ _)))))).
Qed.

Section Unroutable.
Variable JSON_parse : string → option JSVal.

Lemma step_unreachable w e r sid :
  (r < next_id w)%nat → all_chars is_id_char sid = false →
  unreachable w r sid → unreachable (step JSON_parse w e) r sid.
Proof.
  intros Hr Hbad [Hsock Hreg]. split.
  - intros s ws sid' Hs Hh.
    destruct (step_handlers JSON_parse w e s ws sid' r Hs Hh)
      as [(ws0 & Hs0 & Hh0)|(url & _ & Hp & Hg)].
    + by destruct (Hsock _ _ _ Hs0 Hh0).
    + apply Hreg in Hg. subst sid'. apply match_path_valid in Hp. congruence.
  - intros sid' Hg.
    destruct (step_sessions JSON_parse w e sid' r Hg) as [H|H]; [auto|lia].
Qed.

Lemma next_id_step w e : wf w → (next_id w ≤ next_id (step JSON_parse w e))%nat.
Proof.
  intros Hw.
  destruct e as [url|s data|s|s|s msg|p code|p msg|t| |t|o a|sid0 t
                |sid0 content cliSid|sid0 uuid|sid0|o a]; cbn [step]; try done.
  - unfold handleConnection, fresh. repeat case_match; simpl; try lia.
    rewrite (proj1 (proj2 (proj2 (proj2 (proj2 (proj2 (flush_keeps _ _ _))))))).
    simpl. lia.
  - unfold on_message. repeat case_match; try done.
    apply (foldl_wf_keeps (λ w', next_id w ≤ next_id w')%nat);
      [intros; by apply wf_on_line| |done|done].
    intros w' l _ Hle. unfold on_line.
    destruct (JSON_parse l) as [msg|]; [|done].
    destruct (routeMessage _ _ msg w') as [w2|] eqn:E; [|done]. simpl.
    apply routeMessage_cases in E
      as [->|[[v ->]|[->|[->|[->|[f ->]]]]]]; try done.
    by rewrite (proj1 (proj2 (proj2 (proj2 (proj2 (proj2
                  (sendToCLI_keeps _ _ _))))))).
  - unfold on_close. by repeat case_match.
  - unfold on_proc_exit. repeat case_match; try done.
    rewrite (foldl_keeps next_id); [|intros; apply resolve_kill_keeps].
    rewrite (foldl_keeps next_id); [|intros; apply clear_kill_timer_keeps].
    done.
  - unfold on_proc_error. by case_match.
  - unfold fire_timer. case_match; [|done]. unfold run_timer.
    repeat case_match; try done;
      by rewrite (proj1 (proj2 (proj2 (proj2 (resolve_kill_keeps _ _))))).
  - apply (foldl_wf_keeps (λ w', next_id w ≤ next_id w')%nat);
      [intros; by apply wf_reap_entry| |done|done].
    intros w' x _ Hle. unfold reap_entry.
    repeat case_match; try done.
    etrans; [exact Hle|apply next_id_killSession].
  - unfold spawnSession, spawnCLI, fresh. simpl. rewrite lookup_insert_eq.
    simpl. lia.
  - unfold waitForReady, fresh. repeat case_match; simpl; lia.
  - unfold sendUserMessage. destruct (Map_get sid0 (sessions w)); [|done].
    simpl. destruct (heap w !! n); [|done]. simpl.
    by rewrite (proj1 (proj2 (proj2 (proj2 (proj2 (proj2
                  (sendToCLI_keeps _ _ _))))))).
  - unfold sendInterrupt. case_match; [|done].
    by rewrite (proj1 (proj2 (proj2 (proj2 (proj2 (proj2
                  (sendToCLI_keeps _ _ _))))))).
  - apply next_id_killSession.
  - destruct (existing_session o w) as [[??]|] eqn:He.
    + unfold getOrCreate. by rewrite He.
    + destruct (getOrCreate_creates o a w He)
        as (w1 & m & Hg & _ & _ & _ & _ & _ & _ & _ & _ & _ & _ & _ & _ & Hn).
      rewrite Hg. simpl. lia.
Qed.

(** An object no connection can reach never gets a transport and is never
    connected or ready. *)
Lemma unreachable_run es : ∀ w r sid m,
  wf w → all_chars is_id_char sid = false → unreachable w r sid →
  heap w !! r = Some m → cliSocket m = None →
  state (info m) ≠ connected → state (info m) ≠ ready →
  ∃ m', heap (run JSON_parse w es) !! r = Some m'
    ∧ cliSocket m' = None
    ∧ state (info m') ≠ connected ∧ state (info m') ≠ ready.
Proof.
  induction es as [|e es IH]; intros w r sid m Hw Hbad Hun Hm Hc H1 H2; simpl.
  { by exists m. }
  destruct (step_footprint JSON_parse w e Hw r m Hm) as (m1 & Hm1 & Hrtc).
  destruct (touch_unreachable _ _ _ _ _ _ Hbad Hun Hrtc) as (E1 & _ & E3).
  assert (r < next_id w)%nat as Hr by (apply (wf_heap _ Hw); by rewrite Hm).
  apply (IH _ r sid m1); try done.
  - by apply wf_step.
  - by apply step_unreachable.
  - congruence.
  - destruct E3 as [E|[E|E]]; congruence.
  - destruct E3 as [E|[E|E]]; congruence.
Qed.
End Unroutable.

Section UnroutableTheorem.
Variable JSON_parse : string → option JSVal.

End UnroutableTheorem.

(** ** Terminating a session *)

Lemma kills_kill_finish sid r w : kills (kill_finish sid r w) = kills w.
Proof. apply kill_finish_keeps. Qed.

Lemma kills_resolve_kill_ne k' k w :
  k' ≠ k → kills (resolve_kill k' w) !! k = kills w !! k.
Proof.
  intros Hne. unfold resolve_kill. repeat case_match; try done.
  rewrite kills_kill_finish. simpl. by rewrite lookup_insert_ne.
Qed.

Lemma resolve_kill_pending k sid r t w :
  kills w !! k = Some (mkKillWait sid r t false) →
  kills (resolve_kill k w) !! k = Some (mkKillWait sid r t true)
  ∧ Map_get sid (sessions (resolve_kill k w)) = None.
Proof.
  intros Hk. unfold resolve_kill. rewrite Hk.
  cbn [k_resolved k_sessionId k_managed k_timer]. split.
  - rewrite kills_kill_finish. simpl. by rewrite lookup_insert_eq.
  - rewrite sessions_kill_finish. apply Map_get_delete_eq.
Qed.

Lemma resolve_kill_resolved k kw w :
  kills w !! k = Some kw → k_resolved kw = true → resolve_kill k w = w.
Proof. intros Hk Hr. unfold resolve_kill. by rewrite Hk, Hr. Qed.

Lemma shrinks_None w w' sid :
  shrinks w w' → Map_get sid (sessions w) = None →
  Map_get sid (sessions w') = None.
Proof.
  intros H Hn. destruct (Map_get sid (sessions w')) as [r|] eqn:E; [|done].
  apply H in E. congruence.
Qed.

(** Resuming the calls in [l]: a resolved call stays resolved and its
    record stays removed; a suspended call stays suspended unless it is in
    [l]. *)
Lemma resolve_all l : ∀ w k sid r,
  (kill_done w k sid r ∧ Map_get sid (sessions w) = None
   → kill_done (foldl (λ w k, resolve_kill k w) w l) k sid r
     ∧ Map_get sid (sessions (foldl (λ w k, resolve_kill k w) w l)) = None)
  ∧ (kills w !! k = Some (mkKillWait sid r (S k) false)
     → (k ∈ l ∨ kills (foldl (λ w k, resolve_kill k w) w l) !! k
                 = Some (mkKillWait sid r (S k) false))
       ∧ (k ∈ l → kill_done (foldl (λ w k, resolve_kill k w) w l) k sid r
           ∧ Map_get sid (sessions (foldl (λ w k, resolve_kill k w) w l))
             = None)).
Proof.
  induction l as [|k' l IH]; intros w k sid r; simpl.
  { split; [done|]. intros Hk. split; [by right|]. by intros ?%elem_of_nil. }
  split.
  - intros [Hd Hn]. apply (proj1 (IH _ _ _ _)). split.
    + unfold kill_done in *. destruct (decide (k' = k)) as [->|].
      * by rewrite (resolve_kill_resolved _ _ _ Hd).
      * by rewrite kills_resolve_kill_ne.
    + eapply shrinks_None; [apply shrinks_resolve_kill|done].
  - intros Hk. destruct (decide (k' = k)) as [->|Hne].
    + destruct (resolve_kill_pending _ _ _ _ _ Hk) as [Hd Hn].
      split; [left; left|]. intros _. by apply (proj1 (IH _ _ _ _)).
    + destruct (IH (resolve_kill k' w) k sid r) as [_ IH2].
      rewrite kills_resolve_kill_ne in IH2 by done.
      destruct (IH2 Hk) as [IHa IHb]. split.
      * destruct IHa; [left; by right|by right].
      * intros [?|Hin]%elem_of_cons; [congruence|auto].
Qed.

Lemma listeners_kept_refl w : listeners_kept w w.
Proof. intros p c k Hp Hk. eauto. Qed.

Lemma listeners_kept_eq w w' : procs w' = procs w → listeners_kept w w'.
Proof. intros E p c k Hp Hk. rewrite E. eauto. Qed.

Lemma listeners_kept_trans w1 w2 w3 :
  listeners_kept w1 w2 → listeners_kept w2 w3 → listeners_kept w1 w3.
Proof.
  intros H12 H23 p c k Hp Hk. destruct (H12 _ _ _ Hp Hk) as (c2 & Hp2 & Hk2).
  eauto.
Qed.

Lemma listeners_kept_alter w f p :
  (∀ c k, k ∈ exitListeners c → k ∈ exitListeners (f c)) →
  listeners_kept w (set_procs (alter f p (procs w)) w).
Proof.
  intros Hf p' c k Hp Hk. simpl. rewrite lookup_alter.
  destruct (decide (p = p')) as [<-|]; [|eauto].
  rewrite Hp. simpl. eauto.
Qed.

Lemma listeners_kept_proc_kill w p sig : listeners_kept w (proc_kill p sig w).
Proof.
  apply listeners_kept_alter. intros c k Hk. by destruct (exitCode c).
Qed.

Lemma listeners_kept_foldl {A} (f : World → A → World) l :
  (∀ w x, listeners_kept w (f w x)) → ∀ w, listeners_kept w (foldl f w l).
Proof.
  intros Hf. induction l as [|x l IH]; intros w; simpl;
    [apply listeners_kept_refl|].
  eapply listeners_kept_trans; [apply Hf|apply IH].
Qed.

Lemma listeners_kept_killSession sid w :
  wf w → listeners_kept w (killSession sid w).1.
Proof.
  intros Hw. unfold killSession, fresh.
  destruct (Map_get sid (sessions w)); [|apply listeners_kept_refl].
  destruct (heap w !! n); [|apply listeners_kept_refl].
  destruct (process m) as [p|]; cbn [fst].
  - eapply listeners_kept_trans; [apply (listeners_kept_proc_kill _ p SIGTERM)|].
    eapply listeners_kept_trans; [|by apply listeners_kept_eq].
    apply (listeners_kept_trans _
      (set_procs (alter (λ c, mkChildProcess (spawnfile c) (spawnargs c)
                   (spawn_cwd c) (spawn_env c) (owner c) (exitCode c)
                   (signals c) (exitListeners c ++ [next_id w])) p
                   (procs (proc_kill p SIGTERM w))) (proc_kill p SIGTERM w)));
      [|by apply listeners_kept_eq].
    apply listeners_kept_alter. intros c k Hk. simpl.
    apply elem_of_app. by left.
  - apply listeners_kept_eq, kill_finish_keeps.
Qed.

Lemma procs_resolve_kill k w : procs (resolve_kill k w) = procs w.
Proof. apply resolve_kill_keeps. Qed.

Lemma timers_resolve_kill k w : timers (resolve_kill k w) = timers w.
Proof. apply resolve_kill_keeps. Qed.

Lemma process_touch w r e m m' :
  rtc (touch w r e) m m' → process m' = process m.
Proof.
  intros H. induction H as [|m0 m1 m2 H01 H12 IH]; [done|].
  rewrite IH. by destruct H01.
Qed.

(** Clearing the timers of the calls in [l]. *)
Lemma clear_all l : ∀ w k kw,
  wf w → kills w !! k = Some kw →
  kills (foldl clear_kill_timer w l) = kills w
  ∧ (k ∈ l → timers (foldl clear_kill_timer w l) !! S k = None)
  ∧ (k ∉ l → timers (foldl clear_kill_timer w l) !! S k = timers w !! S k).
Proof.
  induction l as [|k' l IH]; intros w k kw Hw Hk; simpl.
  { split; [done|]. split; [by intros ?%elem_of_nil|done]. }
  assert (kills (clear_kill_timer w k') = kills w) as Ek
    by apply clear_kill_timer_keeps.
  destruct (IH (clear_kill_timer w k') k kw) as (I1 & I2 & I3);
    [by apply wf_clear_kill_timer|by rewrite Ek|].
  split; [congruence|]. split.
  - intros [->|Hin]%elem_of_cons; [|auto].
    destruct (decide (k' ∈ l)) as [|Hnin]; [auto|].
    rewrite (I3 Hnin). unfold clear_kill_timer. rewrite Hk. simpl.
    destruct (wf_kills _ Hw _ _ Hk) as [_ ->]. apply lookup_delete_eq.
  - intros [Hne Hnin]%not_elem_of_cons. rewrite (I3 Hnin).
    unfold clear_kill_timer. destruct (kills w !! k') as [kw'|] eqn:E; [|done].
    simpl. destruct (wf_kills _ Hw _ _ E) as [_ ->].
    rewrite lookup_delete_ne; [done|congruence].
Qed.

Lemma killSession_keeps_kill sid w k :
  wf w → is_Some (kills w !! k) →
  kills (killSession sid w).1 !! k = kills w !! k
  ∧ timers (killSession sid w).1 !! S k = timers w !! S k.
Proof.
  intros Hw [kw Hk]. destruct (wf_kills _ Hw _ _ Hk) as [Hlt _].
  unfold killSession, fresh.
  destruct (Map_get sid (sessions w)); [|done].
  destruct (heap w !! n); [|done].
  destruct (process m) as [p|]; cbn [fst].
  - simpl. rewrite !lookup_insert_ne by lia. done.
  - by rewrite kills_kill_finish, (proj1 (proj2 (proj2 (kill_finish_keeps _ _ _)))).
Qed.

Section KillFacts.
Variable JSON_parse : string → option JSVal.

Lemma on_message_keeps s data w :
  kills (on_message JSON_parse s data w) = kills w
  ∧ procs (on_message JSON_parse s data w) = procs w.
Proof.
  unfold on_message. repeat case_match; try done.
  split.
  - apply (foldl_keeps kills). intros w' l. unfold on_line.
    destruct (JSON_parse l) as [msg|]; [|done].
    destruct (routeMessage _ _ msg w') as [w2|] eqn:E; [|done]. simpl.
    apply routeMessage_cases in E
      as [->|[[v ->]|[->|[->|[->|[f ->]]]]]]; try done.
    apply sendToCLI_keeps.
  - apply (foldl_keeps procs). intros w' l. unfold on_line.
    destruct (JSON_parse l) as [msg|]; [|done].
    destruct (routeMessage _ _ msg w') as [w2|] eqn:E; [|done]. simpl.
    apply routeMessage_cases in E
      as [->|[[v ->]|[->|[->|[->|[f ->]]]]]]; try done.
    apply sendToCLI_keeps.
Qed.

Lemma step_listeners w e : wf w → listeners_kept w (step JSON_parse w e).
Proof.
  intros Hw.
  destruct e as [url|s data|s|s|s msg|p code|p msg|t| |t|o a|sid0 t
                |sid0 content cliSid|sid0 uuid|sid0|o a]; cbn [step];
    try (by apply listeners_kept_eq).
  - apply listeners_kept_eq, handleConnection_keeps.
  - apply listeners_kept_eq, on_message_keeps.
  - apply listeners_kept_eq. unfold on_close. by repeat case_match.
  - unfold on_proc_exit. destruct (procs w !! p) as [c|] eqn:Hp;
      [|apply listeners_kept_refl].
    destruct (exitCode c); [apply listeners_kept_refl|].
    eapply listeners_kept_trans;
      [|apply listeners_kept_eq; rewrite (foldl_keeps procs);
        [rewrite (foldl_keeps procs); [done|]|];
        intros; (apply clear_kill_timer_keeps || apply resolve_kill_keeps)].
    intros p' c' k Hp' Hk. simpl. rewrite lookup_insert.
    destruct (decide (p = p')) as [<-|]; [|eauto].
    eexists. split; [done|]. simpl. congruence.
  - apply listeners_kept_eq. unfold on_proc_error. by case_match.
  - unfold fire_timer. destruct (timers w !! t) as [tm|];
      [|apply listeners_kept_refl].
    unfold run_timer. repeat case_match; try (by apply listeners_kept_eq).
    + eapply listeners_kept_trans;
        [|apply listeners_kept_eq, procs_resolve_kill].
      eapply listeners_kept_trans; [|apply listeners_kept_proc_kill].
      by apply listeners_kept_eq.
    + eapply listeners_kept_trans;
        [|apply listeners_kept_eq, procs_resolve_kill].
      by apply listeners_kept_eq.
    + eapply listeners_kept_trans;
        [|apply listeners_kept_eq, procs_resolve_kill].
      by apply listeners_kept_eq.
  - unfold reapIdleSessions.
    assert (∀ l w', wf w' → listeners_kept w' (foldl (reap_entry (now w)) w' l))
      as H.
    { induction l as [|x l IH]; intros w' Hw'; simpl;
        [apply listeners_kept_refl|].
      eapply listeners_kept_trans; [|apply IH; by apply wf_reap_entry].
      unfold reap_entry. repeat case_match;
        try apply listeners_kept_refl; try (by apply listeners_kept_eq).
      by apply listeners_kept_killSession. }
    by apply H.
  - intros p c k Hp Hk. unfold spawnSession, spawnCLI, fresh. simpl.
    rewrite lookup_insert_eq. simpl. rewrite lookup_insert_ne; [eauto|].
    assert (p < next_id w)%nat by (apply (wf_procs _ Hw); by rewrite Hp). lia.
  - apply listeners_kept_eq. unfold waitForReady, fresh. by repeat case_match.
  - apply listeners_kept_eq, sendUserMessage_keeps.
  - apply listeners_kept_eq, sendInterrupt_keeps.
  - by apply listeners_kept_killSession.
  - destruct (existing_session o w) as [[??]|] eqn:He.
    + unfold getOrCreate. rewrite He. apply listeners_kept_refl.
    + destruct (getOrCreate_creates o a w He)
        as (w1 & m & Hg & _ & _ & _ & _ & _ & _ & (c0 & Hprocs & _) & _).
      rewrite Hg. simpl. intros p c k Hp Hk. rewrite Hprocs.
      rewrite lookup_insert_ne; [eauto|].
      assert (p < next_id w)%nat by (apply (wf_procs _ Hw); by rewrite Hp). lia.
Qed.

(** One event and a suspended call: the promise and its timer stay as they
    are, or the call has resumed and the record is removed. *)
Lemma step_kill_timer w e k sid r d :
  wf w →
  kills w !! k = Some (mkKillWait sid r (S k) false) →
  timers w !! S k = Some (mkTimer d (KillTimeout k)) →
  (kills (step JSON_parse w e) !! k = Some (mkKillWait sid r (S k) false)
   ∧ timers (step JSON_parse w e) !! S k = Some (mkTimer d (KillTimeout k)))
  ∨ (kill_done (step JSON_parse w e) k sid r
     ∧ Map_get sid (sessions (step JSON_parse w e)) = None).
Proof.
  intros Hw Hk Ht.
  destruct (wf_kills _ Hw _ _ Hk) as [Hlt _].
  assert (∀ w', kills w' = kills w → timers w' = timers w →
    (kills w' !! k = Some (mkKillWait sid r (S k) false)
     ∧ timers w' !! S k = Some (mkTimer d (KillTimeout k)))
    ∨ (kill_done w' k sid r ∧ Map_get sid (sessions w') = None)) as Hsame.
  { intros w' -> ->. by left. }
  destruct e as [url|s data|s|s|s msg|p code|p msg|t| |t|o a|sid0 t
                |sid0 content cliSid|sid0 uuid|sid0|o a]; cbn [step];
    try (by apply Hsame).
  - apply Hsame; apply handleConnection_keeps.
  - apply Hsame; [apply on_message_keeps|apply timers_on_message].
  - apply Hsame; unfold on_close; by repeat case_match.
  - (* the process exits *)
    unfold on_proc_exit. destruct (procs w !! p) as [c|] eqn:Hp;
      [|by apply Hsame].
    destruct (exitCode c); [by apply Hsame|].
    set (w1 := emit _ _).
    assert (wf w1) as Hw1.
    { apply wf_emit. apply wf_update; [done|].
      apply wf_insert_proc; [done| |done].
      apply (wf_procs _ Hw). by rewrite Hp. }
    assert (kills w1 !! k = Some (mkKillWait sid r (S k) false)) as Hk1 by done.
    destruct (clear_all (exitListeners c) w1 k _ Hw1 Hk1) as (C1 & C2 & C3).
    set (w2 := foldl clear_kill_timer w1 (exitListeners c)) in *.
    assert (kills w2 !! k = Some (mkKillWait sid r (S k) false)) as Hk2
      by (by rewrite C1).
    destruct (resolve_all (exitListeners c) w2 k sid r) as [_ R].
    destruct (R Hk2) as [R1 R2].
    destruct (decide (k ∈ exitListeners c)) as [Hin|Hnin]; [right; auto|].
    left. destruct R1 as [?|R1]; [done|]. split; [done|].
    rewrite (foldl_keeps timers); [|intros; apply resolve_kill_keeps].
    by rewrite (C3 Hnin).
  - apply Hsame; unfold on_proc_error; by case_match.
  - (* a timer fires *)
    unfold fire_timer. destruct (timers w !! t) as [tm|] eqn:Htm;
      [|by apply Hsame].
    set (w1 := set_timers _ _).
    destruct (decide (t = S k)) as [->|Hne].
    + right. assert (tm = mkTimer d (KillTimeout k)) as -> by congruence.
      assert (kills w1 !! k = Some (mkKillWait sid r (S k) false))
        as Hk1 by done.
      cbn [action]. unfold run_timer. rewrite Hk1.
      match goal with |- context [resolve_kill k ?w0] =>
        assert (kills w0 !! k = Some (mkKillWait sid r (S k) false)) as Hk0
          by (by repeat case_match) end.
      by apply resolve_kill_pending in Hk0.
    + assert (timers w1 !! S k = Some (mkTimer d (KillTimeout k))) as Ht1
        by (subst w1; simpl; by rewrite lookup_delete_ne).
      assert (kills w1 !! k = Some (mkKillWait sid r (S k) false)) as Hk1
        by done.
      destruct (action tm) as [k'|k'] eqn:Ha; unfold run_timer.
      * destruct (wf_timer_kill _ Hw _ _ _ Htm Ha) as [-> _].
        assert (k' ≠ k) by congruence.
        left. destruct (kills w1 !! k') as [kw'|] eqn:E; [|done].
        rewrite kills_resolve_kill_ne, timers_resolve_kill by done.
        by repeat case_match.
      * left. by repeat case_match.
  - (* the reaper *)
    unfold reapIdleSessions.
    assert (∀ l w', wf w' →
      kills w' !! k = Some (mkKillWait sid r (S k) false) →
      timers w' !! S k = Some (mkTimer d (KillTimeout k)) →
      kills (foldl (reap_entry (now w)) w' l) !! k
      = Some (mkKillWait sid r (S k) false)
      ∧ timers (foldl (reap_entry (now w)) w' l) !! S k
        = Some (mkTimer d (KillTimeout k))) as H.
    { induction l as [|x l IH]; intros w' Hw' Hk' Ht'; simpl; [done|].
      apply IH; [by apply wf_reap_entry| |];
        unfold reap_entry; repeat case_match; try done.
      - by rewrite (proj1 (killSession_keeps_kill _ _ k Hw' (mk_is_Some _ _ Hk'))).
      - by rewrite (proj2 (killSession_keeps_kill _ _ k Hw' (mk_is_Some _ _ Hk'))). }
    left. by apply H.
  - apply Hsame; unfold spawnSession, spawnCLI, fresh; simpl;
      by rewrite lookup_insert_eq.
  - left. unfold waitForReady, fresh. repeat case_match; try done;
      simpl; (split; [done|]); rewrite lookup_insert_ne; (done || lia).
  - apply Hsame; apply sendUserMessage_keeps.
  - apply Hsame; apply sendInterrupt_keeps.
  - left.
    destruct (killSession_keeps_kill sid0 w k Hw (mk_is_Some _ _ Hk)) as [-> ->].
    done.
  - destruct (existing_session o w) as [[??]|] eqn:He.
    + apply Hsame; unfold getOrCreate; by rewrite He.
    + destruct (getOrCreate_creates o a w He)
        as (w1 & m & Hg & _ & _ & _ & _ & _ & _ & _ & _ & Hkills & _ & Htimers
            & _).
      rewrite Hg. simpl. left. rewrite Hkills, Htimers.
      split; [done|]. rewrite lookup_insert_ne; [done|lia].
Qed.
End KillFacts.

Lemma killSession_keeps_resolved sid w k kw :
  wf w → kills w !! k = Some kw →
  kills (killSession sid w).1 !! k = Some kw.
Proof.
  intros Hw Hk.
  by rewrite (proj1 (killSession_keeps_kill sid w k Hw (mk_is_Some _ _ Hk))).
Qed.

Section KillRuns.
Variable JSON_parse : string → option JSVal.

(** A call that has resumed stays resumed. *)
Lemma step_kill_done w e k sid r :
  wf w → kill_done w k sid r → kill_done (step JSON_parse w e) k sid r.
Proof.
  unfold kill_done. intros Hw Hk.
  destruct (wf_kills _ Hw _ _ Hk) as [Hlt _].
  assert (∀ k' w', kills w' !! k = Some (mkKillWait sid r (S k) true) →
    kills (resolve_kill k' w') !! k = Some (mkKillWait sid r (S k) true))
    as Hres.
  { intros k' w' H. destruct (decide (k' = k)) as [->|].
    - by rewrite (resolve_kill_resolved _ _ _ H).
    - by rewrite kills_resolve_kill_ne. }
  destruct e as [url|s data|s|s|s msg|p code|p msg|t| |t|o a|sid0 t
                |sid0 content cliSid|sid0 uuid|sid0|o a]; cbn [step];
    try done.
  - by rewrite (proj1 (proj2 (handleConnection_keeps _ _))).
  - by rewrite (proj1 (on_message_keeps _ _ _ _)).
  - unfold on_close. by repeat case_match.
  - unfold on_proc_exit. repeat case_match; try done.
    apply (foldl_wf_keeps
             (λ w', kills w' !! k = Some (mkKillWait sid r (S k) true))
             (λ w k, resolve_kill k w)); [auto with wf|auto| |].
    + apply wf_foldl; [auto with wf|].
      apply wf_emit. apply wf_update; [done|].
      apply wf_insert_proc; [done| |done].
      apply (wf_procs _ Hw). by eexists.
    + rewrite (foldl_keeps kills); [done|].
      intros. apply clear_kill_timer_keeps.
  - unfold on_proc_error. by case_match.
  - unfold fire_timer. case_match; [|done]. unfold run_timer.
    repeat case_match; try done; by apply Hres.
  - unfold reapIdleSessions.
    apply (foldl_wf_keeps
             (λ w', kills w' !! k = Some (mkKillWait sid r (S k) true)));
      [intros; by apply wf_reap_entry| |done|done].
    intros w' x Hw' H. unfold reap_entry. repeat case_match; try done.
    by apply killSession_keeps_resolved.
  - unfold spawnSession, spawnCLI, fresh. simpl. by rewrite lookup_insert_eq.
  - unfold waitForReady, fresh. by repeat case_match.
  - by rewrite (proj1 (proj2 (sendUserMessage_keeps _ _ _ _))).
  - by rewrite (proj1 (proj2 (sendInterrupt_keeps _ _ _))).
  - by apply killSession_keeps_resolved.
  - destruct (existing_session o w) as [[??]|] eqn:He.
    + unfold getOrCreate. by rewrite He.
    + destruct (getOrCreate_creates o a w He)
        as (w1 & m & Hg & _ & _ & _ & _ & _ & _ & _ & _ & Hkills & _).
      rewrite Hg. simpl. by rewrite Hkills.
Qed.

Lemma step_kill_pending w e k sid r p d :
  wf w → kill_pending w k sid r p d →
  kill_pending (step JSON_parse w e) k sid r p d
  ∨ (kill_done (step JSON_parse w e) k sid r
     ∧ Map_get sid (sessions (step JSON_parse w e)) = None).
Proof.
  intros Hw (Hk & Ht & (m & Hm & Hp) & (c & Hc & Hl)).
  destruct (step_kill_timer JSON_parse w e k sid r d Hw Hk Ht)
    as [[Hk' Ht']|?]; [|by right].
  left. split; [done|]. split; [done|]. split.
  - destruct (step_footprint JSON_parse w e Hw r m Hm) as (m' & Hm' & Hrtc).
    exists m'. split; [done|]. by rewrite (process_touch _ _ _ _ _ Hrtc).
  - by apply (step_listeners JSON_parse w e Hw p c k).
Qed.

(** A suspended call along a run: suspended with its timer armed, or
    resumed after an event that left the record removed. *)
Lemma kill_run es : ∀ w k sid r p d,
  wf w → kill_pending w k sid r p d →
  kill_pending (run JSON_parse w es) k sid r p d
  ∨ (kill_done (run JSON_parse w es) k sid r
     ∧ ∃ es1 e es2, es = es1 ++ e :: es2
         ∧ Map_get sid (sessions (run JSON_parse w (es1 ++ [e]))) = None).
Proof.
  induction es as [|e es IH]; intros w k sid r p d Hw Hp; simpl; [by left|].
  pose proof (wf_step JSON_parse w e Hw) as Hw1.
  destruct (step_kill_pending w e k sid r p d Hw Hp) as [Hp1|[Hd Hn]].
  - destruct (IH _ k sid r p d Hw1 Hp1)
      as [?|(Hd & es1 & e' & es2 & -> & Hn)]; [by left|].
    right. split; [done|]. by exists (e :: es1), e', es2.
  - right. split.
    + clear IH. revert Hw1 Hd. generalize (step JSON_parse w e).
      induction es as [|e' es IH]; intros w1 Hw1 Hd; simpl; [done|].
      apply IH; [by apply wf_step|by apply step_kill_done].
    + by exists [], e, es.
Qed.

(** C6.  [killSession] on an unknown id does nothing.  On a registered
    session without a process it removes the record at once.  On a
    registered session with a process it sends SIGTERM to the process if it
    runs, arms a timer of 5000 ms and waits for the process to exit.
    Whatever happens next, the call has either resumed after an event that
    left the record removed from the registry, or it is still suspended with
    that timer armed.  While it is suspended, the exit of the process
    resumes it without any further signal, and so does the timer at the
    latest, which sends SIGKILL to the process if it still runs: in both
    cases the record is removed.  The state of the session plays no part. *)
Theorem killSession_completes (w : World) (sid : string) :
  wf w →
  (Map_get sid (sessions w) = None → killSession sid w = (w, None))
  ∧ (∀ r m, Map_get sid (sessions w) = Some r → heap w !! r = Some m →
       process m = None →
       (killSession sid w).2 = None
       ∧ Map_get sid (sessions (killSession sid w).1) = None)
  ∧ ∀ r m p, Map_get sid (sessions w) = Some r → heap w !! r = Some m →
      process m = Some p →
      let k := next_id w in
      let w1 := (killSession sid w).1 in
      (killSession sid w).2 = Some k
      ∧ (∃ c c1, procs w !! p = Some c ∧ procs w1 !! p = Some c1
           ∧ exitCode c1 = exitCode c
           ∧ signals c1 = match exitCode c with
                          | None => signals c ++ [SIGTERM]
                          | Some _ => signals c
                          end)
      ∧ kill_pending w1 k sid r p (now w + 5000)
      ∧ ∀ es, let w2 := run JSON_parse w1 es in
          (kill_done w2 k sid r
           ∧ ∃ es1 e es2, es = es1 ++ e :: es2
               ∧ Map_get sid (sessions (run JSON_parse w1 (es1 ++ [e])))
                 = None)
          ∨ (kill_pending w2 k sid r p (now w + 5000)
             ∧ (let w3 := step JSON_parse w2 (TimerFires (S k)) in
                kill_done w3 k sid r
                ∧ Map_get sid (sessions w3) = None
                ∧ now w + 5000 ≤ now w3
                ∧ ∃ c c3, procs w2 !! p = Some c ∧ procs w3 !! p = Some c3
                    ∧ signals c3 = match exitCode c with
                                   | None => signals c ++ [SIGKILL]
                                   | Some _ => signals c
                                   end)
             ∧ (∀ c code, procs w2 !! p = Some c → exitCode c = None →
                let w3 := step JSON_parse w2 (ProcExit p code) in
                kill_done w3 k sid r
                ∧ Map_get sid (sessions w3) = None
                ∧ timers w3 !! S k = None
                ∧ ∃ c3, procs w3 !! p = Some c3
                    ∧ exitCode c3 = Some code ∧ signals c3 = signals c)).
Proof.
  intros Hw. split.
  { intros Hn. unfold killSession. by rewrite Hn. }
  split.
  { intros r m Hg Hm Hp. unfold killSession. rewrite Hg, Hm, Hp.
    split; [done|]. cbn [fst]. rewrite sessions_kill_finish.
    apply Map_get_delete_eq. }
  intros r m p Hg Hm Hp k w1.
  destruct (wf_spawned _ Hw _ _ _ Hm Hp) as [c Hc].
  assert (killSession sid w
    = (set_kills (<[k := mkKillWait sid r (S k) false]> (kills w))
         (set_procs
            (alter (λ c, mkChildProcess (spawnfile c) (spawnargs c)
                           (spawn_cwd c) (spawn_env c) (owner c)
                           (exitCode c) (signals c) (exitListeners c ++ [k]))
               p (procs (proc_kill p SIGTERM w)))
            (set_timers
               (<[S k := mkTimer (now w + 5000) (KillTimeout k)]> (timers w))
               (set_next_id (S (S k)) (proc_kill p SIGTERM w)))),
       Some k)) as E.
  { unfold killSession, fresh. by rewrite Hg, Hm, Hp. }
  assert (wf w1) as Hw1 by (by apply wf_killSession).
  subst w1. rewrite E. cbn [fst snd]. rewrite E in Hw1. cbn [fst] in Hw1.
  set (w1 := set_kills _ _) in *.
  assert (kill_pending w1 k sid r p (now w + 5000)) as Hpend.
  { subst w1. split; [simpl; by rewrite lookup_insert_eq|].
    split; [simpl; by rewrite lookup_insert_eq|].
    split; [by exists m|]. simpl. rewrite !lookup_alter_eq, Hc.
    simpl. eexists. split; [done|].
    destruct (exitCode c); simpl; apply elem_of_app; right; left. }
  split; [done|]. split.
  { exists c. subst w1. simpl. rewrite !lookup_alter_eq, Hc. simpl.
    eexists. split; [done|]. split; [done|]. simpl.
    destruct (exitCode c) eqn:Ex; simpl; rewrite ?Ex; done. }
  split; [done|]. intros es. set (w2 := run JSON_parse w1 es).
  destruct (kill_run es w1 k sid r p (now w + 5000) Hw1 Hpend)
    as [Hp2|?]; [right|by left].
  fold w2 in Hp2. pose proof (wf_run JSON_parse es w1 Hw1) as Hw2.
  fold w2 in Hw2. split; [done|].
  destruct Hp2 as (Hk2 & Ht2 & (m2 & Hm2 & Hpm2) & (c2 & Hc2 & Hl2)). split.
  - (* the timer fires *)
    cbn [step]. unfold fire_timer. rewrite Ht2. cbn [deadline action].
    set (w3 := set_timers _ _).
    unfold run_timer.
    assert (kills w3 !! k = Some (mkKillWait sid r (S k) false)) as Hk3 by done.
    rewrite Hk3. cbn [k_managed].
    assert (heap w3 !! r = Some m2) as Hm3 by done. rewrite Hm3, Hpm2.
    assert (kills (proc_kill p SIGKILL w3) !! k
            = Some (mkKillWait sid r (S k) false)) as Hk4 by done.
    destruct (resolve_kill_pending _ _ _ _ _ Hk4) as [Hd Hn].
    split; [done|]. split; [done|]. split.
    { rewrite (proj2 (proj2 (proj2 (proj2 (resolve_kill_keeps _ _))))).
      simpl. lia. }
    exists c2. rewrite procs_resolve_kill. simpl. rewrite lookup_alter_eq, Hc2.
    simpl. eexists. split; [done|]. split; [done|].
    destruct (exitCode c2) eqn:Ex; simpl; rewrite ?Ex; done.
  - (* the process exits *)
    intros c' code Hc' Hrun. assert (c' = c2) as -> by congruence.
    cbn [step]. unfold on_proc_exit. rewrite Hc2, Hrun.
    set (w3 := emit _ _).
    assert (wf w3) as Hw3.
    { apply wf_emit. apply wf_update; [done|].
      apply wf_insert_proc; [done| |done].
      apply (wf_procs _ Hw2). by rewrite Hc2. }
    assert (kills w3 !! k = Some (mkKillWait sid r (S k) false)) as Hk3 by done.
    destruct (clear_all (exitListeners c2) w3 k _ Hw3 Hk3) as (C1 & C2 & _).
    set (w4 := foldl clear_kill_timer w3 (exitListeners c2)) in *.
    assert (kills w4 !! k = Some (mkKillWait sid r (S k) false)) as Hk4
      by (by rewrite C1).
    destruct (resolve_all (exitListeners c2) w4 k sid r) as [_ R].
    destruct (R Hk4) as [_ R2]. destruct (R2 Hl2) as [Hd Hn].
    split; [done|]. split; [done|]. split.
    { rewrite (foldl_keeps timers); [|intros; apply resolve_kill_keeps].
      by apply C2. }
    rewrite (foldl_keeps procs); [|intros; apply resolve_kill_keeps].
    subst w4. rewrite (foldl_keeps procs);
      [|intros; apply clear_kill_timer_keeps].
    subst w3. simpl. rewrite lookup_insert_eq. eexists. by split.
Qed.
End KillRuns.

(** ** The idle reaper *)

(** The suspended half of [killSession]. *)
Lemma killSession_suspends sid w r m p :
  Map_get sid (sessions w) = Some r → heap w !! r = Some m →
  process m = Some p →
  killSession sid w
  = (set_kills (<[next_id w := mkKillWait sid r (S (next_id w)) false]>
                  (kills w))
       (set_procs
          (alter (λ c, mkChildProcess (spawnfile c) (spawnargs c)
                         (spawn_cwd c) (spawn_env c) (owner c)
                         (exitCode c) (signals c)
                         (exitListeners c ++ [next_id w]))
             p (procs (proc_kill p SIGTERM w)))
          (set_timers
             (<[S (next_id w) := mkTimer (now w + 5000)
                                   (KillTimeout (next_id w))]> (timers w))
             (set_next_id (S (S (next_id w))) (proc_kill p SIGTERM w)))),
     Some (next_id w)).
Proof. intros Hg Hm Hp. unfold killSession, fresh. by rewrite Hg, Hm, Hp. Qed.

(** The two readings of one step of the pass agree: killing a session that
    was just removed does nothing. *)
Lemma reap_entry_as_specified t w e : reap_entry_spec t w e = reap_entry t w e.
Proof.
  unfold reap_entry_spec, reap_entry. destruct (heap w !! e.2) as [m|]; [|done].
  destruct (decide (state (info m) = exited)); [|done]. simpl.
  destruct (decide (t - lastUsedAt (info m) > sessionTimeout w)); [|done].
  unfold killSession. simpl. by rewrite Map_get_delete_eq.
Qed.

Lemma reap_as_specified w : reap_spec w = reapIdleSessions w.
Proof.
  unfold reap_spec, reapIdleSessions.
  assert (∀ t l v, foldl (reap_entry_spec t) v l = foldl (reap_entry t) v l)
    as H; [|apply H].
  intros t l. induction l as [|e l IH]; intros v; simpl; [done|].
  by rewrite reap_entry_as_specified, IH.
Qed.

Lemma undisturbed_refl sid p w : wf w → undisturbed sid p w w.
Proof. intros Hw. split; try done. apply shrinks_refl. Qed.

Lemma undisturbed_trans sid p w1 w2 w3 :
  undisturbed sid p w1 w2 → undisturbed sid p w2 w3 →
  undisturbed sid p w1 w3.
Proof.
  intros [] []. split; try congruence.
  - by eapply shrinks_trans.
  - eauto.
  - intros k Hk. destruct (und_kills0 k Hk) as [E1 E2].
    destruct (und_kills1 k) as [E3 E4]; [by rewrite E1|]. split; congruence.
Qed.

(** Killing another session leaves [sid] and [p] alone. *)
Lemma killSession_other sid' w sid p :
  wf w → sid' ≠ sid →
  (∀ r' m', Map_get sid' (sessions w) = Some r' → heap w !! r' = Some m' →
     process m' ≠ Some p) →
  undisturbed sid p w (killSession sid' w).1.
Proof.
  intros Hw Hne Hproc.
  destruct (Map_get sid' (sessions w)) as [r'|] eqn:Hg.
  2:{ unfold killSession. rewrite Hg. by apply undisturbed_refl. }
  destruct (heap w !! r') as [m'|] eqn:Hm.
  2:{ unfold killSession. rewrite Hg, Hm. by apply undisturbed_refl. }
  pose proof (wf_killSession w sid' Hw) as Hw'.
  destruct (process m') as [p'|] eqn:Hp'.
  - assert (p' ≠ p) as Hpp by (intros ->; by eapply Hproc).
    rewrite (killSession_suspends _ _ _ _ _ Hg Hm Hp') in *. cbn [fst] in *.
    split; try done.
    + by apply shrinks_eq.
    + simpl. rewrite !lookup_alter_ne by done. done.
    + intros k kw. simpl. rewrite lookup_insert.
      destruct (decide (next_id w = k)) as [<-|]; [|done].
      intros [= <-]. simpl. congruence.
    + intros k [kw Hk]. destruct (wf_kills _ Hw _ _ Hk) as [Hlt _]. simpl.
      rewrite !lookup_insert_ne by lia. done.
  - unfold killSession in *. rewrite Hg, Hm, Hp' in *. cbn [fst] in *.
    destruct (kill_finish_keeps sid' r' w) as (_ & Ek & Et & Ep & _ & En).
    split; try done.
    + apply heap_kill_finish.
    + unfold kill_finish. by repeat case_match.
    + apply shrinks_kill_finish.
    + rewrite sessions_kill_finish. by rewrite Map_get_delete_ne.
    + by rewrite Ep.
    + intros k kw. by rewrite Ek.
    + intros k _. by rewrite Ek, Et.
Qed.

(** One step of the pass on another session leaves [sid] and [p] alone. *)
Lemma reap_entry_other t w e sid p :
  wf w → e.1 ≠ sid →
  (∀ r' m', Map_get e.1 (sessions w) = Some r' → heap w !! r' = Some m' →
     process m' ≠ Some p) →
  undisturbed sid p w (reap_entry t w e).
Proof.
  intros Hw Hne Hproc. unfold reap_entry.
  destruct (heap w !! e.2) as [m|]; [|by apply undisturbed_refl].
  destruct (decide (state (info m) = exited)).
  - split; try done.
    + by apply wf_set_sessions_delete.
    + intros s r. apply Map_get_delete_Some.
    + simpl. by rewrite Map_get_delete_ne.
  - destruct (decide (t - lastUsedAt (info m) > sessionTimeout w));
      [|by apply undisturbed_refl].
    by apply killSession_other.
Qed.

Lemma refs_inj {K V} (l : list (K * V)) a b r :
  NoDup l.*2 → (a, r) ∈ l → (b, r) ∈ l → a = b.
Proof.
  induction l as [|[k v] l IH]; simpl; intros Hnd Ha Hb.
  - by apply elem_of_nil in Ha.
  - apply NoDup_cons in Hnd as [Hnin Hnd].
    apply elem_of_cons in Ha as [Ha|Ha];
      apply elem_of_cons in Hb as [Hb|Hb]; simplify_eq; try done.
    + destruct Hnin. apply list_elem_of_fmap. by exists (b, v).
    + destruct Hnin. apply list_elem_of_fmap. by exists (a, v).
    + by apply IH.
Qed.

Lemma keys_split {V} (l : list (string * V)) sid r :
  NoDup l.*1 → (sid, r) ∈ l →
  ∃ l1 l2, l = l1 ++ (sid, r) :: l2
    ∧ (∀ e, e ∈ l1 → e.1 ≠ sid) ∧ (∀ e, e ∈ l2 → e.1 ≠ sid).
Proof.
  intros Hnd Hin. apply list_elem_of_split in Hin as (l1 & l2 & ->).
  exists l1, l2. split; [done|].
  rewrite fmap_app, fmap_cons in Hnd. apply NoDup_app in Hnd as (_ & H1 & H2).
  apply NoDup_cons in H2 as [H2 _]. simpl in *. split.
  - intros e He <-. eapply H1; [|left]. apply list_elem_of_fmap. by exists e.
  - intros e He <-. apply H2. apply list_elem_of_fmap. by exists e.
Qed.

(** The pass over other sessions leaves [sid] and its process alone. *)
Lemma reap_fold_others t l w0 sid r :
  wf w0 → Map_get sid (sessions w0) = Some r →
  (∀ e, e ∈ l → e.1 ≠ sid) →
  ∀ w, wf w → shrinks w0 w → heap w = heap w0 →
  undisturbed sid (S r) w (foldl (reap_entry t) w l).
Proof.
  intros Hw0 Hg. induction l as [|e l IH]; intros Hl w Hw Hsh Hh; simpl.
  - by apply undisturbed_refl.
  - assert (undisturbed sid (S r) w (reap_entry t w e)) as Hu.
    { apply reap_entry_other; [done|apply Hl; left|].
      intros r' m' Hg' Hm' Hp'. rewrite Hh in Hm'.
      pose proof (wf_process _ Hw0 _ _ _ Hm' Hp') as E. injection E as ->.
      apply Hsh in Hg'. apply (Hl e); [left|].
      eapply (refs_inj (sessions w0)); [by apply wf_refs| |];
        by apply Map_get_elem_of. }
    eapply undisturbed_trans; [exact Hu|].
    apply IH.
    + intros e' He'. apply Hl. by right.
    + by destruct Hu.
    + eapply shrinks_trans; [exact Hsh|]. by destruct Hu.
    + destruct Hu. congruence.
Qed.

Lemma shrinks_reap_entry t w e : shrinks w (reap_entry t w e).
Proof.
  unfold reap_entry. repeat case_match; try apply shrinks_refl.
  - intros s r'. apply Map_get_delete_Some.
  - apply shrinks_killSession.
Qed.

(** C8. One pass of the reaper, [reapIdleSessions], is the pass the
    specification words (remove what has exited, call [killSession] on what
    has been idle for longer than the threshold), and for every registered
    session: if its state is exited it is no longer registered after the
    pass; if it is not exited and its last activity is older than the
    threshold, [killSession] ran for it, so that a session without a process
    is removed at once and a session with a process has received SIGTERM (if
    the process was running) and has a kill suspended on it with the grace
    timer of five seconds armed; and if its last activity is within the
    threshold, its process record is untouched (no signal), no call of
    [killSession] was started for it, and it stays registered unless it has
    exited. *)
Theorem reaper_removes_exited_and_kills_idle (w : World) sid r m :
  wf w → Map_get sid (sessions w) = Some r → heap w !! r = Some m →
  reap_spec w = reapIdleSessions w
  ∧ (state (info m) = exited →
       Map_get sid (sessions (reapIdleSessions w)) = None)
  ∧ (state (info m) ≠ exited →
     now w - lastUsedAt (info m) > sessionTimeout w →
       match process m with
       | None => Map_get sid (sessions (reapIdleSessions w)) = None
       | Some p =>
           ∃ k c c', kills w !! k = None
             ∧ kill_pending (reapIdleSessions w) k sid r p (now w + 5000)
             ∧ procs w !! p = Some c
             ∧ procs (reapIdleSessions w) !! p = Some c'
             ∧ signals c' = match exitCode c with
                            | None => signals c ++ [SIGTERM]
                            | Some _ => signals c
                            end
       end)
  ∧ (now w - lastUsedAt (info m) ≤ sessionTimeout w →
       (state (info m) ≠ exited →
          Map_get sid (sessions (reapIdleSessions w)) = Some r)
       ∧ (∀ p, process m = Some p →
            procs (reapIdleSessions w) !! p = procs w !! p)
       ∧ ∀ k kw, kills (reapIdleSessions w) !! k = Some kw →
           k_sessionId kw = sid → kills w !! k = Some kw).
Proof.
  intros Hw Hg Hm. split; [apply reap_as_specified|].
  destruct (keys_split (sessions w) sid r) as (l1 & l2 & El & Hl1 & Hl2);
    [by apply wf_keys|by apply Map_get_elem_of|].
  unfold reapIdleSessions. rewrite El, foldl_app. cbn [foldl].
  pose proof (reap_fold_others (now w) l1 w sid r Hw Hg Hl1 w Hw
                (shrinks_refl w) eq_refl) as Ha.
  set (wa := foldl (reap_entry (now w)) w l1) in *.
  assert (wf (reap_entry (now w) wa (sid, r))) as Hwb
    by (apply wf_reap_entry; by destruct Ha).
  assert (shrinks w (reap_entry (now w) wa (sid, r))) as Hsb.
  { eapply shrinks_trans; [by destruct Ha|apply shrinks_reap_entry]. }
  assert (heap (reap_entry (now w) wa (sid, r)) = heap w) as Hhb.
  { rewrite heap_reap_entry. by destruct Ha. }
  pose proof (reap_fold_others (now w) l2 w sid r Hw Hg Hl2 _ Hwb Hsb Hhb)
    as Hc.
  set (wb := reap_entry (now w) wa (sid, r)) in *.
  set (w' := foldl (reap_entry (now w)) wb l2) in *.
  assert (heap wa !! r = Some m) as Hma by (destruct Ha; congruence).
  assert (Map_get sid (sessions wa) = Some r) as Hga
    by (destruct Ha; congruence).
  assert (sessionTimeout wa = sessionTimeout w) as Hta by by destruct Ha.
  assert (now wa = now w) as Hna by by destruct Ha.
  split; [|split].
  - (* exited *)
    intros Hex. rewrite (und_session _ _ _ _ Hc).
    unfold wb, reap_entry. cbn [fst snd]. rewrite Hma.
    rewrite decide_True by done. simpl. apply Map_get_delete_eq.
  - (* idle *)
    intros Hex Hidle.
    assert (wb = (killSession sid wa).1) as Eb.
    { unfold wb, reap_entry. cbn [fst snd]. rewrite Hma.
      rewrite decide_False by done. rewrite Hta. by rewrite decide_True. }
    destruct (process m) as [p|] eqn:Hp.
    + pose proof (wf_process _ Hw _ _ _ Hm Hp) as ->.
      rewrite (killSession_suspends _ _ _ _ _ Hga Hma Hp) in Eb.
      cbn [fst] in Eb.
      destruct (wf_spawned _ Hw _ _ _ Hm Hp) as [c Hc0].
      assert (procs wa !! S r = Some c) as Hca
        by (destruct Ha; congruence).
      exists (next_id wa), c. eexists. split; [|split; [|split; [|split]]].
      * destruct (kills w !! next_id wa) as [kw|] eqn:Hk; [|done].
        destruct (und_kills _ _ _ _ Ha (next_id wa)) as [E _]; [by eexists|].
        rewrite Hk in E.
        destruct (wf_kills _ (und_wf _ _ _ _ Ha) _ _ E). lia.
      * assert (is_Some (kills wb !! next_id wa)) as Hsome.
        { rewrite Eb. simpl. rewrite lookup_insert_eq. by eexists. }
        destruct (und_kills _ _ _ _ Hc _ Hsome) as [E1 E2].
        unfold kill_pending. rewrite E1, E2, (und_proc _ _ _ _ Hc).
        rewrite (und_heap _ _ _ _ Hc), Hhb. rewrite Eb. simpl.
        rewrite lookup_insert_eq.
        rewrite lookup_insert_eq. rewrite Hna.
        split; [done|]. split; [done|]. split; [by exists m|].
        rewrite lookup_alter_eq. unfold proc_kill. simpl.
        rewrite lookup_alter_eq, Hca. simpl. eexists. split; [done|].
        simpl. apply elem_of_app. right. left.
      * done.
      * rewrite (und_proc _ _ _ _ Hc), Eb. simpl.
        rewrite lookup_alter_eq. unfold proc_kill. simpl.
        rewrite lookup_alter_eq, Hca. simpl. done.
      * simpl. by destruct (exitCode c).
    + rewrite (und_session _ _ _ _ Hc), Eb.
      unfold killSession. rewrite Hga, Hma, Hp. cbn [fst].
      rewrite sessions_kill_finish. apply Map_get_delete_eq.
  - (* active *)
    intros Hact. destruct (decide (state (info m) = exited)) as [Hex|Hex].
    + assert (wb = set_sessions (Map_delete sid (sessions wa)) wa) as Eb.
      { unfold wb, reap_entry. cbn [fst snd]. rewrite Hma.
        by rewrite decide_True. }
      split; [done|]. split.
      * intros p Hp. rewrite (wf_process _ Hw _ _ _ Hm Hp).
        rewrite (und_proc _ _ _ _ Hc), Eb. apply (und_proc _ _ _ _ Ha).
      * intros k kw Hk Hs. apply (und_no_kill _ _ _ _ Ha); [|done].
        apply (und_no_kill _ _ _ _ Hc) in Hk; [|done]. by rewrite Eb in Hk.
    + assert (wb = wa) as Eb.
      { unfold wb, reap_entry. cbn [fst snd]. rewrite Hma.
        rewrite decide_False by done. rewrite Hta.
        by rewrite decide_False by lia. }
      rewrite Eb in Hc.
      pose proof (undisturbed_trans _ _ _ _ _ Ha Hc) as Hu.
      split; [|split].
      * intros _. by rewrite (und_session _ _ _ _ Hu).
      * intros p Hp. rewrite (wf_process _ Hw _ _ _ Hm Hp).
        apply (und_proc _ _ _ _ Hu).
      * apply (und_no_kill _ _ _ _ Hu).
Qed.

(** ** The non-streaming assembler *)

Lemma deliver_ignores uuid a n :
  concerns (ns_sessionId a) n = false → deliver uuid a n = a.
Proof.
  unfold deliver. destruct (listening a); [|done]. simpl.
  destruct n; simpl; try done; intros H%bool_decide_eq_false;
    by rewrite decide_False.
Qed.

Lemma assemble_ignores uuid a ns :
  Forall (λ n, concerns (ns_sessionId a) n = false) ns →
  assemble uuid a ns = a.
Proof.
  unfold assemble. induction 1 as [|n ns Hn _ IH]; simpl; [done|].
  by rewrite deliver_ignores.
Qed.

(** Once the listeners are removed nothing is delivered. *)
Lemma assemble_deaf uuid a ns : listening a = false → assemble uuid a ns = a.
Proof.
  unfold assemble. intros Ha. induction ns as [|n ns IH]; simpl; [done|].
  unfold deliver at 2. by rewrite Ha.
Qed.

Lemma assemble_app uuid a ns1 ns2 :
  assemble uuid a (ns1 ++ ns2) = assemble uuid (assemble uuid a ns1) ns2.
Proof. apply foldl_app. Qed.

Lemma assemble_cons uuid a n ns :
  assemble uuid a (n :: ns) = assemble uuid (deliver uuid a n) ns.
Proof. done. Qed.

(** A value with a property that is not nullish is an object. *)
Lemma prop_object v k x y j :
  prop v k = Some x → prop x j = Some y → truthy v = true.
Proof. destruct v; simpl; try done; by intros [= <-]. Qed.

(** C7. The call of [handleNonStreaming] for [sid] that is delivered one
    assistant notification for [sid] and then the result notification for
    [sid], whatever is emitted for other sessions (or ignored by the call)
    before and in between, stays unresolved until the result arrives and
    then resolves, once, to the response 200 built by
    [buildAnthropicResponse] from the two: its role is assistant, its
    content is the content of the assistant message, its stop reason is the
    mapped stop reason of the result (of the assistant message if the result
    has none), and its usage fields are those of the result; what is emitted
    afterwards changes nothing. *)
Theorem nonstreaming_combines_assistant_and_result
    (uuid sid : string) (content : JSVal) (w : World)
    (a r msg c u i o : JSVal) (pre mid post : list Notification) :
  Forall (λ n, concerns sid n = false) pre →
  Forall (λ n, concerns sid n = false) mid →
  prop a "message" = Some msg → prop msg "content" = Some c →
  prop r "usage" = Some u →
  prop u "input_tokens" = Some i → prop u "output_tokens" = Some o →
  let call := (handleNonStreaming sid content w).1 in
  response (assemble uuid call (pre ++ N_assistant sid a :: mid)) = None
  ∧ ∃ resp usage rs ms,
      assemble uuid call
        (pre ++ N_assistant sid a :: mid ++ N_result sid r :: post)
      = mkNonStreaming sid (Some a) false
          (Some (mkHttpResponse 200 resp [("x-session-id", sid)]))
      ∧ buildAnthropicResponse a r uuid = Some resp
      ∧ prop resp "role" = Some (JStr "assistant")
      ∧ prop resp "content" = Some c
      ∧ prop r "stop_reason" = Some rs
      ∧ prop msg "stop_reason" = Some ms
      ∧ prop resp "stop_reason" = Some (mapStopReason (js_or rs ms))
      ∧ prop resp "usage" = Some usage
      ∧ prop usage "input_tokens" = Some i
      ∧ prop usage "output_tokens" = Some o
      ∧ prop usage "cache_creation_input_tokens"
        = prop u "cache_creation_input_tokens"
      ∧ prop usage "cache_read_input_tokens"
        = prop u "cache_read_input_tokens".
Proof.
  intros Hpre Hmid Hmsg Hc Hu Hi Ho call.
  assert (truthy a = true) as Ha by by eapply prop_object.
  assert (assemble uuid call (pre ++ N_assistant sid a :: mid)
          = mkNonStreaming sid (Some a) true None) as E.
  { rewrite assemble_app. rewrite (assemble_ignores uuid call pre Hpre).
    rewrite assemble_cons. unfold deliver, call. simpl.
    rewrite decide_True by done. by rewrite assemble_ignores. }
  split; [by rewrite E|].
  assert (∃ x, prop msg "id" = Some x) as [id Hid]
    by (destruct msg; simpl in *; try done; by eexists).
  assert (∃ x, prop msg "model" = Some x) as [model Hmodel]
    by (destruct msg; simpl in *; try done; by eexists).
  assert (∃ x, prop msg "stop_reason" = Some x) as [ms Hms]
    by (destruct msg; simpl in *; try done; by eexists).
  assert (∃ x, prop r "stop_reason" = Some x) as [rs Hrs]
    by (destruct r; simpl in *; try done; by eexists).
  assert (∃ x, prop u "cache_creation_input_tokens" = Some x) as [cc Hcc]
    by (destruct u; simpl in *; try done; by eexists).
  assert (∃ x, prop u "cache_read_input_tokens" = Some x) as [cr Hcr]
    by (destruct u; simpl in *; try done; by eexists).
  eexists _, _, rs, ms.
  assert (∀ l, pre ++ N_assistant sid a :: mid ++ l
               = (pre ++ N_assistant sid a :: mid) ++ l) as ->
    by (intros l; by rewrite <- app_assoc).
  rewrite assemble_app, E, assemble_cons.
  unfold deliver. simpl. rewrite decide_True by done. rewrite Ha. simpl.
  unfold buildAnthropicResponse.
  rewrite Hmsg. simpl. rewrite Hid. simpl. rewrite Hc. simpl.
  rewrite Hmodel. simpl. rewrite Hrs. simpl. rewrite Hms. simpl.
  rewrite Hu. simpl. rewrite Hi. simpl. rewrite Ho. simpl.
  rewrite Hcc. simpl. rewrite Hcr. simpl.
  rewrite assemble_deaf by done.
  unfold cleanup_resolve. simpl.
  repeat split; try done.
Qed.

(** ** The theorems on sample inputs *)

(** The sample worlds are well formed. *)
Lemma wf_w_abc : wf w_abc.
Proof. apply wf_spawnSession, wf_new_bridge. Qed.

(** Two frames sent to [abc] before its process connects reach the new
    socket in order. *)
Lemma outbound_queue_fifo_witness :
  heap w_abc !! 0%nat = Some m_abc
  ∧ writable w_abc m_abc = false
  ∧ match_path "/ws/cli/abc" = Some "abc"
  ∧ Map_get "abc" (sessions w_abc) = Some 0%nat
  ∧ transmitted
      (handleConnection (Some "/ws/cli/abc")
         (foldl (λ w f, sendToCLI 0 f w) w_abc ["first"; "second"])) 2
    = ["first" +:+ nl; "second" +:+ nl]
  ∧ queued
      (handleConnection (Some "/ws/cli/abc")
         (foldl (λ w f, sendToCLI 0 f w) w_abc ["first"; "second"])) 0 = [].
Proof.
  assert (heap w_abc !! 0%nat = Some m_abc) as H1 by (vm_compute; reflexivity).
  assert (writable w_abc m_abc = false) as H2 by (vm_compute; reflexivity).
  assert (match_path "/ws/cli/abc" = Some "abc") as H3
    by (vm_compute; reflexivity).
  assert (Map_get "abc" (sessions w_abc) = Some 0%nat) as H4
    by (vm_compute; reflexivity).
  destruct (outbound_queue_fifo w_abc 0 m_abc ["first"; "second"]
              "/ws/cli/abc" "abc" H1 H2 H3 H4) as (_ & _ & Hs & _ & Hh).
  repeat (split; [assumption|]).
  unfold transmitted, queued. change (next_id w_abc) with 2%nat in Hs.
  rewrite Hs, Hh. split; reflexivity.
Defined.

Lemma wf_w_connected : wf w_connected.
Proof. apply wf_handleConnection, wf_w_abc. Qed.

(** The connected session [abc] is asked for leave to run [ls] and the
    approval is written to its socket. *)
Lemma permission_auto_approved_witness :
  heap w_connected !! 0%nat = Some m_connected
  ∧ prop frame_can_use_tool "type" = Some (JStr "control_request")
  ∧ prop frame_can_use_tool "request" = Some request_ls
  ∧ prop request_ls "subtype" = Some (JStr "can_use_tool")
  ∧ ∃ w', routeMessage "abc" 0 frame_can_use_tool w_connected = Some w'
      ∧ transmitted w' 2
        = [JSON_stringify
             (control_response (JStr "req-1") (JObj [("command", JStr "ls")]))
           +:+ nl].
Proof.
  assert (heap w_connected !! 0%nat = Some m_connected) as H1
    by (vm_compute; reflexivity).
  assert (prop frame_can_use_tool "type" = Some (JStr "control_request"))
    as H2 by reflexivity.
  assert (prop frame_can_use_tool "request" = Some request_ls) as H3
    by reflexivity.
  assert (prop request_ls "subtype" = Some (JStr "can_use_tool")) as H4
    by reflexivity.
  repeat (split; [assumption|]).
  destruct (permission_auto_approved "abc" 0 frame_can_use_tool w_connected
              m_connected request_ls (JStr "can_use_tool") H1 H2 H3 H4)
    as (w' & Hr & _ & _ & s & Hs & Ht & _).
  exists w'. split; [exact Hr|].
  injection Hs as <-. rewrite Ht. vm_compute. reflexivity.
Defined.




(** [killSession] on [abc], whose process never exits, and on an id nobody
    has. *)
Lemma killSession_completes_witness :
  wf w_abc
  ∧ killSession "nobody" w_abc = (w_abc, None)
  ∧ (killSession "abc" w_abc).2 = Some 2%nat
  ∧ kill_pending (killSession "abc" w_abc).1 2 "abc" 0 1 6000
  ∧ kill_done (step parse0 (killSession "abc" w_abc).1 (TimerFires 3)) 2
      "abc" 0
  ∧ Map_get "abc"
      (sessions (step parse0 (killSession "abc" w_abc).1 (TimerFires 3)))
    = None.
Proof.
  split; [exact wf_w_abc|]. split.
  { destruct (killSession_completes parse0 w_abc "nobody" wf_w_abc)
      as (Hno & _).
    apply Hno. vm_compute. reflexivity. }
  assert (Map_get "abc" (sessions w_abc) = Some 0%nat) as H1
    by (vm_compute; reflexivity).
  assert (heap w_abc !! 0%nat = Some m_abc) as H2 by (vm_compute; reflexivity).
  destruct (killSession_completes parse0 w_abc "abc" wf_w_abc)
    as (_ & _ & Hyes).
  destruct (Hyes 0%nat m_abc 1%nat H1 H2 eq_refl) as (Hk & _ & Hpend & Hes).
  split; [exact Hk|]. split; [exact Hpend|].
  destruct (Hes []) as [[Hdone _]|(_ & Hfire & _)].
  - destruct Hpend as (Hp & _). unfold kill_done in Hdone.
    change (run parse0 (killSession "abc" w_abc).1 [])
      with (killSession "abc" w_abc).1 in Hdone.
    rewrite Hp in Hdone. discriminate Hdone.
  - destruct Hfire as (Hdone & Hgone & _). split; [exact Hdone|exact Hgone].
Defined.

(** The example turn: the assistant says hi and the result ends the turn. *)
Lemma nonstreaming_combines_assistant_and_result_witness :
  Forall (λ n, concerns "abc" n = false) pre_hi
  ∧ Forall (λ n, concerns "abc" n = false) mid_hi
  ∧ prop assistant_hi "message" = Some message_hi
  ∧ prop message_hi "content" = Some content_hi
  ∧ prop result_end_turn "usage" = Some usage_end_turn
  ∧ prop usage_end_turn "input_tokens" = Some (JNum 3)
  ∧ prop usage_end_turn "output_tokens" = Some (JNum 1)
  ∧ response
      (assemble "0a1b2c3d-0000-4000-8000-00000000beef"
         (handleNonStreaming "abc" (JStr "hello") w_connected).1
         (pre_hi ++ N_assistant "abc" assistant_hi :: mid_hi)) = None
  ∧ ∃ resp,
      response
        (assemble "0a1b2c3d-0000-4000-8000-00000000beef"
           (handleNonStreaming "abc" (JStr "hello") w_connected).1
           (pre_hi ++ N_assistant "abc" assistant_hi
              :: mid_hi ++ N_result "abc" result_end_turn :: post_hi))
      = Some (mkHttpResponse 200 resp [("x-session-id", "abc")])
      ∧ prop resp "role" = Some (JStr "assistant")
      ∧ prop resp "content" = Some content_hi
      ∧ prop resp "stop_reason" = Some (JStr "end_turn")
      ∧ (prop resp "usage" ≫= λ u, prop u "input_tokens") = Some (JNum 3)
      ∧ (prop resp "usage" ≫= λ u, prop u "output_tokens") = Some (JNum 1).
Proof.
  assert (Forall (λ n, concerns "abc" n = false) pre_hi) as H1
    by (repeat constructor).
  assert (Forall (λ n, concerns "abc" n = false) mid_hi) as H2
    by (repeat constructor).
  split; [exact H1|]. split; [exact H2|].
  do 5 (split; [reflexivity|]).
  destruct (nonstreaming_combines_assistant_and_result
              "0a1b2c3d-0000-4000-8000-00000000beef" "abc" (JStr "hello")
              w_connected assistant_hi result_end_turn
              message_hi content_hi usage_end_turn (JNum 3) (JNum 1)
              pre_hi mid_hi post_hi
              H1 H2 eq_refl eq_refl eq_refl eq_refl eq_refl)
    as (Hnone & resp & usage & rs & ms & Ha & _ & Hrole & Hcontent & Hrs & Hms
        & Hstop & Husage & Hi & Ho & _).
  split; [exact Hnone|]. exists resp.
  split; [by rewrite Ha|]. split; [exact Hrole|]. split; [exact Hcontent|].
  injection Hrs as <-. injection Hms as <-.
  split; [exact Hstop|]. rewrite Husage. simpl. split; [exact Hi|exact Ho].
Defined.

Lemma wf_w_late : wf w_late.
Proof. exact (wf_step parse0 w_abc (Clock 1801001) wf_w_abc). Qed.

(** The reaper finds [abc] idle for half an hour and a second. *)
Lemma reaper_removes_exited_and_kills_idle_witness :
  wf w_late
  ∧ Map_get "abc" (sessions w_late) = Some 0%nat
  ∧ heap w_late !! 0%nat = Some m_abc
  ∧ state (info m_abc) ≠ exited
  ∧ now w_late - lastUsedAt (info m_abc) > sessionTimeout w_late
  ∧ ∃ k c c', kills w_late !! k = None
      ∧ kill_pending (reapIdleSessions w_late) k "abc" 0 1 1806001
      ∧ procs w_late !! 1%nat = Some c
      ∧ procs (reapIdleSessions w_late) !! 1%nat = Some c'
      ∧ signals c' = match exitCode c with
                     | None => signals c ++ [SIGTERM]
                     | Some _ => signals c
                     end.
Proof.
  assert (Map_get "abc" (sessions w_late) = Some 0%nat) as H1
    by (vm_compute; reflexivity).
  assert (heap w_late !! 0%nat = Some m_abc) as H2
    by (vm_compute; reflexivity).
  assert (state (info m_abc) ≠ exited) as H3 by discriminate.
  assert (now w_late - lastUsedAt (info m_abc) > sessionTimeout w_late) as H4
    by (vm_compute; reflexivity).
  split; [exact wf_w_late|]. repeat (split; [assumption|]).
  destruct (reaper_removes_exited_and_kills_idle w_late "abc" 0 m_abc
              wf_w_late H1 H2) as (_ & _ & Hidle & _).
  exact (Hidle H3 H4).
Defined.






(** * Properties beyond the claims *)

(** ** [JSON.stringify] writes one line *)

Lemma JSON_stringify_arr xs :
  JSON_stringify (JArr xs) = "[" +:+ join "," (map JSON_stringify xs) +:+ "]".
Proof. reflexivity. Qed.

Lemma JSON_stringify_obj fs :
  JSON_stringify (JObj fs) = "{" +:+ join "," (object_members fs) +:+ "}".
Proof. reflexivity. Qed.

(** Induction on a value and the values it holds. *)
Lemma JSVal_nested_ind (P : JSVal → Prop) :
  P JUndefined → P JNull → (∀ b, P (JBool b)) → (∀ n, P (JNum n)) →
  (∀ s, P (JStr s)) →
  (∀ xs, Forall P xs → P (JArr xs)) →
  (∀ fs, Forall (λ kv, P kv.2) fs → P (JObj fs)) →
  ∀ v, P v.
Proof.
  intros Hu Hn Hb Hz Hs Ha Ho.
  fix IH 1. intros [| |b|n|s|xs|fs];
    [exact Hu|exact Hn|apply Hb|apply Hz|apply Hs| |].
  - apply Ha. induction xs as [|x xs IHxs]; constructor.
    + apply IH.
    + exact IHxs.
  - apply Ho. induction fs as [|[k x] fs IHfs]; constructor.
    + apply IH.
    + exact IHfs.
Qed.

Lemma all_chars_app f a b :
  all_chars f (a +:+ b) = all_chars f a && all_chars f b.
Proof.
  induction a as [|c a IH]; simpl; [done|]. rewrite IH.
  by rewrite andb_assoc.
Qed.

Lemma one_line_app a b : one_line (a +:+ b) = one_line a && one_line b.
Proof. apply all_chars_app. Qed.

Lemma one_line_escape_char c : one_line (escape_char c) = true.
Proof. by destruct c as [[] [] [] [] [] [] [] []]. Qed.

Lemma one_line_escape s : one_line (escape s) = true.
Proof.
  induction s as [|c s IH]; [done|]. simpl.
  by rewrite one_line_app, one_line_escape_char, IH.
Qed.

Lemma one_line_quote s : one_line (quote s) = true.
Proof.
  unfold quote. change (String dquote ?x) with (String dquote "" +:+ x).
  by rewrite !one_line_app, one_line_escape.
Qed.

Lemma one_line_join sep l :
  one_line sep = true → Forall (λ s, one_line s = true) l →
  one_line (join sep l) = true.
Proof.
  intros Hsep. induction 1 as [|x l Hx Hl IH]; [done|].
  destruct l as [|y l]; [done|].
  change (join sep (x :: y :: l)) with (x +:+ sep +:+ join sep (y :: l)).
  by rewrite !one_line_app, Hx, Hsep, IH.
Qed.

Lemma one_line_pretty_N_go x : ∀ s,
  one_line s = true → one_line (pretty_N_go x s) = true.
Proof.
  induction (N.lt_wf_0 x) as [x _ IH]; intros s Hs.
  assert (x = 0 ∨ 0 < x)%N as [->|?] by lia.
  - by rewrite pretty_N_go_0.
  - rewrite pretty_N_go_step by done. apply IH; [by apply N.div_lt|].
    change (String ?c s) with (String c "" +:+ s). rewrite one_line_app, Hs.
    unfold pretty_N_char. by repeat case_match.
Qed.

Lemma one_line_pretty_Z (n : Z) : one_line (pretty n) = true.
Proof.
  assert (∀ p : positive, one_line (pretty p) = true) as Hp.
  { intros p. unfold pretty, pretty_positive, pretty, pretty_N.
    case_decide; [done|]. by apply one_line_pretty_N_go. }
  destruct n as [|p|p]; [done|apply Hp|].
  change (pretty (Z.neg p)) with ("-" +:+ pretty p).
  by rewrite one_line_app, Hp.
Qed.

Lemma one_line_object_members fs :
  Forall (λ kv, one_line (JSON_stringify kv.2) = true) fs →
  Forall (λ s, one_line s = true) (object_members fs).
Proof.
  induction 1 as [|[k x] fs Hx _ IH]; [constructor|].
  assert (Forall (λ s, one_line s = true)
            ((quote k +:+ ":" +:+ JSON_stringify x) :: object_members fs))
    as Hcons.
  { constructor; [|done]. simpl in Hx.
    by rewrite !one_line_app, one_line_quote, Hx. }
  by destruct x.
Qed.

Lemma one_line_JSON_stringify v : one_line (JSON_stringify v) = true.
Proof.
  induction v as [| |[]|n|s|xs IH|fs IH] using JSVal_nested_ind; try done.
  - apply one_line_pretty_Z.
  - apply one_line_quote.
  - rewrite JSON_stringify_arr, !one_line_app. simpl.
    rewrite one_line_join; [done|done|].
    by apply Forall_fmap.
  - rewrite JSON_stringify_obj, !one_line_app. simpl.
    rewrite one_line_join; [done|done|]. by apply one_line_object_members.
Qed.

(** ** The response translator *)

Lemma split_on_free c s :
  all_chars (λ x, negb (bool_decide (x = c))) s = true → split_on c s = [s].
Proof.
  induction s as [|x s IH]; [done|]. cbn [all_chars split_on].
  intros [Hc Hs]%andb_prop. apply negb_true_iff, bool_decide_eq_false in Hc.
  rewrite decide_False by done. by rewrite (IH Hs).
Qed.

Lemma split_on_first c a rest :
  all_chars (λ x, negb (bool_decide (x = c))) a = true →
  split_on c (a +:+ String c rest) = a :: split_on c rest.
Proof.
  induction a as [|x a IH].
  - intros _. simpl. by destruct (decide (c = c)).
  - simpl. intros [Hc Ha]%andb_prop.
    apply negb_true_iff, bool_decide_eq_false in Hc.
    destruct (decide (x = c)); [done|]. by rewrite (IH Ha).
Qed.

Lemma split_on_one_line s :
  one_line s = true → split_on (ascii_of_N 10) s = [s].
Proof. apply split_on_free. Qed.

Lemma split_on_line a rest :
  one_line a = true →
  split_on (ascii_of_N 10) (a +:+ nl +:+ rest)
  = a :: split_on (ascii_of_N 10) rest.
Proof. apply split_on_first. Qed.

Lemma string_app_assoc (a b c : string) : (a +:+ b) +:+ c = a +:+ b +:+ c.
Proof.
  induction a as [|x a IH]; [done|].
  change (String x ((a +:+ b) +:+ c) = String x (a +:+ b +:+ c)).
  by rewrite IH.
Qed.

Lemma sse_event_lines name d :
  one_line name = true → one_line d = true →
  split_on (ascii_of_N 10) (sse_event name d) = sse_lines name d.
Proof.
  intros Hn Hd. unfold sse_event, sse_lines.
  rewrite <- (string_app_assoc "event: " name).
  rewrite split_on_line by (by rewrite one_line_app, Hn).
  rewrite <- (string_app_assoc "data: " d).
  rewrite split_on_line by (by rewrite one_line_app, Hd).
  done.
Qed.

(** X1. Every SSE helper writes one well-formed event, whatever its
    arguments hold: split at line feeds, the text is the event line, one data
    line, and the blank line that ends the event.  In particular a text
    delta with line feeds in it stays on its data line. *)
Theorem sse_helpers_write_one_event
    (model id index block text stopReason outputTokens : JSVal)
    (uuid : string) :
  (∃ d, split_on (ascii_of_N 10) (sseMessageStart model id uuid)
        = sse_lines "message_start" d)
  ∧ split_on (ascii_of_N 10) ssePing
    = sse_lines "ping" (JSON_stringify (JObj [("type", JStr "ping")]))
  ∧ (∃ d, split_on (ascii_of_N 10) (sseContentBlockStart index block)
          = sse_lines "content_block_start" d)
  ∧ split_on (ascii_of_N 10) (sseContentBlockDelta index text)
    = sse_lines "content_block_delta"
        (JSON_stringify
           (JObj [("type", JStr "content_block_delta"); ("index", index);
                  ("delta",
                   JObj [("type", JStr "text_delta"); ("text", text)])]))
  ∧ (∃ d, split_on (ascii_of_N 10) (sseContentBlockStop index)
          = sse_lines "content_block_stop" d)
  ∧ (∃ d, split_on (ascii_of_N 10) (sseMessageDelta stopReason outputTokens)
          = sse_lines "message_delta" d)
  ∧ split_on (ascii_of_N 10) sseMessageStop
    = sse_lines "message_stop"
        (JSON_stringify (JObj [("type", JStr "message_stop")])).
Proof.
  assert (∀ name v, one_line name = true →
            split_on (ascii_of_N 10)
              (("event: " +:+ name) +:+ nl +:+ "data: " +:+ JSON_stringify v
                 +:+ nl +:+ nl)
            = sse_lines name (JSON_stringify v)) as H.
  { intros name v Hn. rewrite <- (sse_event_lines name (JSON_stringify v));
      [|done|apply one_line_JSON_stringify].
    unfold sse_event. by rewrite string_app_assoc. }
  split; [eexists; by apply (H "message_start")|].
  split; [done|].
  split; [eexists; by apply (H "content_block_start")|].
  split; [by apply (H "content_block_delta")|].
  split; [eexists; by apply (H "content_block_stop")|].
  split; [eexists; by apply (H "message_delta")|].
  done.
Qed.

Lemma mapStopReason_api reason : mapStopReason reason ∈ api_stop_reasons.
Proof.
  unfold mapStopReason, api_stop_reasons.
  repeat case_match; set_solver.
Qed.

(** X2. Whatever the CLI reports, a response built by
    [buildAnthropicResponse] or [buildPartialResponse] is a message of the
    assistant whose stop reason is one of the values of the Messages API:
    null, end_turn, max_tokens, stop_sequence or tool_use; its stop sequence
    is null. *)
Theorem built_responses_have_api_stop_reason
    (assistant result model : JSVal) (uuid : string) (resp : JSVal) :
  buildAnthropicResponse assistant result uuid = Some resp
  ∨ buildPartialResponse assistant model uuid = Some resp →
  prop resp "type" = Some (JStr "message")
  ∧ prop resp "role" = Some (JStr "assistant")
  ∧ prop resp "stop_sequence" = Some JNull
  ∧ ∃ s, prop resp "stop_reason" = Some s ∧ s ∈ api_stop_reasons.
Proof.
  unfold buildAnthropicResponse, buildPartialResponse.
  intros [H|H]; simplify_option_eq;
    (do 3 (split; [done|])); eexists; (split; [done|]);
    apply mapStopReason_api.
Qed.

Lemma prop_is_Some v k : is_Some (prop v k) ↔ is_nullish v = false.
Proof. destruct v; simpl; split; (done || by eexists || by intros [??]). Qed.

Lemma prop_Some_defined v k x : prop v k = Some x → is_nullish v = false.
Proof. by destruct v. Qed.

(** X3. [buildAnthropicResponse] throws exactly when the assistant
    notification has no message or the result has no usage (the value is the
    notification itself, or the property, being null or undefined);
    [buildPartialResponse] throws exactly when the assistant notification
    has no message.  Any other missing property is copied as undefined. *)
Theorem builders_throw_on_missing_message_or_usage
    (assistant result model : JSVal) (uuid : string) :
  (is_Some (buildAnthropicResponse assistant result uuid)
   ↔ ∃ message usage,
       prop assistant "message" = Some message ∧ is_nullish message = false
       ∧ prop result "usage" = Some usage ∧ is_nullish usage = false)
  ∧ (is_Some (buildPartialResponse assistant model uuid)
     ↔ ∃ message,
         prop assistant "message" = Some message
         ∧ is_nullish message = false).
Proof.
  unfold buildAnthropicResponse, buildPartialResponse. split; split.
  - intros [resp H]. simplify_option_eq.
    eexists _, _. split; [done|]. split; [by eapply prop_Some_defined|].
    split; [done|]. by eapply prop_Some_defined.
  - intros (message & usage & Hm & Hnm & Hu & Hnu). rewrite Hm. simpl.
    destruct (proj2 (prop_is_Some message "id") Hnm) as [? ->].
    destruct (proj2 (prop_is_Some message "content") Hnm) as [? ->].
    destruct (proj2 (prop_is_Some message "model") Hnm) as [? ->].
    destruct (proj2 (prop_is_Some message "stop_reason") Hnm) as [? ->].
    assert (is_nullish result = false) as Hnr
      by (apply (prop_is_Some result "usage"); by eexists).
    destruct (proj2 (prop_is_Some result "stop_reason") Hnr) as [? ->].
    rewrite Hu. simpl.
    destruct (proj2 (prop_is_Some usage "input_tokens") Hnu) as [? ->].
    destruct (proj2 (prop_is_Some usage "output_tokens") Hnu) as [? ->].
    destruct (proj2 (prop_is_Some usage "cache_creation_input_tokens") Hnu)
      as [? ->].
    destruct (proj2 (prop_is_Some usage "cache_read_input_tokens") Hnu)
      as [? ->].
    simpl. by eexists.
  - intros [resp H]. simplify_option_eq.
    eexists. split; [done|]. by eapply prop_Some_defined.
  - intros (message & Hm & Hnm). rewrite Hm. simpl.
    destruct (proj2 (prop_is_Some message "id") Hnm) as [? ->].
    destruct (proj2 (prop_is_Some message "content") Hnm) as [? ->].
    destruct (proj2 (prop_is_Some message "model") Hnm) as [? ->].
    destruct (proj2 (prop_is_Some message "stop_reason") Hnm) as [? ->].
    destruct (proj2 (prop_is_Some message "usage") Hnm) as [? ->].
    simpl. by eexists.
Qed.

(** ** The non-streaming assembler *)

Lemma deliver_sessionId uuid a n :
  ns_sessionId (deliver uuid a n) = ns_sessionId a.
Proof.
  unfold deliver, cleanup_resolve, cleanup.
  destruct (listening a); [|done]. simpl.
  destruct n; simpl; repeat case_match; done.
Qed.

Lemma deliver_keeps_response uuid a n r :
  response a = Some r → response (deliver uuid a n) = Some r.
Proof.
  intros Hr. unfold deliver, cleanup_resolve, cleanup.
  destruct (listening a); [|done]. simpl.
  destruct n; simpl; repeat case_match; simpl; by rewrite ?Hr.
Qed.

Lemma assemble_keeps_response uuid ns : ∀ a r,
  response a = Some r → response (assemble uuid a ns) = Some r.
Proof.
  induction ns as [|n ns IH]; intros a r Hr; [done|].
  rewrite assemble_cons. apply IH. by apply deliver_keeps_response.
Qed.

(** X4. A call of [handleNonStreaming] is deaf to the other sessions: what
    it does with a sequence of notifications is what it does with those of
    them that are an assistant message, a result, an error or an exit of its
    own session. *)
Theorem nonstreaming_ignores_other_sessions (uuid : string)
    (ns : list Notification) (a : NonStreaming) :
  assemble uuid a ns
  = assemble uuid a (filter (λ n, concerns (ns_sessionId a) n) ns).
Proof.
  revert a. induction ns as [|n ns IH]; intros a; [done|].
  rewrite assemble_cons.
  destruct (concerns (ns_sessionId a) n) eqn:Hc.
  - rewrite filter_cons_True by (by rewrite Hc). rewrite assemble_cons.
    rewrite IH. by rewrite deliver_sessionId.
  - rewrite filter_cons_False by (rewrite Hc; simpl; tauto).
    rewrite deliver_ignores by done. apply IH.
Qed.

(** X5. A call resolves once: after it has resolved to a response, no
    notification and not the timer of the request changes what it resolved
    to. *)
Theorem nonstreaming_resolves_once (uuid : string) (a : NonStreaming)
    (ns ns' : list Notification) (r : HttpResponse) :
  response (assemble uuid a ns) = Some r →
  response (assemble uuid a (ns ++ ns')) = Some r
  ∧ response (request_timeout (assemble uuid a (ns ++ ns'))) = Some r.
Proof.
  intros Hr. rewrite assemble_app.
  pose proof (assemble_keeps_response uuid ns' _ _ Hr) as Hr'.
  split; [done|]. unfold request_timeout, cleanup_resolve. simpl.
  by rewrite Hr'.
Qed.

(** X6. How a call fails.  Unless something of its own session came first:
    an error of the session answers 500 with the message of the error, the
    exit of the process answers 500 with the exit code, a result that no
    assistant message preceded answers 500, and the timer of the request
    answers 504. *)
Theorem nonstreaming_failures (uuid sid : string) (content : JSVal)
    (w : World) (pre post : list Notification) (message : string)
    (code : option Z) (result : JSVal) :
  Forall (λ n, concerns sid n = false) pre →
  let call := (handleNonStreaming sid content w).1 in
  response (assemble uuid call (pre ++ N_error sid message :: post))
  = Some (mkHttpResponse 500 (api_error message) [])
  ∧ response (assemble uuid call (pre ++ N_exit sid code :: post))
    = Some (mkHttpResponse 500
              (api_error ("CLI process exited with code " +:+ show_code code))
              [])
  ∧ response (assemble uuid call (pre ++ N_result sid result :: post))
    = Some (mkHttpResponse 500
              (api_error "No response received from Claude Code") [])
  ∧ response (request_timeout (assemble uuid call pre))
    = Some (mkHttpResponse 504 (api_error "Request timed out") []).
Proof.
  intros Hpre call.
  assert (assemble uuid call pre = call) as E
    by (by apply assemble_ignores).
  repeat split.
  - rewrite assemble_app, E, assemble_cons. apply assemble_keeps_response.
    unfold deliver, call. simpl. by rewrite decide_True.
  - rewrite assemble_app, E, assemble_cons. apply assemble_keeps_response.
    unfold deliver, call. simpl. by rewrite decide_True.
  - rewrite assemble_app, E, assemble_cons. apply assemble_keeps_response.
    unfold deliver, call. simpl. by rewrite decide_True.
  - by rewrite E.
Qed.

(** Before anything ends the call it listens and is unresolved. *)
Lemma assemble_listens uuid sid ns : ∀ a,
  ns_sessionId a = sid → listening a = true → response a = None →
  Forall (λ n, terminal sid n = false) ns →
  ns_sessionId (assemble uuid a ns) = sid
  ∧ listening (assemble uuid a ns) = true
  ∧ response (assemble uuid a ns) = None.
Proof.
  induction ns as [|n ns IH]; intros a Hs Hl Hr Hns; [done|].
  apply Forall_cons in Hns as [Hn Hns]. rewrite assemble_cons.
  apply IH; [by rewrite deliver_sessionId| | |done];
    unfold deliver; rewrite Hl; simpl;
    destruct n; simpl in *; try done;
    try (apply bool_decide_eq_false in Hn; by rewrite decide_False by congruence);
    by case_match.
Qed.

(** X7. The last assistant message counts: of the assistant messages of
    its session that reach a call before the result, the response is built
    from the last one and the result. *)
Theorem nonstreaming_uses_last_assistant (uuid sid : string)
    (content : JSVal) (w : World) (a r resp : JSVal)
    (pre mid post : list Notification) :
  Forall (λ n, terminal sid n = false) pre →
  Forall (λ n, concerns sid n = false) mid →
  truthy a = true →
  buildAnthropicResponse a r uuid = Some resp →
  assemble uuid (handleNonStreaming sid content w).1
    (pre ++ N_assistant sid a :: mid ++ N_result sid r :: post)
  = mkNonStreaming sid (Some a) false
      (Some (mkHttpResponse 200 resp [("x-session-id", sid)])).
Proof.
  intros Hpre Hmid Ha Hb.
  destruct (assemble_listens uuid sid pre (handleNonStreaming sid content w).1)
    as (Hs & Hl & Hr); try done.
  rewrite assemble_app. set (a0 := assemble uuid _ pre) in *.
  rewrite assemble_cons.
  assert (deliver uuid a0 (N_assistant sid a)
          = mkNonStreaming sid (Some a) true None) as ->.
  { unfold deliver. rewrite Hl. simpl. rewrite decide_True by done.
    by rewrite Hs, Hr. }
  rewrite assemble_app, (assemble_ignores uuid _ mid) by exact Hmid.
  rewrite assemble_cons. unfold deliver. simpl.
  rewrite decide_True by done. rewrite Ha. simpl. rewrite Hb.
  by rewrite assemble_deaf.
Qed.

(** X8. A result from which no response can be built ends the call without
    an answer: the listeners are removed, nothing that follows resolves the
    call, and it is the timer of the request that answers, with 504. *)
Theorem nonstreaming_unbuildable_result_times_out (uuid sid : string)
    (content : JSVal) (w : World) (a r : JSVal)
    (pre mid post : list Notification) :
  Forall (λ n, terminal sid n = false) pre →
  Forall (λ n, concerns sid n = false) mid →
  truthy a = true →
  buildAnthropicResponse a r uuid = None →
  let ended :=
    assemble uuid (handleNonStreaming sid content w).1
      (pre ++ N_assistant sid a :: mid ++ N_result sid r :: post) in
  ended = mkNonStreaming sid (Some a) false None
  ∧ response (request_timeout ended)
    = Some (mkHttpResponse 504 (api_error "Request timed out") []).
Proof.
  intros Hpre Hmid Ha Hb.
  destruct (assemble_listens uuid sid pre (handleNonStreaming sid content w).1)
    as (Hs & Hl & Hr); try done.
  assert (assemble uuid (handleNonStreaming sid content w).1
            (pre ++ N_assistant sid a :: mid ++ N_result sid r :: post)
          = mkNonStreaming sid (Some a) false None) as E.
  { rewrite assemble_app. set (a0 := assemble uuid _ pre) in *.
    rewrite assemble_cons.
    assert (deliver uuid a0 (N_assistant sid a)
            = mkNonStreaming sid (Some a) true None) as ->.
    { unfold deliver. rewrite Hl. simpl. rewrite decide_True by done.
      by rewrite Hs, Hr. }
    rewrite assemble_app, (assemble_ignores uuid _ mid) by exact Hmid.
    rewrite assemble_cons. unfold deliver. simpl.
    rewrite decide_True by done. rewrite Ha. simpl. rewrite Hb.
    by rewrite assemble_deaf. }
  cbv zeta. by rewrite E.
Qed.

(** ** The request translator *)

Lemma find_user_skip ms rest :
  Forall not_user ms → find_user (ms ++ rest) = find_user rest.
Proof.
  induction 1 as [|m ms (role & Hr & Hn) _ IH]; [done|]. simpl.
  by rewrite Hr, Hn.
Qed.

Lemma find_user_last ms1 m ms2 :
  prop m "role" = Some (JStr "user") → Forall not_user ms2 →
  find_user (reverse (ms1 ++ m :: ms2)) = Returns m.
Proof.
  intros Hm Hms2. rewrite reverse_app, reverse_cons, <- (assoc_L (++)).
  rewrite find_user_skip by (by apply Forall_reverse). simpl.
  by rewrite Hm.
Qed.

Lemma user_truthy m : prop m "role" = Some (JStr "user") → truthy m = true.
Proof. by destruct m. Qed.

(** X9. [extractUserContent] reads the last message of role user: the
    messages before it, and the messages of other roles after it, play no
    part in the result. *)
Theorem extractUserContent_reads_last_user_message
    (req req1 m : JSVal) (ms1 ms2 : list JSVal) :
  prop req "messages" = Some (JArr (ms1 ++ m :: ms2)) →
  prop m "role" = Some (JStr "user") →
  Forall not_user ms2 →
  prop req1 "messages" = Some (JArr [m]) →
  prop req1 "system" = prop req "system" →
  extractUserContent req = extractUserContent req1.
Proof.
  intros Hreq Hm Hms2 Hreq1 Hsys. unfold extractUserContent.
  rewrite Hreq, Hreq1, Hsys. simpl.
  rewrite find_user_last by done.
  change (reverse [m]) with [m]. simpl. by rewrite Hm.
Qed.

(** X10. Without a message of role user, empty array included,
    [extractUserContent] throws the error [No user message found in
    messages array]. *)
Theorem extractUserContent_needs_user_message (req : JSVal)
    (ms : list JSVal) :
  prop req "messages" = Some (JArr ms) →
  Forall not_user ms →
  extractUserContent req = Throws (Error no_user_message).
Proof.
  intros Hreq Hms. unfold extractUserContent. rewrite Hreq. simpl.
  rewrite <- (app_nil_r (reverse ms)).
  rewrite find_user_skip by (by apply Forall_reverse). done.
Qed.

Lemma omap_cons_eq {A B} (f : A → option B) x l :
  omap f (x :: l)
  = match f x with Some y => y :: omap f l | None => omap f l end.
Proof. done. Qed.

Lemma filter_text_typed bs :
  Forall typed_block bs →
  ∃ kept, filter_text bs = Returns kept
    ∧ Forall (λ b, ∃ t, prop b "text" = Some (JStr t)
                     ∧ block_text b = Some t) kept
    ∧ omap block_text kept = omap block_text bs.
Proof.
  induction 1 as [|b bs (type & Ht & Htext) _ (kept & Hf & Hk & Ho)].
  - by exists [].
  - cbn [filter_text]. rewrite Ht, Hf. cbn [try_bind].
    destruct (is_str type "text") eqn:Hty.
    + destruct (Htext eq_refl) as [t Hbt]. eexists. split; [done|].
      split; [|by rewrite !omap_cons_eq, Ho].
      constructor; [|done]. exists t. split; [done|].
      unfold block_text. by rewrite Ht, Hbt, Hty.
    + exists kept. split; [done|]. split; [done|].
      assert (block_text b = None) as Hb.
      { unfold block_text. rewrite Ht.
        destruct (prop b "text") as [[]|]; by rewrite ?Hty. }
      by rewrite omap_cons_eq, Hb.
Qed.

Lemma map_text_kept kept :
  Forall (λ b, ∃ t, prop b "text" = Some (JStr t)
                 ∧ block_text b = Some t) kept →
  ∃ texts, map_text kept = Returns texts
    ∧ Array_join nl texts = join nl (omap block_text kept).
Proof.
  intros H.
  assert (∃ texts, map_text kept = Returns texts
            ∧ map (λ x, match x with
                        | JUndefined | JNull => ""
                        | _ => ToString x
                        end) texts = omap block_text kept)
    as (texts & Ht & Hmap).
  { induction H as [|b bs (t & Hb & Hbt) _ (texts & Ht & Hmap)].
    - by exists [].
    - cbn [map_text]. rewrite Hb, Ht. cbn [try_bind].
      eexists. split; [done|].
      rewrite omap_cons_eq, Hbt. cbn [map]. by rewrite Hmap. }
  exists texts. split; [done|]. unfold Array_join. by rewrite Hmap.
Qed.

(** X11. When the last user message holds content blocks, the user text is
    the texts of its text blocks, in order, joined by line feeds; blocks of
    other types add nothing.  When it holds a string, the user text is that
    string. *)
Theorem extractUserContent_joins_text_blocks (req m : JSVal)
    (ms1 ms2 bs : list JSVal) (s : string) :
  prop req "messages" = Some (JArr (ms1 ++ m :: ms2)) →
  prop m "role" = Some (JStr "user") →
  Forall not_user ms2 →
  prop req "system" = Some JUndefined →
  (prop m "content" = Some (JStr s) → extractUserContent req = Returns s)
  ∧ (prop m "content" = Some (JArr bs) → Forall typed_block bs →
     extractUserContent req = Returns (join nl (omap block_text bs))).
Proof.
  intros Hreq Hm Hms2 Hsys. unfold extractUserContent.
  rewrite Hreq, Hsys. cbn [spread try_bind].
  rewrite find_user_last by done. cbn [try_bind].
  rewrite (user_truthy m Hm). cbn [negb]. split.
  - intros ->. done.
  - intros -> Hbs.
    destruct (filter_text_typed bs Hbs) as (kept & -> & Hk & Ho).
    cbn [try_bind].
    destruct (map_text_kept kept Hk) as (texts & -> & Hj).
    cbn [try_bind]. by rewrite Hj, Ho.
Qed.

Lemma map_text_blocks ts :
  map_text (text_block <$> ts) = Returns (JStr <$> ts).
Proof.
  induction ts as [|t ts IH]; [done|].
  rewrite !fmap_cons. cbn [map_text]. by rewrite IH.
Qed.

Lemma Array_join_strings sep ts : Array_join sep (JStr <$> ts) = join sep ts.
Proof.
  unfold Array_join. f_equal. induction ts as [|t ts IH]; [done|].
  rewrite fmap_cons. cbn [map]. by rewrite IH.
Qed.

(** X12. A system prompt is put before the user text, separated from it by
    an empty line: a string as it is, an array of text blocks as their texts
    joined by line feeds.  A system prompt that is absent, null or the empty
    string leaves the user text alone, whereas an empty array still puts the
    empty line in front. *)
Theorem extractUserContent_prepends_system (req req0 system : JSVal)
    (c : string) :
  prop req "messages" = prop req0 "messages" →
  prop req0 "system" = Some JUndefined →
  prop req "system" = Some system →
  extractUserContent req0 = Returns c →
  (truthy system = false → extractUserContent req = Returns c)
  ∧ (∀ s, system = JStr s → s ≠ "" →
       extractUserContent req = Returns (s +:+ nl +:+ nl +:+ c))
  ∧ (∀ ts, system = JArr (text_block <$> ts) →
       extractUserContent req = Returns (join nl ts +:+ nl +:+ nl +:+ c)).
Proof.
  intros Hmsgs Hsys0 Hsys H. unfold extractUserContent in *.
  rewrite Hmsgs, Hsys. rewrite Hsys0 in H.
  destruct (prop req0 "messages") as [messages|]; [|done].
  destruct (spread messages) as [ms|e]; [|done]. cbn [try_bind] in *.
  destruct (find_user (reverse ms)) as [lastUser|e]; [|done].
  cbn [try_bind] in *.
  destruct (truthy lastUser); [|done]. cbn [negb] in *.
  match goal with
  | H : try_bind ?x _ = _ |- _ => destruct x as [c'|e]; [|done]
  end.
  cbn [try_bind truthy] in *. injection H as ->.
  split; [by intros ->|]. split.
  - intros s -> Hs. cbn [truthy].
    rewrite bool_decide_eq_false_2 by done. done.
  - intros ts ->. cbn [truthy]. rewrite map_text_blocks. cbn [try_bind].
    by rewrite Array_join_strings.
Qed.

(** ** The endpoint of the bridge *)

Lemma split_on_nonempty c s : split_on c s ≠ [].
Proof.
  destruct s as [|x s]; [done|]. simpl.
  destruct (decide (x = c)); [done|]. by destruct (split_on c s).
Qed.

Lemma split_on_app c a b :
  split_on c (a +:+ String c b) = split_on c a ++ split_on c b.
Proof.
  induction a as [|x a IH].
  - simpl. by destruct (decide (c = c)).
  - change (String x a +:+ String c b) with (String x (a +:+ String c b)).
    cbn [split_on]. destruct (decide (x = c)); [by rewrite IH|].
    rewrite IH. pose proof (split_on_nonempty c a).
    by destruct (split_on c a).
Qed.

Lemma handlers_sendToCLI w r f s :
  handlers <$> socks (sendToCLI r f w) !! s = handlers <$> socks w !! s.
Proof.
  unfold sendToCLI, ws_send, update.
  repeat case_match; try done. simpl.
  destruct (decide (n = s)) as [->|].
  - rewrite lookup_alter_eq. destruct (socks w !! s) as [ws|]; [|done].
    simpl. by case_match.
  - by rewrite lookup_alter_ne.
Qed.

Lemma handlers_routeMessage sid r msg w w' s :
  routeMessage sid r msg w = Some w' →
  handlers <$> socks w' !! s = handlers <$> socks w !! s.
Proof.
  intros H. apply routeMessage_cases in H
    as [->|[[v ->]|[->|[->|[->|[f ->]]]]]]; try done.
  apply handlers_sendToCLI.
Qed.

Section Endpoint.
Variable JSON_parse : string → option JSVal.

Lemma handlers_on_line sid r w line s :
  handlers <$> socks (on_line JSON_parse sid r w line) !! s
  = handlers <$> socks w !! s.
Proof.
  unfold on_line. destruct (JSON_parse line) as [msg|]; [|done].
  destruct (routeMessage sid r msg w) as [w'|] eqn:E; [|done].
  by eapply handlers_routeMessage.
Qed.

Lemma handlers_on_lines sid r lines s : ∀ w,
  handlers <$> socks (foldl (on_line JSON_parse sid r) w lines) !! s
  = handlers <$> socks w !! s.
Proof.
  induction lines as [|l lines IH]; intros w; [done|]. simpl.
  by rewrite IH, handlers_on_line.
Qed.

(** X13. A chunk is read line by line: a chunk made of two parts joined by
    a line feed is handled as the first part and then the second, as if
    they had arrived in two chunks.  Lines that are blank or that do not
    parse do not stand in the way of the lines after them. *)
Theorem chunk_is_read_line_by_line (s : nat) (a b : string) (w : World) :
  on_message JSON_parse s (a +:+ nl +:+ b) w
  = on_message JSON_parse s b (on_message JSON_parse s a w).
Proof.
  unfold on_message at 1 3.
  destruct (socks w !! s) as [ws|] eqn:Hs.
  2:{ unfold on_message. by rewrite Hs. }
  destruct (handlers ws) as [[sid r]|] eqn:Hh.
  2:{ unfold on_message. by rewrite Hs, Hh. }
  change (a +:+ nl +:+ b) with (a +:+ String (ascii_of_N 10) b).
  rewrite split_on_app, filter_app, foldl_app.
  set (w1 := foldl (on_line JSON_parse sid r) w _).
  pose proof (handlers_on_lines sid r
                (filter (λ l, trim_nonempty l) (split_on (ascii_of_N 10) a))
                s w) as Hk.
  fold w1 in Hk. rewrite Hs in Hk. simpl in Hk. rewrite Hh in Hk.
  unfold on_message. destruct (socks w1 !! s) as [ws1|]; [|done].
  simpl in Hk. injection Hk as ->. done.
Qed.

(** X14. A connection whose path names no registered session is closed
    with code 4001 and the reason [Unknown session].  It changes no session
    and not the registry, emits nothing, leaves the other sockets alone, and
    gets no listeners: what it sends afterwards is ignored. *)
Theorem unknown_session_is_refused (url : option string) (sid : string)
    (w : World) :
  match_path (default "" url) = Some sid →
  Map_get sid (sessions w) = None →
  let s := next_id w in
  let w' := handleConnection url w in
  socks w' !! s
  = Some (mkWebSocket CLOSING [] [Some (4001, "Unknown session")] None)
  ∧ (∀ s', s' ≠ s → socks w' !! s' = socks w !! s')
  ∧ heap w' = heap w ∧ sessions w' = sessions w ∧ emitted w' = emitted w
  ∧ procs w' = procs w
  ∧ ∀ data, on_message JSON_parse s data w' = w'.
Proof.
  intros Hp Hg s w'.
  assert (w' = ws_close s (Some (4001, "Unknown session"))
                 (set_socks (<[s := mkWebSocket OPEN [] [] None]> (socks w))
                    (set_next_id (S s) w))) as E.
  { unfold w', handleConnection, fresh. cbn [fst snd]. rewrite Hp.
    simpl. by rewrite Hg. }
  assert (socks w' !! s
          = Some (mkWebSocket CLOSING [] [Some (4001, "Unknown session")]
                    None)) as Hs.
  { rewrite E. unfold ws_close. simpl.
    by rewrite lookup_alter_eq, lookup_insert_eq. }
  split; [done|]. split.
  { intros s' Hne. rewrite E. unfold ws_close. simpl.
    by rewrite lookup_alter_ne, lookup_insert_ne. }
  rewrite E. repeat (split; [done|]). rewrite <- E.
  intros data. unfold on_message. by rewrite Hs.
Qed.
End Endpoint.

(** X15. The address a process is given leads back to its session.  For an
    id made of the characters a-f, 0-9 and the dash, as every generated id
    is, [spawnSession] passes the process the URL of the bridge with the
    path [/ws/cli/] followed by the id, and a connection on that path is
    accepted and becomes the transport of the session just registered,
    which is then [connected]. *)
Theorem spawned_address_routes_back (o : SpawnOptions) (a : Ambient)
    (w : World) (sid : string) :
  default (randomUUID a) (o_sessionId o) = sid →
  sid ≠ "" → all_chars is_id_char sid = true →
  let r := next_id w in
  let w1 := (spawnSession o a w).2 in
  let path := "/ws/cli/" +:+ sid in
  let w2 := handleConnection (Some path) w1 in
  Map_get sid (sessions w1) = Some r
  ∧ (∃ c rest, procs w1 !! S r = Some c
       ∧ spawnargs c
         = "--sdk-url"
             :: ("ws://localhost:" +:+ pretty (wsPort w) +:+ path) :: rest)
  ∧ match_path path = Some sid
  ∧ ∃ m, heap w2 !! r = Some m
      ∧ cliSocket m = Some (next_id w1)
      ∧ state (info m) = connected
      ∧ is_open w2 (next_id w1) = true.
Proof.
  intros Hsid Hne Hchars r w1 path w2.
  assert (match_path path = Some sid) as Hpath.
  { unfold match_path, path. rewrite strip_prefix_app, Hchars.
    by rewrite bool_decide_eq_false_2. }
  assert (Map_get sid (sessions w1) = Some r) as Hg.
  { unfold w1. rewrite sessions_spawnSession, Hsid. apply Map_get_set_eq. }
  assert (∃ m c rest, heap w1 !! r = Some m ∧ procs w1 !! S r = Some c
            ∧ spawnargs c
              = "--sdk-url"
                  :: ("ws://localhost:" +:+ pretty (wsPort w) +:+ path)
                  :: rest) as (m & c & rest & Hm & Hc & Hargs).
  { unfold w1, spawnSession, spawnCLI, fresh, update. rewrite Hsid.
    cbn [fst snd]. simpl. rewrite lookup_insert_eq. simpl.
    rewrite !lookup_alter_eq, !lookup_insert_eq. simpl.
    eexists _, _, _. split; [done|]. split; [done|]. done. }
  split; [done|]. split; [by exists c, rest|]. split; [done|].
  destruct (handleConnection_attaches w1 (Some path) sid r m Hpath Hg Hm)
    as (Hsock & _ & Hheap).
  fold w2 in Hsock, Hheap. eexists. split; [by rewrite Hheap, lookup_insert_eq|].
  split; [done|]. split; [done|]. unfold is_open. by rewrite Hsock.
Qed.

(** ** Launching and looking up sessions *)

Lemma procs_spawnSession o a w :
  ∃ c, procs (spawnSession o a w).2 = <[S (next_id w) := c]> (procs w)
    ∧ spawnfile c = default "claude" (which_claude a)
    ∧ spawn_cwd c = default (process_cwd a) (o_cwd o)
    ∧ spawn_env c
      = (let env := Map_set "CLAUDECODE" "1" (process_env w) in
         match o_apiKey o with
         | Some k =>
             if bool_decide (k = "") then env
             else Map_set "ANTHROPIC_API_KEY" k env
         | None => env
         end)
    ∧ exitCode c = None ∧ signals c = [].
Proof.
  unfold spawnSession, spawnCLI, fresh, update. simpl.
  rewrite lookup_insert_eq. simpl. eexists. split; [done|]. done.
Qed.

(** X16. The environment of a launched process is the environment of the
    server with [CLAUDECODE] set to 1 and, when the options carry a
    non-empty API key, [ANTHROPIC_API_KEY] set to that key.  Without a key
    the process inherits whatever key the server has; every other variable
    is inherited unchanged. *)
Theorem launched_process_environment (o : SpawnOptions) (a : Ambient)
    (w : World) :
  ∃ c, procs (spawnSession o a w).2 !! S (next_id w) = Some c
    ∧ Map_get "CLAUDECODE" (spawn_env c) = Some "1"
    ∧ Map_get "ANTHROPIC_API_KEY" (spawn_env c)
      = match o_apiKey o with
        | Some k =>
            if bool_decide (k = "")
            then Map_get "ANTHROPIC_API_KEY" (process_env w)
            else Some k
        | None => Map_get "ANTHROPIC_API_KEY" (process_env w)
        end
    ∧ ∀ k, k ≠ "CLAUDECODE" → k ≠ "ANTHROPIC_API_KEY" →
        Map_get k (spawn_env c) = Map_get k (process_env w).
Proof.
  destruct (procs_spawnSession o a w) as (c & Hp & _ & _ & Henv & _).
  exists c. rewrite Hp, lookup_insert_eq. split; [done|].
  rewrite Henv. cbv zeta.
  destruct (o_apiKey o) as [k|]; [destruct (bool_decide (k = ""))|].
  - split; [apply Map_get_set_eq|]. split; [by rewrite Map_get_set_ne|].
    intros k' H1 _. by rewrite Map_get_set_ne.
  - split; [rewrite Map_get_set_ne by done; apply Map_get_set_eq|].
    split; [apply Map_get_set_eq|].
    intros k' H1 H2. by rewrite !Map_get_set_ne.
  - split; [apply Map_get_set_eq|]. split; [by rewrite Map_get_set_ne|].
    intros k' H1 _. by rewrite Map_get_set_ne.
Qed.

(** X17. [spawnSession] with an id that is in use takes the id over: the
    id names the new record, the record it named is not registered under
    any id any more, and neither that record nor its process is touched:
    the process is not signalled and keeps running. *)
Theorem spawnSession_takes_over_id (o : SpawnOptions) (a : Ambient)
    (w : World) (sid : string) (r : nat) (m : ManagedSession) :
  wf w → o_sessionId o = Some sid →
  Map_get sid (sessions w) = Some r → heap w !! r = Some m →
  let w1 := (spawnSession o a w).2 in
  Map_get sid (sessions w1) = Some (next_id w)
  ∧ next_id w ≠ r
  ∧ (∀ sid', Map_get sid' (sessions w1) ≠ Some r)
  ∧ length (sessions w1) = length (sessions w)
  ∧ heap w1 !! r = Some m
  ∧ ∀ p, process m = Some p → procs w1 !! p = procs w !! p.
Proof.
  intros Hw Ho Hg Hm w1.
  assert (r < next_id w)%nat as Hlt by (apply (wf_heap _ Hw); by eexists).
  assert (sessions w1 = Map_set sid (next_id w) (sessions w)) as Hs.
  { unfold w1. by rewrite sessions_spawnSession, Ho. }
  split; [rewrite Hs; apply Map_get_set_eq|]. split; [lia|]. split.
  { intros sid' Hg'. rewrite Hs in Hg'.
    destruct (decide (sid' = sid)) as [->|Hne].
    - rewrite Map_get_set_eq in Hg'. injection Hg' as ?. lia.
    - rewrite Map_get_set_ne in Hg' by done. apply Hne.
      eapply (refs_inj (sessions w)); [by apply wf_refs| |];
        by apply Map_get_elem_of. }
  split.
  { rewrite Hs. clear -Hg. unfold Map_get in Hg.
    induction (sessions w) as [|[k v] l IH]; [done|]. simpl in *.
    destruct (decide (sid = k)); [done|]. simpl. f_equal. by apply IH. }
  split; [unfold w1; by rewrite spawnSession_old|].
  intros p Hp. unfold w1.
  destruct (procs_spawnSession o a w) as (c & -> & _).
  pose proof (wf_process _ Hw _ _ _ Hm Hp) as ->.
  rewrite lookup_insert_ne; [done|lia].
Qed.

(** X18. An exited session is not handed out again: [getOrCreate] with its
    id launches a new process, registers the new record under the id and
    waits for it to become ready. *)
Theorem getOrCreate_replaces_exited_session (o : SpawnOptions)
    (a : Ambient) (w : World) (sid : string) (r : nat)
    (m : ManagedSession) :
  o_sessionId o = Some sid → Map_get sid (sessions w) = Some r →
  heap w !! r = Some m → state (info m) = exited →
  ∃ w1 m1,
    getOrCreate o a w = (Pending sid (S (S (next_id w))), w1)
    ∧ Map_get sid (sessions w1) = Some (next_id w)
    ∧ heap w1 !! next_id w = Some m1
    ∧ state (info m1) = starting
    ∧ process m1 = Some (S (next_id w))
    ∧ is_Some (procs w1 !! S (next_id w)).
Proof.
  intros Ho Hg Hm Hex.
  assert (existing_session o w = None) as He.
  { unfold existing_session. rewrite Ho. case_match; [|done].
    rewrite Hg. simpl. rewrite Hm. simpl. by rewrite decide_True. }
  destruct (getOrCreate_creates o a w He)
    as (w1 & m1 & Hc & Hs & Hh & Hst & Hp & _ & _ & (c & Hpr & _) & _).
  rewrite Ho in Hc, Hs. simpl in Hc, Hs.
  exists w1, m1. split; [done|]. split; [by rewrite Hs, Map_get_set_eq|].
  split; [by rewrite Hh, lookup_insert_eq|]. split; [done|]. split; [done|].
  rewrite Hpr, lookup_insert_eq. by eexists.
Qed.


(** ** Interrupts and the idle clock *)

Lemma reap_spares w sid r m :
  wf w → Map_get sid (sessions w) = Some r → heap w !! r = Some m →
  state (info m) ≠ exited →
  now w - lastUsedAt (info m) ≤ sessionTimeout w →
  undisturbed sid (S r) w (reapIdleSessions w).
Proof.
  intros Hw Hg Hm Hex Hact.
  destruct (keys_split (sessions w) sid r) as (l1 & l2 & El & Hl1 & Hl2);
    [by apply wf_keys|by apply Map_get_elem_of|].
  unfold reapIdleSessions. rewrite El, foldl_app. cbn [foldl].
  pose proof (reap_fold_others (now w) l1 w sid r Hw Hg Hl1 w Hw
                (shrinks_refl w) eq_refl) as Ha.
  set (wa := foldl (reap_entry (now w)) w l1) in *.
  assert (reap_entry (now w) wa (sid, r) = wa) as Eb.
  { unfold reap_entry. cbn [fst snd].
    rewrite (und_heap _ _ _ _ Ha), Hm.
    rewrite decide_False by done. rewrite (und_timeout _ _ _ _ Ha).
    by rewrite decide_False by lia. }
  rewrite Eb. eapply undisturbed_trans; [exact Ha|].
  apply (reap_fold_others (now w) l2 w sid r Hw Hg Hl2);
    [by destruct Ha|by destruct Ha|by destruct Ha].
Qed.

Lemma sendToCLI_info w r f r' m :
  heap w !! r' = Some m →
  ∃ m', heap (sendToCLI r f w) !! r' = Some m' ∧ info m' = info m
    ∧ cliSocket m' = cliSocket m ∧ process m' = process m.
Proof.
  intros Hm. unfold sendToCLI, ws_send, update.
  repeat case_match; try (by exists m); simpl.
  all: destruct (decide (r = r')) as [->|];
    [rewrite lookup_alter_eq, Hm; simpl; by eexists
    |rewrite lookup_alter_ne by done; by exists m].
Qed.

(** X20. [sendInterrupt] does nothing for an id that is not registered.
    For a registered session it hands exactly one frame to the transport,
    the interrupt request with the given request id, written to the socket
    if that is open and queued otherwise; the session's state and its last
    use stay what they were, so an interrupt does not postpone reaping. *)
Theorem sendInterrupt_sends_one_frame (sid uuid : string) (w : World) :
  (Map_get sid (sessions w) = None → sendInterrupt sid uuid w = w)
  ∧ ∀ r m, Map_get sid (sessions w) = Some r → heap w !! r = Some m →
      let frame := JSON_stringify (interrupt_request uuid) in
      let w' := sendInterrupt sid uuid w in
      (∃ m', heap w' !! r = Some m' ∧ info m' = info m)
      ∧ emitted w' = emitted w ∧ sessions w' = sessions w
      ∧ if writable w m then
          ∃ s, cliSocket m = Some s
            ∧ transmitted w' s = transmitted w s ++ [frame +:+ nl]
            ∧ queued w' r = queued w r
        else
          queued w' r = queued w r ++ [frame] ∧ socks w' = socks w.
Proof.
  split; [intros Hg; unfold sendInterrupt; by rewrite Hg|].
  intros r m Hg Hm frame w'.
  assert (w' = sendToCLI r frame w) as ->
    by (unfold w', sendInterrupt; by rewrite Hg).
  split.
  { destruct (sendToCLI_info w r frame r m Hm) as (m' & ? & ? & _).
    by exists m'. }
  split; [unfold sendToCLI; by repeat case_match|].
  split; [apply sessions_sendToCLI|].
  destruct (writable w m) eqn:Hw.
  - destruct (sendToCLI_writes _ _ _ frame Hm Hw) as (s & Hs & E & Ht).
    exists s. split; [done|]. split; [done|]. by rewrite E.
  - rewrite (sendToCLI_queues _ _ _ frame Hm Hw). split; [|done].
    unfold queued. simpl. by rewrite lookup_insert_eq, Hm.
Qed.

(** X21. Dispatching a user message postpones reaping: the session is
    busy and its last use is the time of the dispatch, so a pass of the
    reaper no later than the idle threshold after the dispatch leaves the
    session registered and starts no kill for it. *)
Theorem dispatch_postpones_reaping (sid : string) (content cliSid : JSVal)
    (w w1 : World) (r : nat) (m : ManagedSession) (t : Z) :
  wf w → Map_get sid (sessions w) = Some r → heap w !! r = Some m →
  sendUserMessage sid content cliSid w = Some w1 →
  0 ≤ sessionTimeout w → t - now w ≤ sessionTimeout w →
  let w2 := reapIdleSessions (set_now (Z.max (now w1) t) w1) in
  Map_get sid (sessions w2) = Some r
  ∧ (∃ m2, heap w2 !! r = Some m2 ∧ state (info m2) = busy
       ∧ lastUsedAt (info m2) = now w)
  ∧ (∀ k kw, kills w2 !! k = Some kw → k_sessionId kw = sid →
       kills w !! k = Some kw)
  ∧ ∀ p, process m = Some p → procs w2 !! p = procs w !! p.
Proof.
  intros Hw Hg Hm Hsend Ht0 Ht w2.
  pose proof (wf_sendUserMessage _ _ _ _ _ Hw Hsend) as Hw1.
  unfold sendUserMessage in Hsend. rewrite Hg in Hsend. simpl in Hsend.
  rewrite Hm in Hsend. simpl in Hsend. injection Hsend as Hsend.
  set (w0 := update r (on_info (info_set_lastUsedAt (now w)))
               (update r (on_info (info_set_state busy)) w)) in *.
  assert (heap w0 !! r
          = Some (on_info (info_set_lastUsedAt (now w))
                    (on_info (info_set_state busy) m))) as Hm0.
  { unfold w0, update. simpl. by rewrite !lookup_alter_eq, Hm. }
  match type of Hsend with sendToCLI _ ?f _ = _ =>
    destruct (sendToCLI_info w0 r f r _ Hm0) as (m1 & Hm1 & Hi1 & _);
    destruct (sendToCLI_keeps w0 r f) as (_ & Hk1 & _ & Hp1 & Hs1 & _ & Hn1);
    assert (sessionTimeout (sendToCLI r f w0) = sessionTimeout w) as Ht1
      by (unfold sendToCLI; by repeat case_match)
  end.
  rewrite Hsend in Hm1, Hk1, Hp1, Hs1, Hn1, Ht1.
  set (w1' := set_now (Z.max (now w1) t) w1) in *.
  assert (undisturbed sid (S r) w1' w2) as Hu.
  { apply (reap_spares w1' sid r m1); [by apply wf_set_now| | | |].
    - change (sessions w1') with (sessions w1). rewrite Hs1. exact Hg.
    - done.
    - by rewrite Hi1.
    - rewrite Hi1. change (sessionTimeout w1') with (sessionTimeout w1).
      rewrite Ht1. change (now w1') with (Z.max (now w1) t). rewrite Hn1.
      change (now w0) with (now w). simpl. lia. }
  split.
  { rewrite (und_session _ _ _ _ Hu).
    change (sessions w1') with (sessions w1). rewrite Hs1. exact Hg. }
  split.
  { exists m1. rewrite (und_heap _ _ _ _ Hu). split; [done|].
    by rewrite Hi1. }
  split.
  { intros k kw Hk Hsid. apply (und_no_kill _ _ _ _ Hu) in Hk; [|done].
    change (kills w1') with (kills w1) in Hk. by rewrite Hk1 in Hk. }
  intros p Hp. rewrite (wf_process _ Hw _ _ _ Hm Hp).
  rewrite (und_proc _ _ _ _ Hu).
  change (procs w1') with (procs w1). by rewrite Hp1.
Qed.

(** ** Shutting the bridge down *)

Lemma shutdown_fold ids : ∀ w ks,
  (foldl (λ acc id,
            let '(w', k) := killSession id acc.1 in
            (w', acc.2 ++ option_list k)) (w, ks) ids).1
  = foldl (λ w id, (killSession id w).1) w ids
  ∧ ∃ ks',
      (foldl (λ acc id,
                let '(w', k) := killSession id acc.1 in
                (w', acc.2 ++ option_list k)) (w, ks) ids).2
      = ks ++ ks'.
Proof.
  induction ids as [|id ids IH]; intros w ks.
  - split; [done|]. exists []. by rewrite app_nil_r.
  - cbn [foldl fst snd]. destruct (killSession id w) as [w' k] eqn:E.
    destruct (IH w' (ks ++ option_list k)) as (-> & ks' & ->).
    split; [done|]. exists (option_list k ++ ks'). by rewrite <- app_assoc.
Qed.

Lemma kill_fold_others l w0 sid r :
  wf w0 → Map_get sid (sessions w0) = Some r →
  (∀ id, id ∈ l → id ≠ sid) →
  ∀ w, wf w → shrinks w0 w → heap w = heap w0 →
  undisturbed sid (S r) w (foldl (λ w id, (killSession id w).1) w l).
Proof.
  intros Hw0 Hg. induction l as [|id l IH]; intros Hl w Hw Hsh Hh; simpl.
  - by apply undisturbed_refl.
  - assert (undisturbed sid (S r) w (killSession id w).1) as Hu.
    { apply killSession_other; [done|apply Hl; left|].
      intros r' m' Hg' Hm' Hp'. rewrite Hh in Hm'.
      pose proof (wf_process _ Hw0 _ _ _ Hm' Hp') as E. injection E as ->.
      apply Hsh in Hg'. apply (Hl id); [left|].
      eapply (refs_inj (sessions w0)); [by apply wf_refs| |];
        by apply Map_get_elem_of. }
    eapply undisturbed_trans; [exact Hu|].
    apply IH.
    + intros id' Hid'. apply Hl. by right.
    + by destruct Hu.
    + eapply shrinks_trans; [exact Hsh|]. by destruct Hu.
    + destruct Hu. congruence.
Qed.

(** X22. [shutdown] reaches every registered session: a session without a
    process is removed at once, and for a session with a process the
    process is sent SIGTERM if it runs and a call of [killSession] is
    suspended on it, with its grace timer of 5000 ms armed and its promise
    among those [shutdown] waits for. *)
Theorem shutdown_kills_every_session (w : World) (sid : string) (r : nat)
    (m : ManagedSession) :
  wf w → Map_get sid (sessions w) = Some r → heap w !! r = Some m →
  match process m with
  | None => Map_get sid (sessions (shutdown w).1) = None
  | Some p =>
      ∃ k c c', k ∈ (shutdown w).2 ∧ kills w !! k = None
        ∧ kill_pending (shutdown w).1 k sid r p (now w + 5000)
        ∧ procs w !! p = Some c
        ∧ procs (shutdown w).1 !! p = Some c'
        ∧ signals c' = match exitCode c with
                       | None => signals c ++ [SIGTERM]
                       | Some _ => signals c
                       end
  end.
Proof.
  intros Hw Hg Hm.
  destruct (keys_split (sessions w) sid r) as (p1 & p2 & El & Hp1 & Hp2);
    [by apply wf_keys|by apply Map_get_elem_of|].
  assert (∀ l : list (string * nat), (∀ e, e ∈ l → e.1 ≠ sid) →
            ∀ id, id ∈ l.*1 → id ≠ sid) as Hkeys.
  { intros l Hl id [e [-> He]]%list_elem_of_fmap. by apply Hl. }
  unfold shutdown. rewrite El, fmap_app, fmap_cons, foldl_app.
  cbn [foldl fst snd].
  destruct (shutdown_fold p1.*1 w []) as (Ea & ksa & Eka).
  set (acc := foldl _ (w, []) p1.*1) in *.
  pose proof (kill_fold_others p1.*1 w sid r Hw Hg (Hkeys _ Hp1) w Hw
                (shrinks_refl w) eq_refl) as Ha.
  rewrite <- Ea in Ha. set (wa := acc.1) in *.
  assert (heap wa !! r = Some m) as Hma by (destruct Ha; congruence).
  assert (Map_get sid (sessions wa) = Some r) as Hga
    by (destruct Ha; congruence).
  assert (now wa = now w) as Hna by by destruct Ha.
  pose proof (wf_killSession wa sid (und_wf _ _ _ _ Ha)) as Hwb.
  assert (shrinks w (killSession sid wa).1) as Hsb.
  { eapply shrinks_trans; [by destruct Ha|apply shrinks_killSession]. }
  assert (heap (killSession sid wa).1 = heap w) as Hhb.
  { rewrite heap_killSession. by destruct Ha. }
  pose proof (kill_fold_others p2.*1 w sid r Hw Hg (Hkeys _ Hp2) _ Hwb Hsb
                Hhb) as Hc.
  destruct (killSession sid wa) as [wb k] eqn:Ek.
  destruct (shutdown_fold p2.*1 wb (acc.2 ++ option_list k))
    as (Ec & ksc & Ekc).
  rewrite Ec, Ekc. cbn [fst] in Hc, Hwb.
  set (w' := foldl (λ w id, (killSession id w).1) wb p2.*1) in *.
  destruct (process m) as [p|] eqn:Hp.
  - pose proof (wf_process _ Hw _ _ _ Hm Hp) as ->.
    rewrite (killSession_suspends _ _ _ _ _ Hga Hma Hp) in Ek.
    injection Ek as Eb <-.
    destruct (wf_spawned _ Hw _ _ _ Hm Hp) as [c Hc0].
    assert (procs wa !! S r = Some c) as Hca by (destruct Ha; congruence).
    exists (next_id wa), c. eexists. split; [|split; [|split; [|split; [|split]]]].
    + apply elem_of_app. left. apply elem_of_app. right. left.
    + destruct (kills w !! next_id wa) as [kw|] eqn:Hk; [|done].
      destruct (und_kills _ _ _ _ Ha (next_id wa)) as [E _]; [by eexists|].
      rewrite Hk in E.
      destruct (wf_kills _ (und_wf _ _ _ _ Ha) _ _ E). lia.
    + assert (is_Some (kills wb !! next_id wa)) as Hsome.
      { rewrite <- Eb. simpl. rewrite lookup_insert_eq. by eexists. }
      destruct (und_kills _ _ _ _ Hc _ Hsome) as [E1 E2].
      unfold kill_pending. rewrite E1, E2, (und_proc _ _ _ _ Hc).
      rewrite (und_heap _ _ _ _ Hc). rewrite <- Eb in *. simpl.
      rewrite lookup_insert_eq.
      rewrite lookup_insert_eq. rewrite Hna.
      split; [done|]. split; [done|].
      split; [exists m; split; [|done]; by rewrite <- Hma|].
      rewrite lookup_alter_eq. unfold proc_kill. simpl.
      rewrite lookup_alter_eq, Hca. simpl. eexists. split; [done|].
      simpl. apply elem_of_app. right. left.
    + done.
    + rewrite (und_proc _ _ _ _ Hc), <- Eb. simpl.
      rewrite lookup_alter_eq. unfold proc_kill. simpl.
      rewrite lookup_alter_eq, Hca. simpl. done.
    + simpl. by destruct (exitCode c).
  - rewrite (und_session _ _ _ _ Hc).
    unfold killSession in Ek. rewrite Hga, Hma, Hp in Ek.
    injection Ek as <- _.
    rewrite sessions_kill_finish. apply Map_get_delete_eq.
Qed.

(** ** NDJSON framing *)

Lemma framed_same w w' :
  heap w' = heap w → socks w' = socks w → framed w → framed w'.
Proof. intros Hh Hs [H1 H2]. split; rewrite ?Hh, ?Hs; done. Qed.

Ltac same_frames := eapply framed_same; [| |eassumption]; reflexivity.

Lemma framed_update w r f :
  (∀ m, Forall (λ f, ∃ v, f = JSON_stringify v) (pendingMessages m) →
        Forall (λ f, ∃ v, f = JSON_stringify v) (pendingMessages (f m))) →
  framed w → framed (update r f w).
Proof.
  intros Hf [H1 H2]. split; [|done]. simpl. intros r' m'.
  rewrite lookup_alter_Some. intros [[-> (m & Hm & ->)]|[_ Hm]]; eauto.
Qed.

Lemma framed_alter_sock w g s :
  (∀ ws, sent (g ws) = sent ws) →
  framed w → framed (set_socks (alter g s (socks w)) w).
Proof.
  intros Hg [H1 H2]. split; [done|]. simpl. intros s' ws'.
  rewrite lookup_alter_Some. intros [[-> (ws & Hws & ->)]|[_ Hws]]; [|eauto].
  rewrite Hg. eauto.
Qed.

Lemma framed_insert_sock w s ws :
  Forall (λ d, ∃ v, d = JSON_stringify v +:+ nl) (sent ws) →
  framed w → framed (set_socks (<[s := ws]> (socks w)) w).
Proof.
  intros Hws [H1 H2]. split; [done|]. simpl. intros s' ws'.
  rewrite lookup_insert_Some. intros [[-> <-]|[_ Hs]]; eauto.
Qed.

Lemma framed_ws_send w s v :
  framed w → framed (ws_send s (JSON_stringify v +:+ nl) w).
Proof.
  intros [H1 H2]. split; [done|]. unfold ws_send. simpl. intros s' ws'.
  rewrite lookup_alter_Some. intros [[-> (ws & Hws & ->)]|[_ Hws]]; [|eauto].
  destruct (readyState ws); simpl; eauto.
  apply Forall_app. split; [eauto|]. constructor; [|done]. by exists v.
Qed.

Lemma framed_ws_close w s a : framed w → framed (ws_close s a w).
Proof. apply framed_alter_sock. intros ws. by destruct (readyState ws). Qed.

Lemma framed_sendToCLI w r v :
  framed w → framed (sendToCLI r (JSON_stringify v) w).
Proof.
  intros Hw. unfold sendToCLI. repeat case_match; try done.
  - by apply framed_ws_send.
  - apply framed_update; [|done]. intros m' Hm'. simpl.
    apply Forall_app. split; [done|]. constructor; [by exists v|done].
  - apply framed_update; [|done]. intros m' Hm'. simpl.
    apply Forall_app. split; [done|]. constructor; [by exists v|done].
Qed.

Lemma framed_flush q : ∀ w s,
  Forall (λ f, ∃ v, f = JSON_stringify v) q → framed w →
  framed (flush s q w).
Proof.
  unfold flush. induction q as [|f q IH]; intros w s Hq Hw; [done|].
  apply Forall_cons in Hq as [[v ->] Hq]. simpl. apply IH; [done|].
  by apply framed_ws_send.
Qed.

Lemma framed_handleConnection w url :
  framed w → framed (handleConnection url w).
Proof.
  intros Hw. unfold handleConnection, fresh. cbn [fst snd].
  assert (framed (set_socks (<[next_id w := mkWebSocket OPEN [] [] None]>
                               (socks (set_next_id (S (next_id w)) w)))
                    (set_next_id (S (next_id w)) w))) as Hw1.
  { apply framed_insert_sock; [constructor|]. same_frames. }
  destruct (match_path (default "" url)) as [sid|];
    [|by apply framed_ws_close].
  change (sessions (set_socks _ _)) with (sessions w).
  destruct (Map_get sid (sessions w)) as [r|];
    [|by apply framed_ws_close].
  change (heap (set_socks _ _)) with (heap w).
  destruct (heap w !! r) as [m|] eqn:Hm; [|done].
  cbv zeta. apply framed_alter_sock; [done|].
  apply framed_update; [by intros; constructor|].
  apply framed_flush; [by apply (framed_queue _ Hw r)|].
  apply framed_update; [done|]. by apply framed_update.
Qed.

Lemma framed_kill_finish w sid r : framed w → framed (kill_finish sid r w).
Proof.
  intros Hw. unfold kill_finish.
  match goal with |- framed (set_sessions _ ?x) =>
    assert (framed x) by (repeat case_match; try done; by apply framed_ws_close)
  end.
  same_frames.
Qed.

Lemma framed_resolve_kill w k : framed w → framed (resolve_kill k w).
Proof.
  intros Hw. unfold resolve_kill. repeat case_match; try done.
  apply framed_kill_finish. same_frames.
Qed.

Lemma framed_killSession w sid : framed w → framed (killSession sid w).1.
Proof.
  intros Hw. unfold killSession, fresh. repeat case_match; try done.
  - same_frames.
  - by apply framed_kill_finish.
Qed.

Lemma framed_foldl {A} (f : World → A → World) l :
  (∀ w x, framed w → framed (f w x)) → ∀ w, framed w → framed (foldl f w l).
Proof. intros Hf. induction l; simpl; auto. Qed.

Lemma framed_fire_timer w t : framed w → framed (fire_timer t w).
Proof.
  intros Hw. unfold fire_timer. destruct (timers w !! t) as [tm|]; [|done].
  assert (framed (set_timers (delete t (timers (set_now
            (Z.max (now w) (deadline tm)) w)))
            (set_now (Z.max (now w) (deadline tm)) w))) as Hw1
    by same_frames.
  unfold run_timer. destruct (action tm) as [k|k].
  - repeat case_match; try done; apply framed_resolve_kill; try done;
      same_frames.
  - repeat case_match; try done. same_frames.
Qed.

Lemma framed_on_proc_exit w p code : framed w → framed (on_proc_exit p code w).
Proof.
  intros Hw. unfold on_proc_exit. repeat case_match; try done.
  apply framed_foldl; [intros; by apply framed_resolve_kill|].
  apply framed_foldl.
  { intros w' k Hw'. unfold clear_kill_timer. case_match; [|done].
    same_frames. }
  match goal with |- framed (emit _ ?x) =>
    assert (framed x) by (apply framed_update; [done|]; same_frames)
  end.
  same_frames.
Qed.

Lemma framed_on_close w s : framed w → framed (on_close s w).
Proof.
  intros Hw. unfold on_close. destruct (socks w !! s) as [ws|] eqn:Hs; [|done].
  assert (framed (set_socks (<[s := mkWebSocket CLOSED (sent ws)
                                 (closeCalls ws) (handlers ws)]> (socks w)) w))
    as Hw1 by (apply framed_insert_sock; [exact (framed_sent _ Hw s ws Hs)|done]).
  repeat case_match; try done. by apply framed_update.
Qed.

Lemma framed_reapIdleSessions w : framed w → framed (reapIdleSessions w).
Proof.
  apply framed_foldl. intros w' e Hw'. unfold reap_entry.
  repeat case_match; try done; [same_frames|].
  by apply framed_killSession.
Qed.

Lemma framed_spawnSession w o a : framed w → framed (spawnSession o a w).2.
Proof.
  intros [H1 H2]. unfold spawnSession, spawnCLI, fresh, update. simpl.
  rewrite lookup_insert_eq. simpl. split; [|done]. simpl. intros r m.
  destruct (decide (r = next_id w)) as [->|Hne].
  - rewrite !lookup_alter_eq, lookup_insert_eq. simpl. intros [= <-].
    constructor.
  - rewrite !lookup_alter_ne, lookup_insert_ne by done. eauto.
Qed.

Lemma framed_waitForReady w sid t : framed w → framed (waitForReady sid t w).2.
Proof.
  intros Hw. unfold waitForReady, fresh. repeat case_match; try done.
  all: same_frames.
Qed.

Lemma framed_getOrCreate w o a : framed w → framed (getOrCreate o a w).2.
Proof.
  intros Hw. unfold getOrCreate.
  destruct (existing_session o w) as [[??]|]; [done|].
  destruct (spawnSession o a w) as [sid w1] eqn:E1.
  assert (framed w1)
    by (change w1 with (sid, w1).2; rewrite <- E1; by apply framed_spawnSession).
  destruct (waitForReady sid None w1) as [st w2] eqn:E2.
  assert (framed w2)
    by (change w2 with (st, w2).2; rewrite <- E2; by apply framed_waitForReady).
  by destruct st.
Qed.

Lemma framed_sendUserMessage w sid c cs w' :
  framed w → sendUserMessage sid c cs w = Some w' → framed w'.
Proof.
  intros Hw. unfold sendUserMessage. intros H. simplify_option_eq.
  apply framed_sendToCLI.
  apply framed_update; [done|]. by apply framed_update.
Qed.

Lemma framed_sendInterrupt w sid u : framed w → framed (sendInterrupt sid u w).
Proof.
  intros Hw. unfold sendInterrupt. case_match; [|done].
  by apply framed_sendToCLI.
Qed.

Lemma routeMessage_sends_json sid r msg w w' :
  routeMessage sid r msg w = Some w' →
  w' = w
  ∨ (∃ v, w' = readyResolve r (emit (N_ready sid msg)
             (update r (on_info (info_set_state ready))
                (update r (on_info (info_set_cliSessionId v)) w))))
  ∨ w' = emit (N_assistant sid msg) w
  ∨ w' = emit (N_result sid msg)
           (update r (on_info (info_set_lastUsedAt (now w)))
              (update r (on_info (info_set_state ready)) w))
  ∨ w' = emit (N_stream_event sid msg) w
  ∨ (∃ v, w' = sendToCLI r (JSON_stringify v) w).
Proof.
  unfold routeMessage, autoApprovePermission. intros H.
  destruct (prop msg "type") as [type|]; [simpl in H|done].
  destruct (is_str type "system").
  { destruct (has_prop "subtype" msg) as [[]|]; simplify_eq; [|by left].
    destruct (prop msg "subtype") as [subtype|]; [simpl in H|done].
    destruct (is_str subtype "init"); simplify_eq; [|by left].
    destruct (prop msg "session_id") as [v|]; [simpl in H|done].
    simplify_eq. right. left. by exists v. }
  destruct (is_str type "assistant"); [simplify_eq; tauto|].
  destruct (is_str type "result"); [simplify_eq; tauto|].
  destruct (is_str type "stream_event"); [simplify_eq; tauto|].
  destruct (is_str type "control_request"); [|simplify_eq; tauto].
  destruct (prop msg "request") as [request|]; [simpl in H|done].
  destruct (prop request "subtype") as [subtype|]; [simpl in H|done].
  destruct (is_str subtype "can_use_tool"); [|simplify_eq; tauto].
  destruct (prop msg "request_id") as [request_id|]; [simpl in H|done].
  rewrite ?Heqo in H.
  destruct (prop request "input") as [input|] eqn:E; simplify_option_eq.
  do 5 right. eauto.
Qed.

Lemma framed_routeMessage w sid r msg w' :
  framed w → routeMessage sid r msg w = Some w' → framed w'.
Proof.
  intros Hw H. apply routeMessage_sends_json in H
    as [->|[[v ->]|[->|[->|[->|[v ->]]]]]]; try done; try same_frames.
  - unfold readyResolve.
    match goal with |- framed (set_waits _ ?x) => assert (framed x) end;
      [|same_frames].
    apply framed_update; [done|].
    match goal with |- framed (emit _ ?x) => assert (framed x) end;
      [|same_frames].
    apply framed_update; [done|]. by apply framed_update.
  - match goal with |- framed (emit _ ?x) => assert (framed x) end;
      [|same_frames].
    apply framed_update; [done|]. by apply framed_update.
  - by apply framed_sendToCLI.
Qed.

Lemma blank_pretty_N_go x : ∀ s,
  all_chars is_space s = false → all_chars is_space (pretty_N_go x s) = false.
Proof.
  induction (N.lt_wf_0 x) as [x _ IH]; intros s Hs.
  assert (x = 0 ∨ 0 < x)%N as [->|?] by lia.
  - by rewrite pretty_N_go_0.
  - rewrite pretty_N_go_step by done. apply IH; [by apply N.div_lt|].
    cbn [all_chars]. rewrite Hs. apply andb_false_r.
Qed.

Lemma nonblank_JSON_stringify v : trim_nonempty (JSON_stringify v) = true.
Proof.
  unfold trim_nonempty. apply negb_true_iff.
  destruct v as [| |[]|n|s|xs|fs]; try done.
  destruct n as [|p|p]; [done| |done].
  change (JSON_stringify (JNum (Z.pos p))) with (pretty (N.pos p)).
  unfold pretty, pretty_N. case_decide; [done|].
  rewrite pretty_N_go_step by lia. apply blank_pretty_N_go.
  cbn [all_chars]. rewrite andb_true_r.
  unfold pretty_N_char. by repeat case_match.
Qed.

Section Framing.
Variable JSON_parse : string → option JSVal.

Lemma framed_on_message w s data :
  framed w → framed (on_message JSON_parse s data w).
Proof.
  intros Hw. unfold on_message. repeat case_match; try done.
  apply framed_foldl; [|done]. intros w' line Hw'. unfold on_line.
  destruct (JSON_parse line) as [msg|]; [|done].
  destruct (routeMessage _ _ msg w') as [w''|] eqn:E; [|done].
  by eapply framed_routeMessage.
Qed.

Lemma framed_step w e : framed w → framed (step JSON_parse w e).
Proof.
  intros Hw.
  destruct e as [| | | | | | | | | | | |sid content cliSid| | |];
    cbn [step].
  - by apply framed_handleConnection.
  - by apply framed_on_message.
  - unfold on_peer_closing. apply framed_alter_sock; [|done].
    intros ws. by destruct (readyState ws).
  - by apply framed_on_close.
  - done.
  - by apply framed_on_proc_exit.
  - unfold on_proc_error. case_match; [|done]. same_frames.
  - by apply framed_fire_timer.
  - by apply framed_reapIdleSessions.
  - same_frames.
  - by apply framed_spawnSession.
  - by apply framed_waitForReady.
  - destruct (sendUserMessage sid content cliSid w) as [w'|] eqn:E;
      [|done]. by eapply framed_sendUserMessage.
  - by apply framed_sendInterrupt.
  - by apply framed_killSession.
  - by apply framed_getOrCreate.
Qed.

End Framing.

Lemma framed_new_bridge port t env t0 : framed (new_bridge port t env t0).
Proof. split; simpl; intros ? ?; by rewrite lookup_empty. Qed.

Lemma records_written vs : records (written vs) = JSON_stringify <$> vs.
Proof.
  unfold records. induction vs as [|v vs IH]; [done|].
  cbn [written]. rewrite split_on_line by apply one_line_JSON_stringify.
  rewrite filter_cons_True by (by rewrite nonblank_JSON_stringify).
  by rewrite IH.
Qed.

Section FramingTheorems.
Variable JSON_parse : string → option JSVal.

Lemma framed_run es : ∀ w, framed w → framed (run JSON_parse w es).
Proof.
  induction es as [|e es IH]; intros w Hw; [done|].
  apply IH. by apply framed_step.
Qed.

(** X23. The bridge speaks NDJSON to the CLI.  Whatever happens to a
    bridge from its creation on, every chunk it has written to a socket is
    one JSON text followed by a line feed, and every frame it holds back
    in a queue is one JSON text; a JSON text has no line feed in it, so each
    write is exactly one record. *)
Theorem bridge_writes_ndjson (port : Z) (sessionTimeoutMs : option Z)
    (env : list (string * string)) (t0 : Z) (es : list Event) :
  framed (run JSON_parse (new_bridge port sessionTimeoutMs env t0) es)
  ∧ ∀ v, one_line (JSON_stringify v) = true.
Proof.
  split; [apply framed_run, framed_new_bridge|apply one_line_JSON_stringify].
Qed.

(** X24. Records are read back as they are written.  A chunk that holds
    JSON texts, each followed by a line feed as [sendToCLI] frames them, is
    taken apart by the message handler into exactly these texts, in order:
    each is parsed and routed once, however many of them arrive in one
    chunk. *)
Theorem written_records_are_read_back (s : nat) (ws : WebSocket)
    (sid : string) (r : nat) (vs : list JSVal) (w : World) :
  socks w !! s = Some ws → handlers ws = Some (sid, r) →
  on_message JSON_parse s (written vs) w
  = foldl (on_line JSON_parse sid r) w (JSON_stringify <$> vs).
Proof.
  intros Hs Hh. unfold on_message. rewrite Hs, Hh.
  by rewrite <- records_written.
Qed.
End FramingTheorems.

(** ** The CLI session id *)

(** X25. The session id the CLI announces comes back to it.  After the
    init frame of a session has been routed, a user message dispatched
    without an explicit CLI session id carries the id the init frame
    announced (the empty string if it announced none), and an explicit id
    overrides it.  The frame is written to the transport if that is open
    and queued otherwise. *)
Theorem user_message_carries_announced_session_id (sid : string) (r : nat)
    (m : ManagedSession) (msg announced content cliSid : JSVal)
    (w w1 w2 : World) :
  Map_get sid (sessions w) = Some r → heap w !! r = Some m →
  prop msg "type" = Some (JStr "system") →
  prop msg "subtype" = Some (JStr "init") →
  has_prop "subtype" msg = Some true →
  prop msg "session_id" = Some announced →
  routeMessage sid r msg w = Some w1 →
  sendUserMessage sid content cliSid w1 = Some w2 →
  let frame :=
    JSON_stringify
      (user_message content (nullish (nullish cliSid announced) (JStr ""))) in
  ∃ m1, heap w1 !! r = Some m1
    ∧ cliSessionId (info m1) = announced
    ∧ state (info m1) = ready
    ∧ if writable w1 m1 then
        ∃ s, cliSocket m1 = Some s
          ∧ transmitted w2 s = transmitted w1 s ++ [frame +:+ nl]
      else queued w2 r = queued w1 r ++ [frame].
Proof.
  intros Hg Hm Htype Hsub Hhas Hsid Hroute Hsend frame.
  unfold routeMessage in Hroute. rewrite Htype in Hroute. simpl in Hroute.
  rewrite Hhas, Hsub in Hroute. simpl in Hroute. rewrite Hsid in Hroute.
  simpl in Hroute. injection Hroute as <-.
  set (m1 := set_readyResolved true
               (on_info (info_set_state ready)
                  (on_info (info_set_cliSessionId announced) m))).
  set (w1 := readyResolve r _) in *.
  assert (heap w1 !! r = Some m1) as Hm1.
  { unfold w1, readyResolve, update, emit. simpl.
    by rewrite !lookup_alter_eq, Hm. }
  assert (sessions w1 = sessions w) as Hs1 by done.
  exists m1. split; [done|]. split; [done|]. split; [done|].
  set (w1' := update r (on_info (info_set_lastUsedAt (now w1)))
                (update r (on_info (info_set_state busy)) w1)).
  set (m1' := on_info (info_set_lastUsedAt (now w1))
                (on_info (info_set_state busy) m1)).
  assert (w2 = sendToCLI r frame w1') as ->.
  { unfold sendUserMessage in Hsend. rewrite Hs1, Hg in Hsend.
    cbn [mbind option_bind] in Hsend. rewrite Hm1 in Hsend.
    cbn [mbind option_bind] in Hsend. by injection Hsend as <-. }
  assert (heap w1' !! r = Some m1') as Hm1'.
  { change (heap w1')
      with (alter (on_info (info_set_lastUsedAt (now w1))) r
              (alter (on_info (info_set_state busy)) r (heap w1))).
    by rewrite !lookup_alter_eq, Hm1. }
  assert (writable w1' m1' = writable w1 m1) as Hwr by done.
  destruct (writable w1 m1) eqn:Hw.
  - destruct (sendToCLI_writes w1' r m1' frame Hm1' Hwr) as (s & Hs & _ & Ht).
    exists s. split; [done|]. exact Ht.
  - rewrite (sendToCLI_queues w1' r m1' frame Hm1' Hwr).
    unfold queued. cbn [heap set_heap]. rewrite lookup_insert_eq.
    by rewrite Hm1.
Qed.

(** ** The messages route *)

Lemma nonempty_Some h s : nonempty h = Some s → h = Some s ∧ s ≠ "".
Proof.
  destruct h as [x|]; [|done]. simpl. case_bool_decide; [done|].
  by intros [= <-].
Qed.


Lemma spawn_options_sessionId ro o :
  spawn_options ro = Some o → o_sessionId o = ro_sessionId ro.
Proof.
  unfold spawn_options. destruct (ro_model ro); intros [= <-]; done.
Qed.

Lemma route_start_sessionId header body ro :
  route_start header body = Called_getOrCreate ro →
  ro_sessionId ro = nonempty (header "x-session-id").
Proof.
  unfold route_start.
  destruct (prop body "messages") as [messages|]; [|done].
  destruct (has_length messages); [|done]. simpl.
  destruct (prop body "model") as [model|]; [|done]. by intros [= <-].
Qed.

(** X27. A request that names a live session is served by it, and a
    request that names none gets a session of its own.  When the header
    [x-session-id] holds the non-empty id of a registered session that has
    not exited, the options the route passes make [getOrCreate] return that
    session with [isNew = false]: the world is unchanged and no process is
    launched.  When the header is absent or empty, [getOrCreate] launches a
    session under a generated id and waits for it. *)
Theorem route_reuses_named_session (header : string → option string)
    (body : JSVal) (ro : RouteOptions) (o : SpawnOptions) (a : Ambient)
    (w : World) :
  route_start header body = Called_getOrCreate ro →
  spawn_options ro = Some o →
  (∀ sid r m, header "x-session-id" = Some sid → sid ≠ "" →
     Map_get sid (sessions w) = Some r → heap w !! r = Some m →
     state (info m) ≠ exited →
     getOrCreate o a w = (Done sid (Some r) false, w))
  ∧ (nonempty (header "x-session-id") = None →
     ∃ w1, getOrCreate o a w
           = (Pending (randomUUID a) (S (S (next_id w))), w1)
       ∧ Map_get (randomUUID a) (sessions w1) = Some (next_id w)).
Proof.
  intros Hroute Ho.
  pose proof (spawn_options_sessionId _ _ Ho) as Hsid.
  rewrite (route_start_sessionId _ _ _ Hroute) in Hsid. split.
  - intros sid r m Hh Hne Hg Hm Hst. apply (getOrCreate_live o a w sid r m);
      try done.
    rewrite Hsid, Hh. simpl. by rewrite bool_decide_eq_false_2.
  - intros Hnone. rewrite Hnone in Hsid.
    assert (existing_session o w = None) as He
      by (unfold existing_session; by rewrite Hsid).
    destruct (getOrCreate_creates o a w He) as (w1 & m1 & Hc & Hs & _).
    rewrite Hsid in Hc, Hs. simpl in Hc, Hs.
    exists w1. split; [done|]. by rewrite Hs, Map_get_set_eq.
Qed.

Lemma drop_spaces_id k : starts_with_text k = true → drop_spaces k = k.
Proof.
  destruct k as [|c k]; [done|]. simpl. intros H%negb_true_iff. by rewrite H.
Qed.

Lemma drop_spaces_app sp k :
  all_chars is_regex_space sp = true → starts_with_text k = true →
  drop_spaces (sp +:+ k) = k.
Proof.
  intros Hsp Hk. induction sp as [|c sp IH]; [by apply drop_spaces_id|].
  cbn [all_chars] in Hsp. apply andb_prop in Hsp as [Hc Hsp].
  change (String c sp +:+ k) with (String c (sp +:+ k)).
  cbn [drop_spaces]. rewrite Hc. by apply IH.
Qed.

Lemma strip_letter_ok lower upper c rest :
  is_letter lower upper c = true →
  strip_letter lower upper (String c rest) = Some rest.
Proof.
  unfold is_letter, strip_letter. intros [H|H]%orb_prop;
    apply bool_decide_eq_true in H; subst.
  - by rewrite decide_True.
  - destruct (decide (upper = lower)); [done|]. by rewrite decide_True.
Qed.

Lemma strip_bearer_prefix b sp k :
  is_bearer b = true → sp ≠ "" → all_chars is_regex_space sp = true →
  starts_with_text k = true →
  strip_bearer (b +:+ sp +:+ k) = k.
Proof.
  intros Hb Hne Hsp Hk.
  destruct b as [|c1 [|c2 [|c3 [|c4 [|c5 [|c6 [|]]]]]]]; try done.
  cbn [is_bearer] in Hb.
  repeat (apply andb_prop in Hb as [Hb ?]).
  destruct sp as [|c sp]; [done|].
  cbn [all_chars] in Hsp. apply andb_prop in Hsp as [Hc Hsp].
  unfold strip_bearer.
  change ((String c1 (String c2 (String c3 (String c4 (String c5
             (String c6 "")))))) +:+ String c sp +:+ k)
    with (String c1 (String c2 (String c3 (String c4 (String c5
            (String c6 (String c (sp +:+ k)))))))).
  rewrite !strip_letter_ok by done. cbn [mbind option_bind].
  rewrite !strip_letter_ok by done. cbn [mbind option_bind].
  rewrite !strip_letter_ok by done. cbn [mbind option_bind].
  rewrite !strip_letter_ok by done. cbn [mbind option_bind].
  rewrite !strip_letter_ok by done. cbn [mbind option_bind].
  rewrite !strip_letter_ok by done.
  rewrite Hc. by apply drop_spaces_app.
Qed.


Lemma sendUserMessage_frame sid content cliSid w r m :
  Map_get sid (sessions w) = Some r → heap w !! r = Some m →
  let frame :=
    JSON_stringify
      (user_message content
         (nullish (nullish cliSid (cliSessionId (info m))) (JStr ""))) in
  ∃ w2, sendUserMessage sid content cliSid w = Some w2
    ∧ (∃ m2, heap w2 !! r = Some m2 ∧ state (info m2) = busy
         ∧ lastUsedAt (info m2) = now w)
    ∧ if writable w m then
        ∃ s, cliSocket m = Some s
          ∧ transmitted w2 s = transmitted w s ++ [frame +:+ nl]
      else queued w2 r = queued w r ++ [frame].
Proof.
  intros Hg Hm frame.
  set (w1 := update r (on_info (info_set_lastUsedAt (now w)))
               (update r (on_info (info_set_state busy)) w)).
  set (m1 := on_info (info_set_lastUsedAt (now w))
               (on_info (info_set_state busy) m)).
  assert (heap w1 !! r = Some m1) as Hm1.
  { change (heap w1)
      with (alter (on_info (info_set_lastUsedAt (now w))) r
              (alter (on_info (info_set_state busy)) r (heap w))).
    by rewrite !lookup_alter_eq, Hm. }
  exists (sendToCLI r frame w1). split.
  { unfold sendUserMessage. rewrite Hg. cbn [mbind option_bind].
    rewrite Hm. done. }
  split.
  { destruct (sendToCLI_info w1 r frame r m1 Hm1) as (m2 & Hm2 & Hi & _).
    exists m2. split; [done|]. by rewrite Hi. }
  assert (writable w1 m1 = writable w m) as Hwr by done.
  destruct (writable w m) eqn:Hw.
  - destruct (sendToCLI_writes w1 r m1 frame Hm1 Hwr) as (s & Hs & _ & Ht).
    exists s. split; [done|]. exact Ht.
  - rewrite (sendToCLI_queues w1 r m1 frame Hm1 Hwr).
    unfold queued. cbn [heap set_heap]. rewrite lookup_insert_eq.
    by rewrite Hm.
Qed.

(** X29. A non-streaming request hands the CLI its user text.  When
    [getOrCreate] has failed, the route answers 500 with the message of the
    failure.  When it has given a session and the body does not ask for a
    stream, the route calls [handleNonStreaming] with the text that
    [extractUserContent] returns, and that call dispatches one user
    message whose content is this text: the session becomes busy and the
    frame is written to its transport if that is open, queued otherwise. *)
Theorem non_streaming_request_dispatches_user_text (body stream model : JSVal)
    (message sid content : string) (w : World) (r : nat)
    (m : ManagedSession) :
  extractUserContent body = Returns content →
  prop body "stream" = Some stream → truthy stream = false →
  prop body "model" = Some model →
  Map_get sid (sessions w) = Some r → heap w !! r = Some m →
  let frame :=
    JSON_stringify
      (user_message (JStr content)
         (nullish (cliSessionId (info m)) (JStr ""))) in
  route_resume body (inl message)
  = Failed_with
      (mkHttpResponse 500
         (api_error ("Failed to initialize session: " +:+ message)) [])
  ∧ route_resume body (inr sid) = NonStreaming_call sid content model
  ∧ ∃ w2, (handleNonStreaming sid (JStr content) w).2 = Some w2
      ∧ (∃ m2, heap w2 !! r = Some m2 ∧ state (info m2) = busy)
      ∧ if writable w m then
          ∃ s, cliSocket m = Some s
            ∧ transmitted w2 s = transmitted w s ++ [frame +:+ nl]
        else queued w2 r = queued w r ++ [frame].
Proof.
  intros Hc Hs Ht Hmodel Hg Hm frame. split; [done|]. split.
  { unfold route_resume. by rewrite Hc, Hs, Hmodel, Ht. }
  destruct (sendUserMessage_frame sid (JStr content) JUndefined w r m Hg Hm)
    as (w2 & Hsend & (m2 & Hm2 & Hst & _) & Hf).
  exists w2. split; [done|]. split; [by exists m2|]. exact Hf.
Qed.

(** ** The properties beyond the claims on sample inputs *)

(** The response to the example turn has an API stop reason. *)
Lemma built_responses_have_api_stop_reason_witness :
  (buildAnthropicResponse assistant_hi result_end_turn uuid0
   = Some response_hi
   ∨ buildPartialResponse assistant_hi JUndefined uuid0 = Some response_hi)
  ∧ prop response_hi "stop_reason" = Some (JStr "end_turn")
  ∧ ∃ s, prop response_hi "stop_reason" = Some s ∧ s ∈ api_stop_reasons.
Proof.
  assert (buildAnthropicResponse assistant_hi result_end_turn uuid0
          = Some response_hi
          ∨ buildPartialResponse assistant_hi JUndefined uuid0
            = Some response_hi) as H by (left; vm_compute; reflexivity).
  split; [exact H|]. split; [reflexivity|].
  destruct (built_responses_have_api_stop_reason assistant_hi
              result_end_turn JUndefined uuid0 response_hi H)
    as (_ & _ & _ & Hs).
  exact Hs.
Defined.

(** The call for [abc] fails on an error and ignores the result after it. *)
Lemma nonstreaming_resolves_once_witness :
  response (assemble uuid0 call_abc [N_error "abc" "boom"])
  = Some (mkHttpResponse 500 (api_error "boom") [])
  ∧ response
      (assemble uuid0 call_abc
         ([N_error "abc" "boom"] ++ [N_result "abc" result_end_turn]))
    = Some (mkHttpResponse 500 (api_error "boom") [])
  ∧ response
      (request_timeout
         (assemble uuid0 call_abc
            ([N_error "abc" "boom"] ++ [N_result "abc" result_end_turn])))
    = Some (mkHttpResponse 500 (api_error "boom") []).
Proof.
  assert (response (assemble uuid0 call_abc [N_error "abc" "boom"])
          = Some (mkHttpResponse 500 (api_error "boom") [])) as H
    by (vm_compute; reflexivity).
  split; [exact H|].
  exact (nonstreaming_resolves_once uuid0 call_abc [N_error "abc" "boom"]
           [N_result "abc" result_end_turn] _ H).
Defined.

(** The call for [abc] fails while another session goes on. *)
Lemma nonstreaming_failures_witness :
  Forall (λ n, concerns "abc" n = false) pre_hi
  ∧ response
      (assemble uuid0 (handleNonStreaming "abc" (JStr "hello") w_connected).1
         (pre_hi ++ N_exit "abc" (Some 137) :: post_hi))
    = Some (mkHttpResponse 500
              (api_error ("CLI process exited with code "
                          +:+ show_code (Some 137))) []).
Proof.
  assert (Forall (λ n, concerns "abc" n = false) pre_hi) as H
    by (repeat constructor).
  split; [exact H|].
  destruct (nonstreaming_failures uuid0 "abc" (JStr "hello") w_connected
              pre_hi post_hi "boom" (Some 137) result_end_turn H)
    as (_ & Hexit & _).
  exact Hexit.
Defined.

(** Of two assistant messages the second is answered. *)
Lemma nonstreaming_uses_last_assistant_witness :
  Forall (λ n, terminal "abc" n = false) [N_assistant "abc" assistant_thinking]
  ∧ Forall (λ n, concerns "abc" n = false) mid_hi
  ∧ truthy assistant_hi = true
  ∧ buildAnthropicResponse assistant_hi result_end_turn uuid0
    = Some response_hi
  ∧ assemble uuid0 (handleNonStreaming "abc" (JStr "hello") w_connected).1
      ([N_assistant "abc" assistant_thinking]
         ++ N_assistant "abc" assistant_hi
         :: mid_hi ++ N_result "abc" result_end_turn :: post_hi)
    = mkNonStreaming "abc" (Some assistant_hi) false
        (Some (mkHttpResponse 200 response_hi [("x-session-id", "abc")])).
Proof.
  assert (Forall (λ n, terminal "abc" n = false)
            [N_assistant "abc" assistant_thinking]) as H1
    by (repeat constructor).
  assert (Forall (λ n, concerns "abc" n = false) mid_hi) as H2
    by (repeat constructor).
  assert (buildAnthropicResponse assistant_hi result_end_turn uuid0
          = Some response_hi) as H4 by (vm_compute; reflexivity).
  split; [exact H1|]. split; [exact H2|]. split; [reflexivity|].
  split; [exact H4|].
  exact (nonstreaming_uses_last_assistant uuid0 "abc" (JStr "hello")
           w_connected assistant_hi result_end_turn response_hi
           [N_assistant "abc" assistant_thinking] mid_hi post_hi
           H1 H2 eq_refl H4).
Defined.

(** A result without usage leaves the call to its timer. *)
Lemma nonstreaming_unbuildable_result_times_out_witness :
  Forall (λ n, terminal "abc" n = false) pre_hi
  ∧ Forall (λ n, concerns "abc" n = false) mid_hi
  ∧ truthy assistant_hi = true
  ∧ buildAnthropicResponse assistant_hi result_no_usage uuid0 = None
  ∧ response
      (request_timeout
         (assemble uuid0
            (handleNonStreaming "abc" (JStr "hello") w_connected).1
            (pre_hi ++ N_assistant "abc" assistant_hi
               :: mid_hi ++ N_result "abc" result_no_usage :: post_hi)))
    = Some (mkHttpResponse 504 (api_error "Request timed out") []).
Proof.
  assert (Forall (λ n, terminal "abc" n = false) pre_hi) as H1
    by (repeat constructor).
  assert (Forall (λ n, concerns "abc" n = false) mid_hi) as H2
    by (repeat constructor).
  assert (buildAnthropicResponse assistant_hi result_no_usage uuid0 = None)
    as H4 by (vm_compute; reflexivity).
  split; [exact H1|]. split; [exact H2|]. split; [reflexivity|].
  split; [exact H4|].
  destruct (nonstreaming_unbuildable_result_times_out uuid0 "abc"
              (JStr "hello") w_connected assistant_hi result_no_usage
              pre_hi mid_hi post_hi H1 H2 eq_refl H4) as (_ & Ht).
  exact Ht.
Defined.

(** Of two user turns the second is read, prefill or not. *)
Lemma extractUserContent_reads_last_user_message_witness :
  prop request_two_turns "messages"
  = Some (JArr ([message_of "user" (JStr "first");
                 message_of "assistant" (JStr "reply")]
                ++ message_of "user"
                     (JArr [text_block "look"; image_block;
                            text_block "here"])
                :: [message_of "assistant" (JStr "prefill")]))
  ∧ Forall not_user [message_of "assistant" (JStr "prefill")]
  ∧ extractUserContent request_two_turns
    = extractUserContent request_last_turn.
Proof.
  assert (Forall not_user [message_of "assistant" (JStr "prefill")]) as H
    by (repeat constructor; by exists (JStr "assistant")).
  split; [reflexivity|]. split; [exact H|].
  exact (extractUserContent_reads_last_user_message request_two_turns
           request_last_turn
           (message_of "user"
              (JArr [text_block "look"; image_block; text_block "here"]))
           [message_of "user" (JStr "first");
            message_of "assistant" (JStr "reply")]
           [message_of "assistant" (JStr "prefill")]
           eq_refl eq_refl H eq_refl eq_refl).
Defined.

(** A request with an assistant message only. *)
Lemma extractUserContent_needs_user_message_witness :
  prop request_no_user "messages"
  = Some (JArr [message_of "assistant" (JStr "hi")])
  ∧ Forall not_user [message_of "assistant" (JStr "hi")]
  ∧ extractUserContent request_no_user = Throws (Error no_user_message).
Proof.
  assert (Forall not_user [message_of "assistant" (JStr "hi")]) as H
    by (repeat constructor; by exists (JStr "assistant")).
  split; [reflexivity|]. split; [exact H|].
  exact (extractUserContent_needs_user_message request_no_user
           [message_of "assistant" (JStr "hi")] eq_refl H).
Defined.

(** Two text blocks around an image. *)
Lemma extractUserContent_joins_text_blocks_witness :
  Forall not_user [message_of "assistant" (JStr "prefill")]
  ∧ prop request_two_turns "system" = Some JUndefined
  ∧ Forall typed_block [text_block "look"; image_block; text_block "here"]
  ∧ extractUserContent request_two_turns
    = Returns ("look" +:+ nl +:+ "here").
Proof.
  assert (Forall not_user [message_of "assistant" (JStr "prefill")]) as H
    by (repeat constructor; by exists (JStr "assistant")).
  assert (Forall typed_block
            [text_block "look"; image_block; text_block "here"]) as Hb.
  { repeat constructor.
    - exists (JStr "text"). split; [done|]. intros _. by exists "look".
    - exists (JStr "image"). split; [done|]. done.
    - exists (JStr "text"). split; [done|]. intros _. by exists "here". }
  split; [exact H|]. split; [reflexivity|]. split; [exact Hb|].
  destruct (extractUserContent_joins_text_blocks request_two_turns
              (message_of "user"
                 (JArr [text_block "look"; image_block; text_block "here"]))
              [message_of "user" (JStr "first");
               message_of "assistant" (JStr "reply")]
              [message_of "assistant" (JStr "prefill")]
              [text_block "look"; image_block; text_block "here"] ""
              eq_refl eq_refl H eq_refl) as (_ & Hblocks).
  exact (Hblocks eq_refl Hb).
Defined.

(** A system prompt in front of [hello]. *)
Lemma extractUserContent_prepends_system_witness :
  extractUserContent (request_with_system JUndefined) = Returns "hello"
  ∧ extractUserContent (request_with_system (JStr "be brief"))
    = Returns ("be brief" +:+ nl +:+ nl +:+ "hello")
  ∧ extractUserContent (request_with_system (JStr "")) = Returns "hello"
  ∧ extractUserContent (request_with_system (JArr []))
    = Returns (nl +:+ nl +:+ "hello").
Proof.
  assert (extractUserContent (request_with_system JUndefined)
          = Returns "hello") as H by reflexivity.
  split; [exact H|].
  split.
  { destruct (extractUserContent_prepends_system
                (request_with_system (JStr "be brief"))
                (request_with_system JUndefined) (JStr "be brief") "hello"
                eq_refl eq_refl eq_refl H) as (_ & Hs & _).
    apply (Hs "be brief"); [reflexivity|discriminate]. }
  split.
  { destruct (extractUserContent_prepends_system
                (request_with_system (JStr ""))
                (request_with_system JUndefined) (JStr "") "hello"
                eq_refl eq_refl eq_refl H) as (Hf & _).
    apply Hf. reflexivity. }
  destruct (extractUserContent_prepends_system
              (request_with_system (JArr []))
              (request_with_system JUndefined) (JArr []) "hello"
              eq_refl eq_refl eq_refl H) as (_ & _ & Ha).
  exact (Ha [] eq_refl).
Defined.

(** A connection for a session nobody registered. *)
Lemma unknown_session_is_refused_witness :
  match_path (default "" (Some "/ws/cli/ffff")) = Some "ffff"
  ∧ Map_get "ffff" (sessions w_abc) = None
  ∧ socks (handleConnection (Some "/ws/cli/ffff") w_abc) !! 2%nat
    = Some (mkWebSocket CLOSING [] [Some (4001, "Unknown session")] None)
  ∧ heap (handleConnection (Some "/ws/cli/ffff") w_abc) = heap w_abc.
Proof.
  assert (match_path (default "" (Some "/ws/cli/ffff")) = Some "ffff") as H1
    by (vm_compute; reflexivity).
  assert (Map_get "ffff" (sessions w_abc) = None) as H2
    by (vm_compute; reflexivity).
  split; [exact H1|]. split; [exact H2|].
  destruct (unknown_session_is_refused parse0 (Some "/ws/cli/ffff") "ffff"
              w_abc H1 H2) as (Hs & _ & Hh & _).
  split; [exact Hs|exact Hh].
Defined.

(** A session under a generated id, and the connection of its process. *)
Lemma spawned_address_routes_back_witness :
  default (randomUUID amb0) (o_sessionId (opts0 None)) = uuid0
  ∧ uuid0 ≠ ""
  ∧ all_chars is_id_char uuid0 = true
  ∧ match_path ("/ws/cli/" +:+ uuid0) = Some uuid0
  ∧ ∃ m, heap (handleConnection (Some ("/ws/cli/" +:+ uuid0))
                 (spawnSession (opts0 None) amb0 w0).2) !! 0%nat = Some m
      ∧ state (info m) = connected.
Proof.
  assert (uuid0 ≠ "") as H2 by discriminate.
  assert (all_chars is_id_char uuid0 = true) as H3
    by (vm_compute; reflexivity).
  split; [reflexivity|]. split; [exact H2|]. split; [exact H3|].
  destruct (spawned_address_routes_back (opts0 None) amb0 w0 uuid0
              eq_refl H2 H3) as (_ & _ & Hp & m & Hm & _ & Hst & _).
  split; [exact Hp|]. exists m. split; [exact Hm|exact Hst].
Defined.

(** A second [abc] is spawned while the first one runs. *)
Lemma spawnSession_takes_over_id_witness :
  wf w_abc
  ∧ o_sessionId (opts0 (Some "abc")) = Some "abc"
  ∧ Map_get "abc" (sessions w_abc) = Some 0%nat
  ∧ heap w_abc !! 0%nat = Some m_abc
  ∧ Map_get "abc" (sessions (spawnSession (opts0 (Some "abc")) amb0 w_abc).2)
    = Some 2%nat
  ∧ heap (spawnSession (opts0 (Some "abc")) amb0 w_abc).2 !! 0%nat
    = Some m_abc
  ∧ procs (spawnSession (opts0 (Some "abc")) amb0 w_abc).2 !! 1%nat
    = procs w_abc !! 1%nat.
Proof.
  assert (Map_get "abc" (sessions w_abc) = Some 0%nat) as H3
    by (vm_compute; reflexivity).
  assert (heap w_abc !! 0%nat = Some m_abc) as H4 by (vm_compute; reflexivity).
  split; [exact wf_w_abc|]. split; [reflexivity|]. split; [exact H3|].
  split; [exact H4|].
  destruct (spawnSession_takes_over_id (opts0 (Some "abc")) amb0 w_abc "abc"
              0 m_abc wf_w_abc eq_refl H3 H4)
    as (Hg & _ & _ & _ & Hh & Hp).
  split; [exact Hg|]. split; [exact Hh|]. exact (Hp 1%nat eq_refl).
Defined.

(** [getOrCreate] on [abc] after its process has exited. *)
Lemma getOrCreate_replaces_exited_session_witness :
  o_sessionId (opts0 (Some "abc")) = Some "abc"
  ∧ Map_get "abc" (sessions w_exited) = Some 0%nat
  ∧ heap w_exited !! 0%nat = Some m_exited
  ∧ state (info m_exited) = exited
  ∧ ∃ w1 m1,
      getOrCreate (opts0 (Some "abc")) amb0 w_exited = (Pending "abc" 4, w1)
      ∧ Map_get "abc" (sessions w1) = Some 2%nat
      ∧ heap w1 !! 2%nat = Some m1
      ∧ state (info m1) = starting.
Proof.
  assert (Map_get "abc" (sessions w_exited) = Some 0%nat) as H2
    by (vm_compute; reflexivity).
  assert (heap w_exited !! 0%nat = Some m_exited) as H3
    by (vm_compute; reflexivity).
  split; [reflexivity|]. split; [exact H2|]. split; [exact H3|].
  split; [reflexivity|].
  destruct (getOrCreate_replaces_exited_session (opts0 (Some "abc")) amb0
              w_exited "abc" 0 m_exited eq_refl H2 H3 eq_refl)
    as (w1 & m1 & Hc & Hg & Hm & Hst & _).
  exists w1, m1. split; [exact Hc|]. split; [exact Hg|].
  split; [exact Hm|exact Hst].
Defined.


(** An interrupt for the connected session [abc], and for nobody. *)
Lemma sendInterrupt_sends_one_frame_witness :
  Map_get "abc" (sessions w_connected) = Some 0%nat
  ∧ heap w_connected !! 0%nat = Some m_connected
  ∧ sendInterrupt "nobody" uuid0 w_connected = w_connected
  ∧ transmitted (sendInterrupt "abc" uuid0 w_connected) 2
    = [JSON_stringify (interrupt_request uuid0) +:+ nl]
  ∧ state_of (sendInterrupt "abc" uuid0 w_connected) 0 = Some connected.
Proof.
  assert (Map_get "abc" (sessions w_connected) = Some 0%nat) as H1
    by (vm_compute; reflexivity).
  assert (heap w_connected !! 0%nat = Some m_connected) as H2
    by (vm_compute; reflexivity).
  split; [exact H1|]. split; [exact H2|].
  destruct (sendInterrupt_sends_one_frame "abc" uuid0 w_connected)
    as (_ & Hyes).
  destruct (sendInterrupt_sends_one_frame "nobody" uuid0 w_connected)
    as (Hno & _).
  split; [apply Hno; vm_compute; reflexivity|].
  destruct (Hyes 0%nat m_connected H1 H2)
    as ((m' & Hm' & Hi) & _ & _ & Hf).
  change (writable w_connected m_connected) with true in Hf.
  destruct Hf as (s & Hs & Ht & _). injection Hs as <-.
  split; [exact Ht|]. unfold state_of. rewrite Hm'. simpl. by rewrite Hi.
Defined.

(** The reaper passes half an hour after a dispatch to [abc]. *)
Lemma dispatch_postpones_reaping_witness :
  wf w_abc
  ∧ Map_get "abc" (sessions w_abc) = Some 0%nat
  ∧ heap w_abc !! 0%nat = Some m_abc
  ∧ sendUserMessage "abc" (JStr "hi") JUndefined w_abc = Some w_dispatched
  ∧ 0 ≤ sessionTimeout w_abc
  ∧ 1801000 - now w_abc ≤ sessionTimeout w_abc
  ∧ Map_get "abc"
      (sessions
         (reapIdleSessions
            (set_now (Z.max (now w_dispatched) 1801000) w_dispatched)))
    = Some 0%nat.
Proof.
  assert (Map_get "abc" (sessions w_abc) = Some 0%nat) as H2
    by (vm_compute; reflexivity).
  assert (heap w_abc !! 0%nat = Some m_abc) as H3 by (vm_compute; reflexivity).
  assert (sendUserMessage "abc" (JStr "hi") JUndefined w_abc
          = Some w_dispatched) as H4 by (vm_compute; reflexivity).
  assert (0 ≤ sessionTimeout w_abc) as H5 by (vm_compute; discriminate).
  assert (1801000 - now w_abc ≤ sessionTimeout w_abc) as H6
    by (vm_compute; discriminate).
  split; [exact wf_w_abc|]. do 5 (split; [assumption|]).
  destruct (dispatch_postpones_reaping "abc" (JStr "hi") JUndefined w_abc
              w_dispatched 0 m_abc 1801000 wf_w_abc H2 H3 H4 H5 H6)
    as (Hg & _).
  exact Hg.
Defined.

(** The bridge shuts down while [abc] runs. *)
Lemma shutdown_kills_every_session_witness :
  wf w_abc
  ∧ Map_get "abc" (sessions w_abc) = Some 0%nat
  ∧ heap w_abc !! 0%nat = Some m_abc
  ∧ ∃ k c c', k ∈ (shutdown w_abc).2
      ∧ kills w_abc !! k = None
      ∧ kill_pending (shutdown w_abc).1 k "abc" 0 1 (now w_abc + 5000)
      ∧ procs w_abc !! 1%nat = Some c
      ∧ procs (shutdown w_abc).1 !! 1%nat = Some c'
      ∧ signals c' = match exitCode c with
                     | None => signals c ++ [SIGTERM]
                     | Some _ => signals c
                     end.
Proof.
  assert (Map_get "abc" (sessions w_abc) = Some 0%nat) as H2
    by (vm_compute; reflexivity).
  assert (heap w_abc !! 0%nat = Some m_abc) as H3 by (vm_compute; reflexivity).
  split; [exact wf_w_abc|]. split; [exact H2|]. split; [exact H3|].
  exact (shutdown_kills_every_session w_abc "abc" 0 m_abc wf_w_abc H2 H3).
Defined.

(** The init frame and a result arrive in one chunk. *)
Lemma written_records_are_read_back_witness :
  socks w_connected !! 2%nat
  = Some (mkWebSocket OPEN [] [] (Some ("abc", 0%nat)))
  ∧ on_message parse0 2 (written [frame_init; frame_result]) w_connected
    = foldl (on_line parse0 "abc" 0) w_connected
        [JSON_stringify frame_init; JSON_stringify frame_result]
  ∧ state_of
      (on_message parse0 2 (written [frame_init; frame_result]) w_connected)
      0 = Some ready.
Proof.
  assert (socks w_connected !! 2%nat
          = Some (mkWebSocket OPEN [] [] (Some ("abc", 0%nat)))) as H1
    by (vm_compute; reflexivity).
  split; [exact H1|]. split; [|vm_compute; reflexivity].
  exact (written_records_are_read_back parse0 2 _ "abc" 0
           [frame_init; frame_result] w_connected H1 eq_refl).
Defined.

(** The session [abc] announces [cli-1] and is sent a user message. *)
Lemma user_message_carries_announced_session_id_witness :
  Map_get "abc" (sessions w_connected) = Some 0%nat
  ∧ heap w_connected !! 0%nat = Some m_connected
  ∧ routeMessage "abc" 0 frame_init w_connected = Some w_initialised
  ∧ sendUserMessage "abc" (JStr "hi") JUndefined w_initialised
    = Some w_answering
  ∧ transmitted w_answering 2
    = [JSON_stringify (user_message (JStr "hi") (JStr "cli-1")) +:+ nl].
Proof.
  assert (Map_get "abc" (sessions w_connected) = Some 0%nat) as H1
    by (vm_compute; reflexivity).
  assert (heap w_connected !! 0%nat = Some m_connected) as H2
    by (vm_compute; reflexivity).
  assert (routeMessage "abc" 0 frame_init w_connected = Some w_initialised)
    as H3 by (vm_compute; reflexivity).
  assert (sendUserMessage "abc" (JStr "hi") JUndefined w_initialised
          = Some w_answering) as H4 by (vm_compute; reflexivity).
  do 4 (split; [assumption|]).
  destruct (user_message_carries_announced_session_id "abc" 0 m_connected
              frame_init (JStr "cli-1") (JStr "hi") JUndefined w_connected
              w_initialised w_answering H1 H2 eq_refl eq_refl eq_refl eq_refl
              H3 H4) as (m1 & Hm1 & _ & _ & Hf).
  assert (writable w_initialised m1 = true) as Hw.
  { assert (Some m1 = heap w_initialised !! 0%nat) as E by (by rewrite Hm1).
    vm_compute in E. injection E as ->. vm_compute. reflexivity. }
  rewrite Hw in Hf. destruct Hf as (s & Hs & Ht).
  assert (s = 2%nat) as ->.
  { assert (Some m1 = heap w_initialised !! 0%nat) as E by (by rewrite Hm1).
    vm_compute in E. injection E as ->. by injection Hs as <-. }
  rewrite Ht. vm_compute. reflexivity.
Defined.

(** A request for the session [abc] with a key. *)
Lemma route_reuses_named_session_witness :
  route_start headers_session body_hello
  = Called_getOrCreate route_options_session
  ∧ spawn_options route_options_session = Some spawn_options_session
  ∧ getOrCreate spawn_options_session amb0 w_abc
    = (Done "abc" (Some 0%nat) false, w_abc).
Proof.
  assert (route_start headers_session body_hello
          = Called_getOrCreate route_options_session) as H1
    by (vm_compute; reflexivity).
  split; [exact H1|]. split; [reflexivity|].
  destruct (route_reuses_named_session headers_session body_hello
              route_options_session spawn_options_session amb0 w_abc H1
              eq_refl) as (Hreuse & _).
  apply (Hreuse "abc" 0%nat m_abc); try (vm_compute; reflexivity);
    discriminate.
Defined.


(** The request [hello] for the session [abc], not streamed. *)
Lemma non_streaming_request_dispatches_user_text_witness :
  extractUserContent body_hello = Returns "hello"
  ∧ prop body_hello "stream" = Some JUndefined
  ∧ Map_get "abc" (sessions w_abc) = Some 0%nat
  ∧ heap w_abc !! 0%nat = Some m_abc
  ∧ route_resume body_hello (inr "abc")
    = NonStreaming_call "abc" "hello" (JStr "claude-sonnet-4-5-20250929")
  ∧ ∃ w2, (handleNonStreaming "abc" (JStr "hello") w_abc).2 = Some w2
      ∧ queued w2 0
        = [JSON_stringify (user_message (JStr "hello") (JStr ""))].
Proof.
  assert (extractUserContent body_hello = Returns "hello") as H1
    by reflexivity.
  assert (Map_get "abc" (sessions w_abc) = Some 0%nat) as H5
    by (vm_compute; reflexivity).
  assert (heap w_abc !! 0%nat = Some m_abc) as H6 by (vm_compute; reflexivity).
  split; [exact H1|]. split; [reflexivity|]. split; [exact H5|].
  split; [exact H6|].
  destruct (non_streaming_request_dispatches_user_text body_hello JUndefined
              (JStr "claude-sonnet-4-5-20250929") "no" "abc" "hello" w_abc 0
              m_abc H1 eq_refl eq_refl eq_refl H5 H6)
    as (_ & Hr & w2 & Hw2 & _ & Hf).
  split; [exact Hr|]. exists w2. split; [exact Hw2|].
  change (writable w_abc m_abc) with false in Hf. rewrite Hf.
  vm_compute. reflexivity.
Defined.
